(** * PQS (Project Quick Start): template sources, cache and materialization

    A shallow embedding of the JavaScript sources [src/git-utils.js],
    [src/cache-manager.js], [src/git-cloner.js], [src/template-source.js]
    and [src/index.js], followed by the properties of the specification
    that are settled on it.

    Conventions of the embedding.
    - A JavaScript string is a Rocq [string].  The character classes of the
      regular expressions ([\w], [\s], [a-z], ...) and
      [toUpperCase]/[toLowerCase] are modelled on ASCII: the embedding is
      that of the code on ASCII text ([Js.is_ascii_text]).  A property that
      depends on a character class or on case folding of a text it does
      not construct itself says so in a hypothesis.
    - A JavaScript object used as a dictionary ([values], [answers],
      [cliArgs], the cache index) is a [gmap string _] of its own
      properties; a missing key reads as [undefined].  The members every
      object inherits ([Js.object_prototype_members]) are not in the map:
      a property that reads a key the map does not hold, or that writes
      under a name, keeps these names out by a hypothesis.
    - A number is an integer; [String(n)] is its decimal form, which is
      what JavaScript prints below [10^21] ([Subst.is_decimal]).
    - A path is normalised: [Sys.join] adds one separator, where
      [path.join] would also remove [.], [..] and doubled separators;
      [PQS.resolve] normalises as [path.resolve] does.  A file holds text:
      reading and writing it with ['utf8'] gives back what it holds.
    - The file system, the clock, the random UUID source, the prompt
      library, [glob]/[minimatch], [date-fns], [crypto], [require],
      [JSON.parse] and the shell are external: they appear as fields of an
      environment or as section variables, and every effect the code
      performs on them is recorded in an explicit state. *)

From Stdlib Require Import String Ascii List Bool ZArith Lia.
From stdpp Require Import base strings gmap list pretty.
Local Open Scope string_scope.
Local Open Scope list_scope.

(** ** JavaScript strings *)

Module Js.

Definition code (c : ascii) : nat := nat_of_ascii c.

Definition between (lo hi : nat) (c : ascii) : bool :=
  (lo <=? code c)%nat && (code c <=? hi)%nat.

(** [[0-9]], [[A-Z]], [[a-z]] *)
Definition is_digit : ascii → bool := between 48 57.
Definition is_upper : ascii → bool := between 65 90.
Definition is_lower : ascii → bool := between 97 122.

(** [\w] is [[A-Za-z0-9_]]. *)
Definition is_word (c : ascii) : bool :=
  is_upper c || is_lower c || is_digit c || Ascii.eqb c "_".

(** [\s] on ASCII: TAB, LF, VT, FF, CR and SPACE. *)
Definition is_space (c : ascii) : bool :=
  between 9 13 c || Ascii.eqb c " ".

(** [.] matches every character that is not a line terminator. *)
Definition is_line_terminator (c : ascii) : bool :=
  (code c =? 10)%nat || (code c =? 13)%nat.

Definition upper_char (c : ascii) : ascii :=
  if is_lower c then ascii_of_nat (code c - 32) else c.

Definition lower_char (c : ascii) : ascii :=
  if is_upper c then ascii_of_nat (code c + 32) else c.

Fixpoint map_chars (f : ascii → ascii) (s : string) : string :=
  match s with
  | "" => ""
  | String c s' => String (f c) (map_chars f s')
  end.

Definition toUpperCase : string → string := map_chars upper_char.
Definition toLowerCase : string → string := map_chars lower_char.

Fixpoint all_chars (f : ascii → bool) (s : string) : bool :=
  match s with
  | "" => true
  | String c s' => f c && all_chars f s'
  end.

Fixpoint filter_chars (f : ascii → bool) (s : string) : string :=
  match s with
  | "" => ""
  | String c s' => if f c then String c (filter_chars f s') else filter_chars f s'
  end.

(** [[^x]] *)
Definition not_char (x : ascii) (c : ascii) : bool := negb (Ascii.eqb c x).

Definition is_empty (s : string) : bool :=
  match s with "" => true | _ => false end.

(** [strip_prefix p s] is [Some r] when [s = p ++ r]. *)
Fixpoint strip_prefix (p s : string) : option string :=
  match p with
  | "" => Some s
  | String a p' =>
      match s with
      | String b s' => if Ascii.eqb a b then strip_prefix p' s' else None
      | "" => None
      end
  end.

Definition startsWith (p s : string) : bool :=
  match strip_prefix p s with Some _ => true | None => false end.

(** [s.includes(sub)]: [sub] starts at some position of [s]. *)
Fixpoint includes (sub s : string) : bool :=
  startsWith sub s ||
  match s with
  | "" => false
  | String _ s' => includes sub s'
  end.

(** [strip_suffix suf s] is [Some r] when [s = r ++ suf]. *)
Fixpoint strip_suffix (suf s : string) : option string :=
  if String.eqb s suf then Some ""
  else match s with
       | "" => None
       | String c s' => String c <$> strip_suffix suf s'
       end.

Definition endsWith (suf s : string) : bool :=
  match strip_suffix suf s with Some _ => true | None => false end.

(** The longest prefix whose characters satisfy [f], and what follows it. *)
Fixpoint take_while (f : ascii → bool) (s : string) : string :=
  match s with
  | "" => ""
  | String c s' => if f c then String c (take_while f s') else ""
  end.

Fixpoint drop_while (f : ascii → bool) (s : string) : string :=
  match s with
  | "" => ""
  | String c s' => if f c then drop_while f s' else s
  end.

(** A greedy [[cls]+] whose follow character lies outside [cls]: the run
    has to be the longest one, since giving characters back leaves a
    character of [cls] where the follow character is expected. *)
Definition segment (f : ascii → bool) (s : string) : option (string * string) :=
  match take_while f s with
  | "" => None
  | run => Some (run, drop_while f s)
  end.

(** The first of the literal alternatives [(a|b|c)] that [s] starts with.
    It is used where no input starts with two of the alternatives, so that
    trying a later alternative after a failure cannot succeed. *)
Fixpoint strip_any (alts : list string) (s : string) : option string :=
  match alts with
  | [] => None
  | a :: alts' =>
      match strip_prefix a s with
      | Some r => Some r
      | None => strip_any alts' s
      end
  end.

(** [s.split(sep)] for a one-character separator. *)
Fixpoint split (sep : ascii) (s : string) : list string :=
  match s with
  | "" => [""]
  | String c s' =>
      if Ascii.eqb c sep then "" :: split sep s'
      else match split sep s' with
           | p :: ps => String c p :: ps
           | [] => [String c ""]
           end
  end.

Definition take (n : nat) (s : string) : string := String.substring 0 n s.

(** [s.replace(/re/g, f)]: a left-to-right scan.  [match_at s] says whether
    the expression matches at the head of [s], and then gives the
    replacement text and the (positive) number of characters matched; the
    scan resumes after the match.  The counter [skip] is the number of
    characters of the current match still to be passed over. *)
Fixpoint replace_all_from (match_at : string → option (string * nat))
    (skip : nat) (s : string) : string :=
  match s with
  | "" => ""
  | String c s' =>
      match skip with
      | S n => replace_all_from match_at n s'
      | O =>
          match match_at s with
          | Some (r, len) => r +:+ replace_all_from match_at (Nat.pred len) s'
          | None => String c (replace_all_from match_at O s')
          end
      end
  end.

Definition replace_all (match_at : string → option (string * nat)) (s : string)
  : string := replace_all_from match_at O s.

(** [s.replace(/[cls]+/g, r)] *)
Definition run_of (f : ascii → bool) (r : string) (s : string)
  : option (string * nat) :=
  match take_while f s with
  | "" => None
  | run => Some (r, String.length run)
  end.

(** [s.replace(/c/g, r)] for a single character class. *)
Definition one_of (f : ascii → bool) (r : string) (s : string)
  : option (string * nat) :=
  match s with
  | String c _ => if f c then Some (r, 1) else None
  | "" => None
  end.

(** A code unit of ASCII, and a text made of them. *)
Definition is_ascii (c : ascii) : bool := (code c <? 128)%nat.
Definition is_ascii_text (s : string) : bool := all_chars is_ascii s.

(** The names every object has from [Object.prototype]: reading one of
    them from a dictionary gives a function or the prototype, never
    [undefined], and writing under [__proto__] makes no property. *)
Definition object_prototype_members : list string :=
  ["constructor"; "__defineGetter__"; "__defineSetter__"; "hasOwnProperty";
   "__lookupGetter__"; "__lookupSetter__"; "isPrototypeOf";
   "propertyIsEnumerable"; "toString"; "valueOf"; "__proto__";
   "toLocaleString"].

End Js.

(** ** [src/git-utils.js] *)

Module GitUtils.
Import Js.

(** [[\w\-\.]] and [[\w\.-]]: the same class, spelled both ways in the source. *)
Definition is_repo_char (c : ascii) : bool :=
  is_word c || Ascii.eqb c "-" || Ascii.eqb c ".".

(** [^https?:\/\/]: the text after the scheme.  The optional [s] is tried
    first and given back when [://] does not follow it. *)
Definition http_scheme (s : string) : option string :=
  r ← strip_prefix "http" s;
  match (r' ← strip_prefix "s" r; strip_prefix "://" r') with
  | Some r' => Some r'
  | None => strip_prefix "://" r
  end.

(** [[\w\-\.]+$] *)
Definition repo_end (s : string) : bool :=
  negb (is_empty s) && all_chars is_repo_char s.

(** [[\w\-\.]+\/[\w\-\.]+$] *)
Definition owner_repo_end (s : string) : bool :=
  match ('(_, rest) ← segment is_repo_char s; strip_prefix "/" rest) with
  | Some r => repo_end r
  | None => false
  end.

(** [[\w\-\.]+\.git$]: the name is what precedes the last four characters
    and must not be empty. *)
Definition repo_git_end (s : string) : bool :=
  all_chars is_repo_char s &&
  match strip_suffix ".git" s with
  | Some name => negb (is_empty name)
  | None => false
  end.

(** [[\w\-\.]+\/[\w\-\.]+\.git$] *)
Definition owner_repo_git_end (s : string) : bool :=
  match ('(_, rest) ← segment is_repo_char s; strip_prefix "/" rest) with
  | Some r => repo_git_end r
  | None => false
  end.

(** [/^https?:\/\/.*\.git$/] *)
Definition re_http_dot_git (s : string) : bool :=
  match http_scheme s with
  | Some r => all_chars (λ c, negb (is_line_terminator c)) r && endsWith ".git" r
  | None => false
  end.

(** [/^https?:\/\/<host>\/[\w\-\.]+\/[\w\-\.]+$/] for a literal host. *)
Definition re_http_host (host : string) (s : string) : bool :=
  match (r0 ← http_scheme s; r1 ← strip_prefix host r0; strip_prefix "/" r1) with
  | Some r => owner_repo_end r
  | None => false
  end.

(** [/^git@[\w\.-]+:[\w\-\.]+\/[\w\-\.]+\.git$/] *)
Definition re_scp (s : string) : bool :=
  match (r0 ← strip_prefix "git@" s;
         '(_, rest) ← segment is_repo_char r0;
         strip_prefix ":" rest) with
  | Some r => owner_repo_git_end r
  | None => false
  end.

(** [/^ssh:\/\/git@[\w\.-]+\/[\w\-\.]+\/[\w\-\.]+\.git$/] *)
Definition re_ssh (s : string) : bool :=
  match (r0 ← strip_prefix "ssh://git@" s;
         '(_, rest) ← segment is_repo_char r0;
         strip_prefix "/" rest) with
  | Some r => owner_repo_git_end r
  | None => false
  end.

Definition gitPatterns : list (string → bool) :=
  [ re_http_dot_git;
    re_http_host "github.com";
    re_http_host "gitlab.com";
    re_http_host "bitbucket.org";
    re_scp;
    re_ssh ].

Definition isGitUrl (location : string) : bool :=
  existsb (λ pattern, pattern location) gitPatterns.

(** [^https?:\/\/(github|gitlab|bitbucket)\.(com|org)\/]: what follows it. *)
Definition hosted_rest (s : string) : option string :=
  r0 ← http_scheme s;
  r1 ← strip_any ["github"; "gitlab"; "bitbucket"] r0;
  r2 ← strip_prefix "." r1;
  r3 ← strip_any ["com"; "org"] r2;
  strip_prefix "/" r3.

(** [/^https?:\/\/(github|gitlab|bitbucket)\.(com|org)\/[\w\-\.]+\/[\w\-\.]+$/] *)
Definition re_hosted (s : string) : bool :=
  match hosted_rest s with
  | Some r => owner_repo_end r
  | None => false
  end.

Definition normalizeGitUrl (gitUrl : string) : string :=
  let normalized := hd "" (split "#" gitUrl) in
  if re_hosted normalized then
    if negb (endsWith ".git" normalized) then normalized +:+ ".git"
    else normalized
  else normalized.

(** The ways of writing the repository hosted at [base]: with or without
    the [.git] suffix, with or without a [#branch] fragment. *)
Definition spelling (base : string) (dot_git : bool) (fragment : option string)
  : string :=
  (base +:+ (if dot_git then ".git" else ""))
  +:+ match fragment with
      | Some b => "#" +:+ b
      | None => ""
      end.

(** [null] is [None]. *)
Definition extractBranch (gitUrl : string) : option string :=
  let parts := split "#" gitUrl in
  if (1 <? length parts)%nat then parts !! 1%nat else None.

Record repo_info := RepoInfo {
  host : string; owner : string; name : string; full : string }.

(** [<host>\/<owner>\/<name>\.git$] and [<host>:<owner>\/<name>\.git$], the
    common tail of the two expressions of [parseGitUrl] ([sep] is the
    character after the host). *)
Definition host_owner_name (sep : string) (s : string) : option repo_info :=
  '(h, rest) ← segment is_repo_char s;
  r ← strip_prefix sep rest;
  '(o, rest') ← segment is_repo_char r;
  r' ← strip_prefix "/" rest';
  n ← strip_suffix ".git" r';
  if all_chars is_repo_char r' && negb (is_empty n)
  then Some (RepoInfo h o n (o +:+ "/" +:+ n)) else None.

Definition parseGitUrl (gitUrl : string) : repo_info :=
  let normalized := normalizeGitUrl gitUrl in
  match (r ← http_scheme normalized; host_owner_name "/" r) with
  | Some info => info
  | None =>
      match (r ← strip_prefix "git@" normalized; host_owner_name ":" r) with
      | Some info => info
      | None => RepoInfo "unknown" "unknown" "unknown" "unknown/unknown"
      end
  end.

Definition validateGitUrl (gitUrl : string) : bool :=
  if negb (isGitUrl gitUrl) then false
  else if includes ".." gitUrl || includes "//" gitUrl then false
  else if (String.length gitUrl <? 10)%nat then false
  else true.

Section Keys.
(** [crypto.createHash('md5').update(s).digest('hex')] and [os.homedir()]. *)
Variable md5_hex : string → string.
Variable homedir : string.

Definition strip_if (f : string → option string) (s : string) : string :=
  default s (f s).

Definition is_key_char (c : ascii) : bool :=
  is_lower c || is_upper c || is_digit c || Ascii.eqb c "-".

(** The human-readable part of the key: the chain of [replace] calls. *)
Definition readable (normalized : string) : string :=
  let s1 := strip_if http_scheme normalized in
  let s2 := strip_if (strip_prefix "git@") s1 in
  let s3 := strip_if (strip_prefix "ssh://git@") s2 in
  let s4 := replace_all (one_of (Ascii.eqb ":") "-") s3 in
  let s5 := replace_all (one_of (Ascii.eqb "/") "-") s4 in
  let s6 := strip_if (strip_suffix ".git") s5 in
  filter_chars is_key_char s6.

Definition generateCacheKey (gitUrl : string) : string :=
  let normalized := normalizeGitUrl gitUrl in
  let hash := take 8 (md5_hex normalized) in
  readable normalized +:+ "-" +:+ hash.

Definition getMainCachePath : string := homedir +:+ "/.pqs/cache".

Definition getCachePath (gitUrl : string) : string :=
  getMainCachePath +:+ "/" +:+ generateCacheKey gitUrl.
End Keys.

End GitUtils.

(** ** The file system, the console and the effect log *)

Module Sys.
Import Js.

Inductive node := File (content : string) | Dir.

(** Absolute path ↦ what is there. *)
Abbreviation files := (gmap string node).

(** Everything the code does to the outside world, in order. *)
Inductive event :=
| EReadFile (p : string)
| EWriteFile (p : string) (content : string)
| ECopy (src dst : string)
| EEnsureDir (p : string)
| ERemove (p : string)
| EWriteJson (p : string)
| EExec (command : string) (cwd : option string)
| EPrompt (question : string)
| ELog (line : string)
| EWarn (line : string)
| EError (line : string).

(** [path.join(a, b)] for a relative, normalised [b]. *)
Definition join (a b : string) : string := a +:+ "/" +:+ b.

Fixpoint before_last_slash (s : string) : option string :=
  match s with
  | "" => None
  | String c s' =>
      match before_last_slash s' with
      | Some d => Some (String c d)
      | None => if Ascii.eqb c "/" then Some "" else None
      end
  end.

(** [path.dirname] *)
Definition dirname (p : string) : string :=
  match before_last_slash p with
  | Some "" => "/"
  | Some d => d
  | None => "."
  end.

(** The directories on the way to [p], outermost first, and [p] itself. *)
Fixpoint dir_chain (pre s : string) : list string :=
  match s with
  | "" => if is_empty pre then [] else [pre]
  | String c s' =>
      (if Ascii.eqb c "/" && negb (is_empty pre) then [pre] else [])
      ++ dir_chain (pre +:+ String c "") s'
  end.

Definition pathExists (fs : files) (p : string) : bool :=
  bool_decide (is_Some (fs !! p)).

Definition isDirectory (fs : files) (p : string) : bool :=
  match fs !! p with Some Dir => true | _ => false end.

(** [fs.ensureDir] where it succeeds: it creates what is missing of [p]
    and of its parents. *)
Definition ensureDir (fs : files) (p : string) : files :=
  foldr (λ d m, match m !! d with Some _ => m | None => <[d := Dir]> m end)
        fs (dir_chain "" p).

(** No regular file stands where [fs.ensureDir p] needs a directory. *)
Definition free_way (fs : files) (p : string) : bool :=
  forallb (λ d, match fs !! d with Some (File _) => false | _ => true end)
          (dir_chain "" p).

(** What a call that writes came to: the files after it, or the message
    of the error it threw. *)
Inductive fs_result :=
| FsOk (f : files)
| FsError (message : string).

(** [fs.ensureDir] with its failure: [mkdir] refuses a path on which a
    regular file stands. *)
Definition mkdirs (fs : files) (p : string) : fs_result :=
  if free_way fs p then FsOk (ensureDir fs p)
  else
    match fs !! p with
    | Some (File _) =>
        FsError ("EEXIST: file already exists, mkdir '" +:+ p +:+ "'")
    | _ => FsError ("ENOTDIR: not a directory, mkdir '" +:+ p +:+ "'")
    end.

(** [k] is [p] or lies below it. *)
Definition under (p k : string) : bool :=
  String.eqb k p || startsWith (p +:+ "/") k.

(** [fs.remove]: the path and all that is below it. *)
Definition remove (fs : files) (p : string) : files :=
  filter (λ kv, under p kv.1 = false) fs.

(** [fs.readdir]: the names directly inside [p]. *)
Definition readdir (fs : files) (p : string) : list string :=
  omap (λ kv, match strip_prefix (p +:+ "/") kv.1 with
              | Some rest =>
                  if negb (is_empty rest) && negb (includes "/" rest)
                  then Some rest else None
              | None => None
              end) (map_to_list fs).

(** [fs.readFile(p, 'utf8')]; [None] when it throws. *)
Definition readFile (fs : files) (p : string) : option string :=
  match fs !! p with Some (File c) => Some c | _ => None end.

(** [fs.writeFile]; [None] when it throws (the target is a directory). *)
Definition writeFile (fs : files) (p content : string) : option files :=
  match fs !! p with
  | Some Dir => None
  | _ => Some (<[p := File content]> fs)
  end.

(** [fs.copy] of fs-extra.  It throws when the source is missing, when
    source and target are one path, when a file is to go where a directory
    is or a directory where a file is, and when a directory is to go into
    itself; otherwise the parent directories of the target are made, a
    file is copied over the target, and a directory with all it holds.
    (The program hands it single files: it calls [glob] with [nodir] and
    takes a directory apart itself.  What [fs.copy] does when a file of a
    copied directory meets a directory of the target is not modelled.) *)
Definition copy (fs : files) (src dst : string) : fs_result :=
  match fs !! src with
  | None =>
      FsError ("ENOENT: no such file or directory, lstat '" +:+ src +:+ "'")
  | Some (File c) =>
      if String.eqb src dst
      then FsError "Source and destination must not be the same."
      else
        match fs !! dst with
        | Some Dir =>
            FsError ("Cannot overwrite directory '" +:+ dst
                     +:+ "' with non-directory '" +:+ src +:+ "'.")
        | _ =>
            match mkdirs fs (dirname dst) with
            | FsOk f => FsOk (<[dst := File c]> f)
            | FsError message => FsError message
            end
        end
  | Some Dir =>
      if String.eqb src dst
      then FsError "Source and destination must not be the same."
      else if under src dst
      then FsError ("Cannot copy '" +:+ src
                    +:+ "' to a subdirectory of itself, '" +:+ dst +:+ "'.")
      else
        match fs !! dst with
        | Some (File _) =>
            FsError ("Cannot overwrite non-directory '" +:+ dst
                     +:+ "' with directory '" +:+ src +:+ "'.")
        | _ =>
            match mkdirs fs (dirname dst) with
            | FsOk f =>
                FsOk (foldr (λ kv m,
                         match strip_prefix src kv.1 with
                         | Some rest =>
                             if is_empty rest || startsWith "/" rest
                             then <[dst +:+ rest := kv.2]> m else m
                         | None => m
                         end) f (map_to_list fs))
            | FsError message => FsError message
            end
        end
  end.

(** One name of a path: not empty, without a separator, and neither [.]
    nor [..]. *)
Definition is_segment (s : string) : bool :=
  negb (is_empty s) && negb (includes "/" s)
  && negb (String.eqb s ".") && negb (String.eqb s "..").

(** A relative path that [path.join] leaves as it is: segments with one
    separator between them. *)
Definition is_normal_relative (p : string) : bool :=
  forallb is_segment (split "/" p).

(** An absolute path that [path.resolve] leaves as it is. *)
Definition is_normal_absolute (p : string) : bool :=
  match p with
  | String "/" "" => true
  | String "/" r => is_normal_relative r
  | _ => false
  end.

(** What a shell command came to. *)
Inductive sh_result :=
| ShOk (stdout stderr : string)
| ShFail (message : string).

(** A record of the cache index, as [updateCacheEntry] writes it.  The
    time stamps are kept as milliseconds since the epoch: the source stores
    [toISOString()] and reads it back with [new Date(...)]. *)
Record cache_entry := CacheEntry {
  url : string;
  branch : option string;
  lastUpdated : Z;
  host : string;
  owner : string;
  name : string;
  clonedAt : option Z;
}.

Abbreviation cache_index := (gmap string cache_entry).

(** The state of the outside world. *)
Record world := World {
  fs : files;
  index_doc : option cache_index;  (* [.cache-index.json], once parsed;
                                      [None] when the file is not there *)
  now : Z;                         (* the clock, in milliseconds *)
  uuids : nat;                     (* identifiers drawn so far *)
  log : list event;
}.

(** A computation that reads and writes the world and may throw an [Error]
    or leave through [process.exit]. *)
Inductive outcome (A : Type) :=
| Ok (a : A)
| Throw (name message : string)
| Exit (status : Z).
Arguments Ok {A} a.
Arguments Throw {A} name message.
Arguments Exit {A} status.

Definition M (A : Type) : Type := world → outcome A * world.

Definition ret {A} (a : A) : M A := λ w, (Ok a, w).

Definition bind {A B} (m : M A) (k : A → M B) : M B :=
  λ w, match m w with
       | (Ok a, w') => k a w'
       | (Throw n msg, w') => (Throw n msg, w')
       | (Exit st, w') => (Exit st, w')
       end.

Definition throw {A} (message : string) : M A :=
  λ w, (Throw "Error" message, w).

(** [try { m } catch (error) { h error.name error.message }] *)
Definition try_catch {A} (m : M A) (h : string → string → M A) : M A :=
  λ w, match m w with
       | (Throw n msg, w') => h n msg w'
       | r => r
       end.

Definition get_fs : M files := λ w, (Ok (fs w), w).
Definition get_now : M Z := λ w, (Ok (now w), w).

Definition put_fs (f : files) : M unit :=
  λ w, (Ok tt, World f (index_doc w) (now w) (uuids w) (log w)).

Definition emit (e : event) : M unit :=
  λ w, (Ok tt, World (fs w) (index_doc w) (now w) (uuids w) (log w ++ [e])).

(** The state [w] with the events [l] behind its log. *)
Definition logged (w : world) (l : list event) : world :=
  World (fs w) (index_doc w) (now w) (uuids w) (log w ++ l).

Definition modify_fs (f : files → files) : M unit :=
  λ w, (Ok tt, World (f (fs w)) (index_doc w) (now w) (uuids w) (log w)).

(** A call that writes: the files are replaced, or the error is thrown. *)
Definition write (r : files → fs_result) : M unit :=
  λ w, match r (fs w) with
       | FsOk f => (Ok tt, World f (index_doc w) (now w) (uuids w) (log w))
       | FsError message => (Throw "Error" message, w)
       end.

(** [await fs.ensureDir(p)] *)
Definition ensure_dir (p : string) : M unit :=
  bind (emit (EEnsureDir p)) (λ _, write (λ f, mkdirs f p)).

(** A normalised absolute path other than the root: with a normalised
    relative path behind it, [join] gives what [path.join] gives. *)
Definition is_normal_base (p : string) : bool :=
  is_normal_absolute p && negb (String.eqb p "/").

(** Options of a [glob] call. *)
Record glob_options := GlobOptions {
  g_cwd : string;
  g_dot : bool;
  g_nodir : bool;
  g_absolute : bool;
  g_maxDepth : option nat;
}.

(** The values a dictionary holds: a boolean, a number (an integer here),
    a string, or the array of strings a checkbox question gives. *)
Inductive jsval :=
| VBool (b : bool)
| VNum (n : Z)
| VStr (s : string)
| VList (l : list string).

(** What a prompt of [@inquirer/prompts] came to. *)
Inductive prompt_result :=
| Answered (v : jsval)
| ExitPromptError                  (* the user cancelled *)
| PromptError (message : string).

(** The collaborators the program calls but does not define. *)
Record env := Env {
  md5_hex : string → string;       (* crypto md5, hex digest *)
  homedir : string;                (* os.homedir() *)
  cwd : string;                    (* process.cwd() *)
  sh : string → option string → files → files * sh_result;
                                   (* child_process.exec(command, {cwd}) *)
  glob : string → glob_options → files → list string;
  minimatch : string → string → bool;
  uuid : nat → string;             (* the n-th value uuid.v4() returns *)
  date_fns_format : Z → string → list string * option string;
                                   (* format(date, pattern): the lines it
                                      hands to console.warn, and the text,
                                      or None when it throws *)
  local_time : Z → Z * Z * Z * Z * Z * Z;
                                   (* year, month (0-11), day, h, m, s *)
  prompt : string → string → prompt_result;
                                   (* question type and name ↦ reply *)
}.


(** [await execAsync(command, {cwd})]: rejects when the command fails. *)
Definition execAsync (E : env) (command : string) (dir : option string)
  : M (string * string) :=
  λ w, let '(f, r) := sh E command dir (fs w) in
       let w' := World f (index_doc w) (now w) (uuids w)
                       (log w ++ [EExec command dir]) in
       match r with
       | ShOk out err => (Ok (out, err), w')
       | ShFail msg => (Throw "Error" msg, w')
       end.

End Sys.

Declare Scope pqs_scope.
Delimit Scope pqs_scope with pqs.
Notation "'let*' x ':=' m 'in' k" := (Sys.bind m (λ x, k))
  (at level 10, x pattern, m at level 100, k at level 200) : pqs_scope.
Notation "m ';;' k" := (Sys.bind m (λ _, k))
  (at level 100, k at level 200, right associativity) : pqs_scope.
Local Open Scope pqs_scope.

(** ** [src/cache-manager.js] *)

Module CacheManager.
Import Js Sys.

Section WithEnv.
Variable E : env.

Definition mainCachePath : string := GitUtils.getMainCachePath (homedir E).
Definition cachePathOf (gitUrl : string) : string :=
  GitUtils.getCachePath (md5_hex E) (homedir E) gitUrl.
Definition cacheKeyOf (gitUrl : string) : string :=
  GitUtils.generateCacheKey (md5_hex E) gitUrl.

Definition cacheIndexFile : string := join mainCachePath ".cache-index.json".

(** The index file is read whole; an absent file is the empty index.  (A
    file that does not parse, which the source also takes for the empty
    index, has no counterpart in the state.) *)
Definition loadCacheIndex : M cache_index :=
  λ w, (Ok (default ∅ (index_doc w)), w).

(** The index file can be read and written: the cache root is a
    directory, as [initializeCache] leaves it, and no directory stands in
    the place of the file. *)
Definition writable (w : world) : bool :=
  isDirectory (fs w) mainCachePath && negb (isDirectory (fs w) cacheIndexFile).

(** [fs.writeJson] of the index where it succeeds, that is in a [writable]
    state.  (Where the write fails the source prints a warning and the file
    stays as it was; [index_doc] stands apart from [fs], and that branch is
    not in the embedding.) *)
Definition saveCacheIndex (index : cache_index) : M unit :=
  λ w, (Ok tt, World (fs w) (Some index) (now w) (uuids w)
                     (log w ++ [EWriteJson cacheIndexFile])).

Definition indexFileExists : M bool :=
  λ w, (Ok (bool_decide (is_Some (index_doc w))), w).

(** [fs.ensureDir] of the cache root where it succeeds: no regular file
    stands on the way to it. *)
Definition initializeCache : M unit :=
  emit (EEnsureDir mainCachePath) ;;
  modify_fs (λ f, ensureDir f mainCachePath) ;;
  let* present := indexFileExists in
  if negb present then saveCacheIndex ∅ else ret tt.

(** The entry with its [path]; [exists] is always [true] in the object
    the source returns, so the result is either absent or existing. *)
Definition getCacheInfo (gitUrl : string) : M (option (cache_entry * string)) :=
  let cacheKey := cacheKeyOf gitUrl in
  let cachePath := cachePathOf gitUrl in
  let* index := loadCacheIndex in
  let* f := get_fs in
  match index !! cacheKey with
  | Some entry =>
      if pathExists f cachePath then ret (Some (entry, cachePath))
      else ret None
  | None => ret None
  end.

Definition updateCacheEntry (gitUrl : string) (cloned : option Z) : M unit :=
  let cacheKey := cacheKeyOf gitUrl in
  let* index := loadCacheIndex in
  let repoInfo := GitUtils.parseGitUrl gitUrl in
  let* t := get_now in
  saveCacheIndex
    (<[cacheKey := CacheEntry (GitUtils.normalizeGitUrl gitUrl)
                     (GitUtils.extractBranch gitUrl) t
                     (GitUtils.host repoInfo) (GitUtils.owner repoInfo)
                     (GitUtils.name repoInfo) cloned]> index).

Definition removeCacheEntry (gitUrl : string) : M unit :=
  let cacheKey := cacheKeyOf gitUrl in
  let cachePath := cachePathOf gitUrl in
  let* index := loadCacheIndex in
  saveCacheIndex (delete cacheKey index) ;;
  let* f := get_fs in
  if pathExists f cachePath
  then emit (ERemove cachePath) ;; modify_fs (λ f, remove f cachePath)
  else ret tt.

Definition ms_per_day : Z := 24 * 60 * 60 * 1000.

Definition isCacheStale (gitUrl : string) (maxAgeDays : Z) : M bool :=
  let* cacheInfo := getCacheInfo gitUrl in
  match cacheInfo with
  | None => ret true
  | Some (entry, _) =>
      let maxAge := (maxAgeDays * ms_per_day)%Z in
      let* t := get_now in
      ret (maxAge <? t - lastUpdated entry)%Z
  end.

(** The default [maxAgeDays = 7]. *)
Definition isCacheStale_default (gitUrl : string) : M bool :=
  isCacheStale gitUrl 7.
End WithEnv.

End CacheManager.

(** ** [src/git-cloner.js] *)

Module GitCloner.
Import Js Sys.

Record clone_options := CloneOptions {
  force : bool;
  quiet : bool;
  opt_branch : option string;
}.

Definition default_options : clone_options := CloneOptions false false None.

Definition dquote : string := String (ascii_of_nat 34) "".

Fixpoint trim_end (s : string) : string :=
  match s with
  | "" => ""
  | String c s' =>
      match trim_end s' with
      | "" => if is_space c then "" else String c ""
      | t => String c t
      end
  end.

Definition trim (s : string) : string := trim_end (drop_while is_space s).

Section WithEnv.
Variable E : env.

Definition isGitAvailable : M bool :=
  try_catch (execAsync E "git --version" None ;; ret true)
            (λ _ _, ret false).

Definition clone_command (gitUrl targetPath : string) (options : clone_options)
  : string :=
  let normalizedUrl := GitUtils.normalizeGitUrl gitUrl in
  let targetBranch :=
    match opt_branch options with
    | Some b => if is_empty b then GitUtils.extractBranch gitUrl else Some b
    | None => GitUtils.extractBranch gitUrl
    end in
  "git clone --depth 1"
  +:+ match targetBranch with
      | Some b => if is_empty b then "" else " --branch " +:+ b
      | None => ""
      end
  +:+ (if quiet options then " --quiet" else "")
  +:+ " " +:+ dquote +:+ normalizedUrl +:+ dquote
  +:+ " " +:+ dquote +:+ targetPath +:+ dquote.

Definition cloneRepository (gitUrl targetPath : string)
    (options : clone_options) : M unit :=
  emit (EEnsureDir (dirname targetPath)) ;;
  modify_fs (λ f, ensureDir f (dirname targetPath)) ;;
  let command := clone_command gitUrl targetPath options in
  try_catch
    (let* (stdout, stderr) := execAsync E command None in
     let output := trim (stdout +:+ stderr) in
     if negb (quiet options) && negb (is_empty (stdout +:+ stderr))
        && negb (is_empty output)
     then emit (ELog output) else ret tt)
    (λ _ message,
       let* f := get_fs in
       (if pathExists f targetPath
        then emit (ERemove targetPath) ;; modify_fs (λ f, remove f targetPath)
        else ret tt) ;;
       throw ("Failed to clone repository: " +:+ message)) ;;
  let* f := get_fs in
  if negb (pathExists f targetPath)
  then throw "Repository was not cloned successfully"
  else
    let gitDir := join targetPath ".git" in
    if pathExists f gitDir
    then emit (ERemove gitDir) ;; modify_fs (λ f, remove f gitDir)
    else ret tt.

Definition cloneOrGetCached (gitUrl : string) (options : clone_options)
  : M string :=
  if negb (GitUtils.validateGitUrl gitUrl)
  then throw ("Invalid git URL: " +:+ gitUrl)
  else
    let* available := isGitAvailable in
    if negb available
    then throw "Git is not installed or not available in PATH"
    else
      CacheManager.initializeCache E ;;
      let cachePath := CacheManager.cachePathOf E gitUrl in
      let* cacheInfo := CacheManager.getCacheInfo E gitUrl in
      if negb (force options) && bool_decide (is_Some cacheInfo)
      then
        (if negb (quiet options)
         then emit (ELog ("Using cached template from "
                          +:+ GitUtils.full (GitUtils.parseGitUrl gitUrl)))
         else ret tt) ;;
        ret cachePath
      else
        (if force options && bool_decide (is_Some cacheInfo)
         then emit (ERemove cachePath) ;; modify_fs (λ f, remove f cachePath)
         else ret tt) ;;
        (if negb (quiet options)
         then emit (ELog ("Downloading template from "
                          +:+ GitUtils.full (GitUtils.parseGitUrl gitUrl)
                          +:+ "..."))
         else ret tt) ;;
        cloneRepository gitUrl cachePath options ;;
        let* t := get_now in
        CacheManager.updateCacheEntry E gitUrl (Some t) ;;
        (if negb (quiet options)
         then emit (ELog "Template cached successfully")
         else ret tt) ;;
        ret cachePath.

Definition updateCachedRepository (gitUrl : string) (options : clone_options)
  : M string :=
  let* cacheInfo := CacheManager.getCacheInfo E gitUrl in
  match cacheInfo with
  | None => throw "Repository is not cached"
  | Some _ =>
      cloneOrGetCached gitUrl
        (CloneOptions true (quiet options) (opt_branch options))
  end.

Definition validateTemplateRepository (repositoryPath : string) : M bool :=
  let* f := get_fs in
  let configFiles :=
    glob E "**/pqs.config.js"
         (GlobOptions repositoryPath false false true (Some 2%nat)) f in
  ret (0 <? length configFiles)%nat.

Definition cloneAndValidate (gitUrl : string) (options : clone_options)
  : M string :=
  let* repositoryPath := cloneOrGetCached gitUrl options in
  let* isValid := validateTemplateRepository repositoryPath in
  if negb isValid
  then
    CacheManager.removeCacheEntry E gitUrl ;;
    throw ("Repository " +:+ GitUtils.full (GitUtils.parseGitUrl gitUrl)
           +:+ " does not contain any valid templates (no pqs.config.js files found)")
  else ret repositoryPath.
End WithEnv.

End GitCloner.

(** ** [src/template-source.js] *)

Module TemplateSource.
Import Js Sys.

Record t := TemplateSource {
  location : string;
  isRemote : bool;
}.

(** The constructor classifies the location once. *)
Definition make (location : string) : t :=
  TemplateSource location (GitUtils.isGitUrl location).

Definition fromArray (locations : list string) : list t := map make locations.

(** [s.replace('~', r)]: the first occurrence only. *)
Fixpoint replace_first_char (c : ascii) (r : string) (s : string) : string :=
  match s with
  | "" => ""
  | String d s' =>
      if Ascii.eqb d c then r +:+ s' else String d (replace_first_char c r s')
  end.

Section WithEnv.
Variable E : env.

Definition getLocalPath (src : t) : string :=
  if isRemote src
  then CacheManager.cachePathOf E (location src)
  else replace_first_char "~" (homedir E) (location src).

Definition prepare (src : t) (options : GitCloner.clone_options) : M string :=
  if isRemote src
  then GitCloner.cloneAndValidate E (location src) options
  else
    let localPath := getLocalPath src in
    let* f := get_fs in
    if negb (pathExists f localPath)
    then throw ("Local template directory does not exist: " +:+ localPath)
    else ret localPath.

(** [a && (await b)] evaluates [b] only when [a] holds. *)
Definition isAvailable (src : t) : M bool :=
  try_catch
    (if isRemote src
     then
       if GitUtils.validateGitUrl (location src)
       then GitCloner.isGitAvailable E
       else ret false
     else
       let localPath := getLocalPath src in
       let* f := get_fs in
       ret (pathExists f localPath))
    (λ _ _, ret false).

Definition needsUpdate (src : t) : M bool :=
  if negb (isRemote src) then ret false
  else CacheManager.isCacheStale_default E (location src).

Definition update (src : t) (options : GitCloner.clone_options) : M string :=
  if negb (isRemote src) then throw "Cannot update local template source"
  else GitCloner.updateCachedRepository E (location src) options.
End WithEnv.

End TemplateSource.

(** ** [src/index.js]: the substitution engine *)

Module Subst.
Import Js Sys.

(** A value whose [String(v)] is written without an exponent: every
    value but the numbers from [10^21] on. *)
Definition is_decimal (v : jsval) : bool :=
  match v with
  | VNum n => (Z.abs n <? 10 ^ 21)%Z
  | _ => true
  end.

(** [String(v)], for the values of [is_decimal]. *)
Definition to_string (v : jsval) : string :=
  match v with
  | VBool true => "true"
  | VBool false => "false"
  | VNum n => pretty n
  | VStr s => s
  | VList l => String.concat "," l
  end.

(** JavaScript truthiness. *)
Definition truthy (v : jsval) : bool :=
  match v with
  | VBool b => b
  | VNum n => negb (n =? 0)%Z
  | VStr s => negb (is_empty s)
  | VList _ => true
  end.

(** [[-_\s]] *)
Definition is_separator (c : ascii) : bool :=
  Ascii.eqb c "-" || Ascii.eqb c "_" || is_space c.

(** A character that belongs to no run of separators. *)
Definition is_plain (c : ascii) : bool := negb (is_separator c).

(** [/[-_\s]+(.)?/g] with [(_, char) => char ? char.toUpperCase() : ''].
    The run is the longest one; the group takes the next character when
    there is one and it is not a line terminator. *)
Definition camel_at (s : string) : option (string * nat) :=
  match take_while is_separator s with
  | "" => None
  | run =>
      match drop_while is_separator s with
      | String c _ =>
          if is_line_terminator c then Some ("", String.length run)
          else Some (toUpperCase (String c ""), S (String.length run))
      | "" => Some ("", String.length run)
      end
  end.

(** [/^(.)/] with [(_, char) => char.toUpperCase()] *)
Definition upper_first (s : string) : string :=
  match s with
  | String c r =>
      if is_line_terminator c then s else toUpperCase (String c "") +:+ r
  | "" => ""
  end.

(** [/\w\S*/g] with
    [txt => txt.charAt(0).toUpperCase() + txt.substr(1).toLowerCase()] *)
Definition title_at (s : string) : option (string * nat) :=
  match s with
  | String c r =>
      if is_word c then
        let rest := take_while (λ d, negb (is_space d)) r in
        Some (toUpperCase (String c "") +:+ toLowerCase rest,
              S (String.length rest))
      else None
  | "" => None
  end.

(** [/^-|-$/g] replaced by nothing: one hyphen at the start, one at the end. *)
Definition strip_hyphens (s : string) : string :=
  let s1 := default s (strip_prefix "-" s) in
  default s1 (strip_suffix "-" s1).

Definition is_kebab_char (c : ascii) : bool :=
  is_lower c || is_digit c || Ascii.eqb c "-".
Definition is_snake_char (c : ascii) : bool :=
  is_lower c || is_digit c || Ascii.eqb c "_".
Definition is_slug_char (c : ascii) : bool :=
  is_lower c || is_digit c || is_space c || Ascii.eqb c "-".

Definition camel (text : string) : string := replace_all camel_at text.

Definition transformText (text transformation : string) : string :=
  let t := toUpperCase transformation in
  if String.eqb t "UPPER" then toUpperCase text
  else if String.eqb t "LOWER" then toLowerCase text
  else if String.eqb t "CAMEL" then camel text
  else if String.eqb t "KEBAB" then
    filter_chars is_kebab_char
      (replace_all (run_of (λ c, Ascii.eqb c "_" || is_space c) "-")
         (toLowerCase text))
  else if String.eqb t "SNAKE" then
    filter_chars is_snake_char
      (replace_all (run_of (λ c, Ascii.eqb c "-" || is_space c) "_")
         (toLowerCase text))
  else if String.eqb t "PASCAL" then upper_first (camel text)
  else if String.eqb t "TITLE" then replace_all title_at text
  else if String.eqb t "SLUG" then
    strip_hyphens
      (replace_all (run_of (Ascii.eqb "-") "-")
         (replace_all (run_of is_space "-")
            (filter_chars is_slug_char (toLowerCase text))))
  else text.

(** The eight names [transformText] has a case for. *)
Definition transform_names : list string :=
  ["UPPER"; "LOWER"; "CAMEL"; "KEBAB"; "SNAKE"; "PASCAL"; "TITLE"; "SLUG"].

(** [s.replace(lit, r)]: the first occurrence of a non-empty literal. *)
Fixpoint replace_first (lit r s : string) : string :=
  match strip_prefix lit s with
  | Some rest => r +:+ rest
  | None =>
      match s with
      | "" => ""
      | String c s' => String c (replace_first lit r s')
      end
  end.

(** [s.replace(new RegExp(lit, 'g'), r)] for a literal of letters. *)
Definition literal_at (lit r s : string) : option (string * nat) :=
  match strip_prefix lit s with
  | Some _ => Some (r, String.length lit)
  | None => None
  end.

(** [String(n).padStart(2, '0')] *)
Definition pad2 (n : Z) : string :=
  let s := pretty n in
  if (String.length s <? 2)%nat then "0" +:+ s else s.

Definition legacyPatterns : list (string * string) :=
  [("YYYY", "yyyy"); ("MM", "MM"); ("DD", "dd");
   ("HH", "HH"); ("mm", "mm"); ("ss", "ss")].

(** The stateful scan of [content.replace(/re/g, callback)]: the callbacks
    run in the order of the matches. *)
Fixpoint replace_all_M (match_at : string → option (M string * nat))
    (skip : nat) (s : string) : M string :=
  match s with
  | "" => ret ""
  | String c s' =>
      match skip with
      | S n => replace_all_M match_at n s'
      | O =>
          match match_at s with
          | Some (callback, len) =>
              let* r := callback in
              let* rest := replace_all_M match_at (Nat.pred len) s' in
              ret (r +:+ rest)
          | None =>
              let* rest := replace_all_M match_at O s' in
              ret (String c rest)
          end
      end
  end.

(** [/^(\w+)\(([^)]+)\)$/]: the two groups. *)
Definition transformMatch (placeholder : string) : option (string * string) :=
  '(transform, rest) ← segment is_word placeholder;
  r ← strip_prefix "(" rest;
  let arg := take_while (not_char ")") r in
  if is_empty arg then None
  else if String.eqb (drop_while (not_char ")") r) ")"
       then Some (transform, arg) else None.

Section WithEnv.
Variable E : env.

Definition generateUUID : M string :=
  λ w, (Ok (uuid E (uuids w)),
        World (fs w) (index_doc w) (now w) (S (uuids w)) (log w)).

(** [console.warn] for each line, in order. *)
Fixpoint warn_all (lines : list string) : M unit :=
  match lines with
  | [] => ret tt
  | line :: lines' => emit (EWarn line) ;; warn_all lines'
  end.

Definition formatDate (pattern : string) : M string :=
  let* t := get_now in
  let dateFnsPattern :=
    fold_left (λ p '(legacy, dateFns), replace_all (literal_at legacy dateFns) p)
              legacyPatterns pattern in
  let '(warnings, formatted) := date_fns_format E t dateFnsPattern in
  warn_all warnings ;;
  match formatted with
  | Some formatted => ret formatted
  | None =>
      emit (EWarn ("Warning: Invalid date format pattern '" +:+ pattern
                   +:+ "', using fallback")) ;;
      let '(year, month, day, hours, minutes, seconds) := local_time E t in
      ret (replace_first "ss" (pad2 seconds)
          (replace_first "mm" (pad2 minutes)
          (replace_first "HH" (pad2 hours)
          (replace_first "DD" (pad2 day)
          (replace_first "MM" (pad2 (month + 1))
          (replace_first "YYYY" (pretty year) pattern))))))
  end.

(** The callback of [performSubstitutions]: [original] is the whole
    token, [placeholder] what stands between [{{PQS:] and [}}]. *)
Definition substitute (values : gmap string jsval)
    (original placeholder : string) : M string :=
  let direct :=
    match values !! placeholder with
    | Some v => ret (to_string v)
    | None => ret original
    end in
  match transformMatch placeholder with
  | Some (transform, arg) =>
      if String.eqb transform "DATE" then formatDate arg
      else if String.eqb transform "UUID" then generateUUID
      else match values !! arg with
           | Some v => ret (transformText (to_string v) transform)
           | None => direct
           end
  | None => direct
  end.

(** [s] ends inside a token: some [{{PQS:] in it has no [}] behind it,
    so that what follows [s] is read as part of that placeholder. *)
Fixpoint open_token (s : string) : bool :=
  match strip_prefix "{{PQS:" s with
  | Some r => all_chars (not_char "}") r
  | None => false
  end
  || match s with
     | "" => false
     | String _ s' => open_token s'
     end.

(** [/\{\{PQS:([^}]+)\}\}/] at the head of [s]. *)
Definition token_at (values : gmap string jsval) (s : string)
  : option (M string * nat) :=
  r ← strip_prefix "{{PQS:" s;
  let placeholder := take_while (not_char "}") r in
  if is_empty placeholder then None
  else
    _ ← strip_prefix "}}" (drop_while (not_char "}") r);
    Some (substitute values ("{{PQS:" +:+ placeholder +:+ "}}") placeholder,
          (String.length placeholder + 8)%nat).

Definition performSubstitutions (content : string)
    (values : gmap string jsval) : M string :=
  replace_all_M (token_at values) O content.
End WithEnv.

End Subst.

(** ** [src/index.js]: questions, steps and project creation *)

Module PQS.
Import Js Sys Subst.

Abbreviation dict := (gmap string jsval).

(** A question of a template definition.  [q_condition] is the optional
    [condition] property the definition file may carry. *)
Record question := Question {
  q_type : string;
  q_name : string;
  q_message : string;
  q_argument : option string;
  q_condition : option (dict → bool);
}.

Inductive step_body :=
| Replace (files : list string)
| Command (command : string)
| Copy (source : string) (destination : option string) (exclude : list string)
| OtherStep (type : string).

(** A step with the properties common to every type. *)
Record step := Step {
  s_body : step_body;
  s_description : option string;
  s_condition : option (dict → bool);
}.

Record template := Template {
  t_name : string;
  t_values : option dict;
  t_questions : list question;
  t_exclude : list string;
  t_steps : option (list step);
  t_path : string;
}.

Fixpoint for_each {A} (l : list A) (body : A → M unit) : M unit :=
  match l with
  | [] => ret tt
  | x :: l' => body x ;; for_each l' body
  end.

Fixpoint fold_M {A S} (l : list A) (body : S → A → M S) (s : S) : M S :=
  match l with
  | [] => ret s
  | x :: l' => let* s' := body s x in fold_M l' body s'
  end.

Definition builtInOptions : list string := ["output"; "force"; "dryRun"].

Definition getCliArgs (options : dict) : dict :=
  filter (λ kv, kv.1 ∉ builtInOptions) options.

(** [step.condition && !step.condition(answers)] *)
Definition condition_fails (c : option (dict → bool)) (answers : dict) : bool :=
  match c with
  | Some f => negb (f answers)
  | None => false
  end.

Definition question_types : list string :=
  ["confirm"; "input"; "select"; "checkbox"].

Definition flag (options : dict) (key : string) : bool :=
  match options !! key with Some v => truthy v | None => false end.

Definition exit {A} (status : Z) : M A := λ w, (Exit status, w).

(** The line feed that opens some of the console messages. *)
Definition nl : string := String (ascii_of_nat 10) "".

Section WithEnv.
Variable E : env.

(** One turn of the loop of [askQuestions]. *)
Definition ask (cliArgs : dict) (answers : dict) (q : question) : M dict :=
  let by_argument :=
    match q_argument q with
    | Some a => if is_empty a then None else cliArgs !! a
    | None => None
    end in
  match by_argument with
  | Some v => ret (<[q_name q := v]> answers)
  | None =>
      match cliArgs !! q_name q with
      | Some v => ret (<[q_name q := v]> answers)
      | None =>
          if bool_decide (q_type q ∈ question_types) then
            emit (EPrompt (q_name q)) ;;
            match prompt E (q_type q) (q_name q) with
            | Answered answer => ret (<[q_name q := answer]> answers)
            | ExitPromptError =>
                emit (ELog (nl +:+ "Operation cancelled.")) ;; exit 0
            | PromptError message => throw message
            end
          else throw ("Unknown question type: " +:+ q_type q)
      end
  end.

Definition askQuestions (t : template) (cliArgs : dict) : M dict :=
  fold_M (t_questions t) (ask cliArgs) ∅.

Definition has_magic (pattern : string) : bool :=
  negb (all_chars (λ c, negb (Ascii.eqb c "*" || Ascii.eqb c "?"
                              || Ascii.eqb c "[" || Ascii.eqb c "]")) pattern).

Definition all_files_options (dir : string) : glob_options :=
  GlobOptions dir true true false None.

Definition excluded (patterns : list string) (file : string) : bool :=
  existsb (λ pattern,
             minimatch E file pattern
             || minimatch E file (replace_first "/**" "" pattern)) patterns.

(** [await fs.ensureDir(path.dirname(destPath));
     await fs.copy(srcPath, destPath);] *)
Definition copy_file (srcPath destPath : string) : M unit :=
  ensure_dir (dirname destPath) ;;
  emit (ECopy srcPath destPath) ;;
  write (λ f, copy f srcPath destPath).

Definition copyTemplate (templatePath outputPath : string)
    (excludePatterns : list string) (dryRun : bool) : M (list string) :=
  let* f := get_fs in
  let allFiles := glob E "**/*" (all_files_options templatePath) f in
  let normalizedExcludePatterns :=
    map (λ pattern, if has_magic pattern then pattern
                    else "**/" +:+ pattern +:+ "/**") excludePatterns in
  let filesToCopy :=
    List.filter (λ file, negb (excluded normalizedExcludePatterns file))
                allFiles in
  if dryRun then
    emit (ELog "Files that would be copied:") ;;
    for_each filesToCopy (λ file, emit (ELog ("  " +:+ file))) ;;
    ret filesToCopy
  else
    for_each filesToCopy (λ file,
      copy_file (join templatePath file) (join outputPath file)) ;;
    ret filesToCopy.

(** One turn of the loop of [processReplaceStep].  The file is read and
    written as text (['utf8']); whatever is thrown is swallowed. *)
Definition replace_in_file (filePath : string) (values : dict) : M unit :=
  try_catch
    (emit (EReadFile filePath) ;;
     let* f := get_fs in
     match readFile f filePath with
     | None => throw ("cannot read " +:+ filePath)
     | Some content =>
         let* processedContent := performSubstitutions E content values in
         emit (EWriteFile filePath processedContent) ;;
         let* f := get_fs in
         match writeFile f filePath processedContent with
         | Some f' => put_fs f'
         | None => throw ("cannot write " +:+ filePath)
         end
     end)
    (λ _ _, ret tt).

(** The step [s] is handed over whole, as in the source; only its
    [files] are looked at. *)
Definition processReplaceStep (s : step) (files : list string)
    (outputPath : string) (values : dict) (dryRun : bool) : M unit :=
  let* f := get_fs in
  let filesToProcess :=
    concat (map (λ filePattern,
                   glob E filePattern
                        (GlobOptions outputPath false false false None) f)
                files) in
  if dryRun then
    emit (ELog ("  Replace step would process files: "
                +:+ String.concat ", " filesToProcess))
  else
    for_each filesToProcess (λ file,
      replace_in_file (join outputPath file) values).

Definition processCommandStep (s : step) (command : string)
    (outputPath : string) (answers : dict) (dryRun : bool) : M unit :=
  if condition_fails (s_condition s) answers then ret tt
  else if dryRun then
    emit (ELog ("  Command step would run: " +:+ command))
  else
    match s_description s with
    | Some d => if is_empty d then ret tt else emit (ELog d)
    | None => ret tt
    end ;;
    try_catch
      (let* (stdout, stderr) := execAsync E command (Some outputPath) in
       (if negb (is_empty stdout) then emit (ELog stdout) else ret tt) ;;
       (if negb (is_empty stderr) then emit (EError stderr) else ret tt))
      (λ _ message, emit (EError ("Command failed: " +:+ message))).

Definition getFilesToCopy (sourcePath : string) (excludePatterns : list string)
  : M (list string) :=
  let* f := get_fs in
  let allFiles := glob E "**/*" (all_files_options sourcePath) f in
  match excludePatterns with
  | [] => ret allFiles
  | _ => ret (List.filter (λ file, negb (excluded excludePatterns file))
                          allFiles)
  end.

Definition processCopyStep (s : step) (source : string)
    (dest : option string) (excludePatterns : list string)
    (templatePath outputPath : string) (answers : dict) (dryRun : bool)
  : M unit :=
  if condition_fails (s_condition s) answers then ret tt
  else
    let destination :=
      match dest with
      | Some d => if is_empty d then source else d
      | None => source
      end in
    let sourcePath := join templatePath source in
    let destPath := join outputPath destination in
    if dryRun then
      emit (ELog ("  Copy step would copy '" +:+ source +:+ "' to '"
                  +:+ destination +:+ "'")) ;;
      match excludePatterns with
      | [] => ret tt
      | _ => emit (ELog ("    Excluding: "
                         +:+ String.concat ", " excludePatterns))
      end
    else
      try_catch
        (let* f := get_fs in
         if negb (pathExists f sourcePath) then
           emit (EWarn ("Warning: Source path '" +:+ source
                        +:+ "' not found in template"))
         else if isDirectory f sourcePath then
           let* filesToCopy := getFilesToCopy sourcePath excludePatterns in
           for_each filesToCopy (λ file,
             copy_file (join sourcePath file) (join destPath file))
         else copy_file sourcePath destPath)
        (λ _ message,
           emit (EError ("Failed to copy '" +:+ source +:+ "': " +:+ message))).

(** The dispatch on [step.type] in the loop of [createProject]. *)
Definition processStep (t : template) (outputPath : string) (answers : dict)
    (dryRun : bool) (s : step) : M unit :=
  match s_body s with
  | Replace files =>
      processReplaceStep s files outputPath
        (answers ∪ default ∅ (t_values t)) dryRun
  | Command command =>
      processCommandStep s command outputPath answers dryRun
  | Copy source dest excl =>
      processCopyStep s source dest excl (t_path t) outputPath answers dryRun
  | OtherStep _ => ret tt
  end.

(** The normalisation of [path.resolve], on the segments of an absolute
    path: an empty segment and [.] go, [..] takes the segment before it
    along, and stays at the root when there is none. *)
Definition resolve_segments (segments : list string) : list string :=
  fold_left (λ kept segment,
               if is_empty segment || String.eqb segment "." then kept
               else if String.eqb segment ".." then removelast kept
               else kept ++ [segment])
            segments [].

(** [path.resolve(process.cwd(), p)], and [path.resolve(p)]: an absolute
    [p] stands for itself, any other is taken from the current directory;
    the result is normalised. *)
Definition resolve (p : string) : string :=
  let full := if startsWith "/" p then p else cwd E +:+ "/" +:+ p in
  "/" +:+ String.concat "/" (resolve_segments (split "/" full)).

(** [answers.projectName || answers.name || answers.project || 'new-project'] *)
Definition projectNameOf (answers : dict) : jsval :=
  let pick (k : string) : option jsval :=
    match answers !! k with
    | Some v => if truthy v then Some v else None
    | None => None
    end in
  default (VStr "new-project")
    (pick "projectName" ∪ pick "name" ∪ pick "project").

(** What Node says it received where it expected a string. *)
Definition received (v : jsval) : string :=
  match v with
  | VBool b => "type boolean (" +:+ (if b then "true" else "false") +:+ ")"
  | VNum n => "type number (" +:+ to_string v +:+ ")"
  | VStr s => "type string ('" +:+ s +:+ "')"
  | VList _ => "an instance of Array"
  end.

(** The output path (index.js 672-682).  [options.output] is the string
    commander read after [--output]; [path.resolve] takes strings only. *)
Definition outputPathOf (options answers : dict) : M string :=
  let output : option (string + jsval) :=
    match options !! "output" with
    | Some (VStr o) => if is_empty o then None else Some (inl o)
    | Some v => if truthy v then Some (inr v) else None
    | None => None
    end in
  match output with
  | Some (inl o) => ret (resolve o)
  | Some (inr v) =>
      λ w, (Throw "TypeError"
              ("The " +:+ GitCloner.dquote +:+ "paths[0]" +:+ GitCloner.dquote
               +:+ " argument must be of type string. Received "
               +:+ received v), w)
  | None =>
      match projectNameOf answers with
      | VStr projectName => ret (resolve (transformText projectName "SLUG"))
      | _ => λ w, (Throw "TypeError" "text.toLowerCase is not a function", w)
      end
  end.

(** [await fs.readdir(outputPath)] behind [fs.pathExists(outputPath)]:
    the names in a directory; a regular file makes it throw, and a path
    that is not there is not read. *)
Definition entries_of (outputPath : string) : M (list string) :=
  let* f := get_fs in
  match f !! outputPath with
  | Some Dir => ret (readdir f outputPath)
  | Some (File _) =>
      throw ("ENOTDIR: not a directory, scandir '" +:+ outputPath +:+ "'")
  | None => ret []
  end.

(** [createProject] once the questions are answered (index.js 670-749):
    the output path, the copy of the template and the steps. *)
Definition materialize (t : template) (options answers : dict) : M unit :=
  let dryRun := flag options "dryRun" in
  let* outputPath := outputPathOf options answers in
  let* files := entries_of outputPath in
  if (0 <? length files)%nat && negb (flag options "force")
  then
    emit (EError ("Output directory " +:+ outputPath
                  +:+ " is not empty. Use --force to override."))
  else
    emit (ELog ("Output directory: " +:+ outputPath)) ;;
    (if negb dryRun then ensure_dir outputPath else ret tt) ;;
    emit (ELog (nl +:+ "Copying template files...")) ;;
    copyTemplate (t_path t) outputPath (t_exclude t) dryRun ;;
    match t_steps t with
    | Some steps =>
        emit (ELog (nl +:+ "Processing template steps...")) ;;
        for_each steps (processStep t outputPath answers dryRun)
    | None => ret tt
    end ;;
    if dryRun then emit (ELog (nl +:+ "--- END DRY RUN ---"))
    else emit (ELog (nl +:+ "Project created successfully!")).

(** [createProject] from the line on which the template has been found
    (index.js 660-749). *)
Definition create (t : template) (options : dict) : M unit :=
  let dryRun := flag options "dryRun" in
  emit (ELog ("Creating project from template: " +:+ t_name t)) ;;
  (if dryRun then emit (ELog (nl +:+ "--- DRY RUN MODE ---")) else ret tt) ;;
  let cliArgs := getCliArgs options in
  let* answers := askQuestions t cliArgs in
  materialize t options answers.

(** The materialization of [createProject] (index.js 653-749) on the
    templates a discovery has found, given by name.  The whole function,
    with [loadConfig], [discoverTemplates] and the listing that follows a
    name that is not found, is [Program.createProject]. *)
Definition createProject (templates : gmap string template)
    (templateName : string) (options : dict) : M unit :=
  match templates !! templateName with
  | None =>
      emit (EError ("Template " +:+ GitCloner.dquote +:+ templateName
                    +:+ GitCloner.dquote +:+ " not found."))
  | Some t => create t options
  end.
End WithEnv.

End PQS.

(** ** Concrete environments and templates for the scenarios *)

Module Scenario.
Import Js Sys Subst PQS.

(** A [glob] for the two kinds of pattern the scenarios use: the catch-all
    [**/*] (called with [dot: true]) and a literal relative path, which
    matches exactly when that path exists below [cwd]. *)
Definition glob_literal (pattern : string) (o : glob_options) (f : files)
  : list string :=
  if String.eqb pattern "**/*" then
    omap (λ kv, match strip_prefix (g_cwd o +:+ "/") kv.1 with
                | Some rel =>
                    match kv.2 with
                    | File _ => Some rel
                    | Dir => if g_nodir o then None else Some rel
                    end
                | None => None
                end) (map_to_list f)
  else
    match f !! join (g_cwd o) pattern with
    | Some (File _) => [pattern]
    | Some Dir => if g_nodir o then [] else [pattern]
    | None => []
    end.

(** Commands succeed silently and leave the files alone. *)
Definition sh_quiet (command : string) (dir : option string) (f : files)
  : files * sh_result := (f, ShOk "" "").

(** No git client: every command fails. *)
Definition sh_none (command : string) (dir : option string) (f : files)
  : files * sh_result := (f, ShFail "command not found").

Definition prompt_first_no (type name : string) : prompt_result :=
  if String.eqb name "first" then Answered (VBool false)
  else Answered (VStr "typed").

Definition make_env (shell : string → option string → files → files * sh_result)
    (ids : nat → string) : env :=
  Env (λ _, "0a1b2c3d4e5f60718293a4b5c6d7e8f9") "/home/u" "/work"
      shell glob_literal (λ file pattern, String.eqb file pattern)
      ids (λ _ _, ([], None)) (λ _, (2026, 0, 5, 7, 8, 9)%Z) prompt_first_no.

(** A machine with git, and one without. *)
Definition env_run1 : env := make_env sh_quiet (λ n, "1111-" +:+ pretty n).
Definition env_no_git : env := make_env sh_none (λ n, "1111-" +:+ pretty n).

Definition template_files : files :=
  <["/tpl/a.txt" := File "{{PQS:greeting}} world"]> (<["/tpl" := Dir]> ∅).

Definition world0 : world := World template_files None 0 0 [].

Definition never (answers : dict) : bool := false.

(** One [replace] step, guarded or not. *)
Definition template_replace (condition : option (dict → bool)) : template :=
  Template "demo" (Some (<["greeting" := VStr "hello"]> ∅)) [] []
    (Some [Step (Replace ["a.txt"]) None condition]) "/tpl".

Definition template_command (condition : option (dict → bool)) : template :=
  Template "demo" None [] []
    (Some [Step (Command "npm install") None condition]) "/tpl".

Definition template_copy (condition : option (dict → bool)) : template :=
  Template "demo" None [] []
    (Some [Step (Copy "a.txt" (Some "b.txt") []) None condition]) "/tpl".

Definition registry (t : template) : gmap string template :=
  <["demo" := t]> ∅.

Definition options_real : dict := <["output" := VStr "/out"]> ∅.

(** Two questions; the second is meant to be asked only after a "yes". *)
Definition first_is_true (answers : dict) : bool :=
  match answers !! "first" with
  | Some (VBool true) => true
  | _ => false
  end.

Definition template_questions : template :=
  Template "demo" None
    [Question "confirm" "first" "First?" None None;
     Question "input" "second" "Second?" None (Some first_is_true)]
    [] None "/tpl".

(** A cached repository whose record is ten days old. *)
Definition cached_url : string := "git@github.com:user/repo.git".
Definition https_url : string := "https://github.com/user/repo.git".

Definition ten_days : Z := 10 * CacheManager.ms_per_day.

Definition cached_world (E : env) (gitUrl : string) : world :=
  World (<[CacheManager.cachePathOf E gitUrl +:+ "/pqs.config.js" := File "x"]>
           (ensureDir ∅ (CacheManager.cachePathOf E gitUrl)))
        (Some (<[CacheManager.cacheKeyOf E gitUrl :=
                   CacheEntry gitUrl None 0 "github.com" "user" "repo" (Some 0%Z)]> ∅))
        ten_days 0 [].

End Scenario.

(** ** Runs that only report *)

Module Report.
Import Sys.

(** Console output and prompts, as opposed to changes of the file system
    and to processes. *)
Definition is_report (e : event) : bool :=
  match e with
  | ELog _ | EWarn _ | EError _ | EPrompt _ => true
  | _ => false
  end.

(** From [w] to [w'] nothing was changed and nothing was run. *)
Definition reports_only (w w' : world) : Prop :=
  fs w' = fs w ∧ index_doc w' = index_doc w ∧ uuids w' = uuids w ∧
  ∃ l : list event, log w' = (log w ++ l)%list ∧ forallb is_report l = true.

Definition harmless {A} (m : M A) : Prop := ∀ w, reports_only w (m w).2.

Definition is_prompt (e : event) : bool :=
  match e with EPrompt _ => true | _ => false end.




End Report.

(** ** The wording of the specification, for comparison with the code *)

Module Reading.
Import Js Sys Subst.

(** "CAMEL lowercases the first run and upper-cases the first letter
    following any run of [-], [_], or whitespace": the first run in lower
    case, the rest as the code has it. *)
Definition camel_as_specified (text : string) : string :=
  toLowerCase (take_while is_plain text)
  +:+ camel (drop_while is_plain text).










(** What a run decides about the output directory: it goes on with the
    path, or it refuses it. *)
Inductive verdict :=
| GoesOn (outputPath : string)
| Refuses (line : string).

(** The first thing a run says about the output directory. *)
Definition destination (l : list event) : option verdict :=
  head (omap (λ e, match e with
                   | ELog line =>
                       GoesOn <$> strip_prefix "Output directory: " line
                   | EError line =>
                       if startsWith "Output directory " line
                       then Some (Refuses line) else None
                   | _ => None
                   end) l).






End Reading.

(** ** [src/cache-manager.js]: listing and cleaning the cache *)

Module CacheMaintenance.
Import Js Sys.

(** An element of [listCachedRepositories]: the record of the index with
    its key, the path of its directory and whether that path exists. *)
Record listed := Listed {
  l_key : string;
  l_info : cache_entry;
  l_path : string;
  l_exists : bool;
}.

Section WithEnv.
Variable E : env.

Definition listCachedRepositories : M (list listed) :=
  let* index := CacheManager.loadCacheIndex in
  let* f := get_fs in
  ret (map (λ kv,
              let cachePath := join (CacheManager.mainCachePath E) kv.1 in
              Listed kv.1 kv.2 cachePath (pathExists f cachePath))
           (map_to_list index)).

(** One turn of the loop of [cleanupStaleEntries]; [cleanedCount] is the
    counter. *)
Definition cleanup_entry (maxAgeDays : Z) (cleanedCount : nat) (entry : listed)
  : M nat :=
  let maxAge := (maxAgeDays * CacheManager.ms_per_day)%Z in
  let* t := get_now in
  if (maxAge <? t - lastUpdated (l_info entry))%Z || negb (l_exists entry)
  then CacheManager.removeCacheEntry E (url (l_info entry)) ;;
       ret (S cleanedCount)
  else ret cleanedCount.

(** The caller's [maxAgeDays]; the default is 30. *)
Definition cleanupStaleEntries (maxAgeDays : Z) : M nat :=
  let* entries := listCachedRepositories in
  PQS.fold_M entries (cleanup_entry maxAgeDays) O.



(** [fs.remove] of the cache root takes the index file, which lies in it,
    along. *)
Definition clearAllCache : M unit :=
  let cachePath := CacheManager.mainCachePath E in
  let* f := get_fs in
  (if pathExists f cachePath
   then emit (ERemove cachePath) ;;
        modify_fs (λ f, remove f cachePath) ;;
        (λ w, (Ok tt, World (fs w) None (now w) (uuids w) (log w)))
   else ret tt) ;;
  CacheManager.initializeCache E.
End WithEnv.

End CacheMaintenance.

(** ** A machine whose [git clone] delivers *)

Module Download.
Import Js Sys.

(** Where the scenarios' reference is cached. *)
Definition target : string :=
  CacheManager.cachePathOf Scenario.env_run1 Scenario.cached_url.

(** [git clone] leaves a working copy with its [.git] directory at
    [target]; every other command succeeds and leaves the files alone. *)
Definition sh_clone (command : string) (dir : option string) (f : files)
  : files * sh_result :=
  if startsWith "git clone" command
  then (<[target +:+ "/.git" := Dir]>
          (<[target +:+ "/pqs.config.js" := File "module.exports = {}"]>
             (<[target := Dir]> f)),
        ShOk "" "Cloning into the cache...")
  else (f, ShOk "git version 2.43.0" "").

Definition env_fetch : env :=
  Scenario.make_env sh_clone (λ n, "1111-" +:+ pretty n).

End Download.

(** ** [src/template-source.js]: discovery and the cache of a source *)

Module TemplateDiscovery.
Import Js Sys.

Section WithEnv.
Variable E : env.

(** [findTemplatesInDirectory] loads the configurations with [require];
    it is a parameter here, with the type of what it finds. *)
Variable config : Type.
Variable findTemplatesInDirectory : string → M (list config).

Definition discoverTemplates (src : TemplateSource.t)
    (options : GitCloner.clone_options) : M (list config) :=
  try_catch
    (let* localPath := TemplateSource.prepare E src options in
     findTemplatesInDirectory localPath)
    (λ _ message,
       emit (EWarn ("Warning: Failed to discover templates in "
                    +:+ TemplateSource.location src +:+ ": " +:+ message)) ;;
       ret []).

Definition removeFromCache (src : TemplateSource.t) : M unit :=
  if negb (TemplateSource.isRemote src)
  then throw "Cannot remove local template source from cache"
  else CacheManager.removeCacheEntry E (TemplateSource.location src).

Definition getCacheInfo (src : TemplateSource.t)
  : M (option (cache_entry * string)) :=
  if negb (TemplateSource.isRemote src) then ret None
  else CacheManager.getCacheInfo E (TemplateSource.location src).
End WithEnv.

End TemplateDiscovery.

(** ** [src/index.js]: configuration, discovery and the whole of
    [createProject] *)

Module Program.
Import Js Sys PQS.

(** What [this.config] holds once [loadConfig] has run: the array of
    strings under [templateLocations], or a document without one, on which
    [discoverTemplates] raises a [TypeError] with the given message. *)
Inductive config :=
| Locations (templateLocations : list string)
| NoLocations (message : string).

(** An element of [this.templates]: what the definition file exports, with
    the [path], [source] and [isRemote] that [findTemplatesInDirectory]
    adds to it. *)
Record entry := Entry {
  e_template : template;
  e_description : option string;
  e_source : string;
  e_isRemote : bool;
}.

(** [this.templates], a [Map]: the names in the order in which they were
    first set. *)
Abbreviation registry := (list (string * entry)).

(** [templates.set(name, e)] *)
Fixpoint set (name : string) (e : entry) (templates : registry) : registry :=
  match templates with
  | [] => [(name, e)]
  | (name', e') :: templates' =>
      if String.eqb name' name then (name, e) :: templates'
      else (name', e') :: set name e templates'
  end.

(** [templates.get(name)] *)
Fixpoint get (name : string) (templates : registry) : option entry :=
  match templates with
  | [] => None
  | (name', e) :: templates' =>
      if String.eqb name' name then Some e else get name templates'
  end.

Definition with_path (t : template) (path : string) : template :=
  Template (t_name t) (t_values t) (t_questions t) (t_exclude t) (t_steps t)
           path.

Section WithEnv.
Variable E : env.

(** [JSON.parse] of the text of a configuration file; [None] when
    [fs.readJson] throws on it. *)
Variable parse_config : string → option config.

(** [require(configFile)]: the definition the file exports, with its
    [description], or the message of what loading it threw.  The files are
    all it depends on. *)
Variable require : files → string → (template * option string) + string.

Definition configPaths : list string :=
  [join (cwd E) "pqs.config.json";
   join (join (homedir E) ".pqs") "pqs.config.json";
   join (homedir E) ".pqs.config.json";
   "/etc/pqs.config.json"].

(** The loop of [loadConfig] over the paths that are left, and the default
    behind it.  A path that is not there, that cannot be read or whose text
    does not parse is passed over. *)
Fixpoint load_from (paths : list string) : M config :=
  match paths with
  | [] =>
      emit (ELog "No config file found, using default template location: ~/templates") ;;
      ret (Locations [join (homedir E) "templates"])
  | configPath :: paths' =>
      let* f := get_fs in
      match readFile f configPath ≫= parse_config with
      | Some c =>
          emit (ELog ("Using config from: " +:+ configPath)) ;;
          ret c
      | None => load_from paths'
      end
  end.

Definition loadConfig : M config := load_from configPaths.

(** [getDisplayInfo().display] *)
Definition display (src : TemplateSource.t) : string :=
  if TemplateSource.isRemote src then
    let repoInfo := GitUtils.parseGitUrl (TemplateSource.location src) in
    GitUtils.host repoInfo +:+ "/" +:+ GitUtils.full repoInfo
  else TemplateSource.location src.

(** [findTemplatesInDirectory] of the source [src].  ([glob] is total
    here, so the warning for a search that fails is never printed.) *)
Definition findTemplatesInDirectory (src : TemplateSource.t)
    (directoryPath : string) : M (list entry) :=
  let* f := get_fs in
  let configFiles :=
    glob E "**/pqs.config.js"
         (GlobOptions directoryPath false false true (Some 2%nat)) f in
  fold_M configFiles
    (λ templates configFile,
       match require f configFile with
       | inl (templateConfig, description) =>
           ret (templates
                ++ [Entry (with_path templateConfig (dirname configFile))
                          description (TemplateSource.location src)
                          (TemplateSource.isRemote src)])
       | inr message =>
           emit (EWarn ("Warning: Failed to load template config at "
                        +:+ configFile +:+ ": " +:+ message)) ;;
           ret templates
       end) [].

(** One turn of the loop of [discoverTemplates]. *)
Definition discover_source (templates : registry) (src : TemplateSource.t)
  : M registry :=
  try_catch
    (let* available := TemplateSource.isAvailable E src in
     if negb available then
       emit (EWarn ("Warning: Template source not available: "
                    +:+ display src)) ;;
       ret templates
     else
       let* found :=
         TemplateDiscovery.discoverTemplates E entry
           (findTemplatesInDirectory src) src GitCloner.default_options in
       ret (fold_left (λ m e, set (t_name (e_template e)) e m)
                      found templates))
    (λ _ message,
       emit (EWarn ("Warning: Failed to discover templates in "
                    +:+ display src +:+ ": " +:+ message)) ;;
       ret templates).

Definition discoverTemplates (c : config) : M registry :=
  match c with
  | NoLocations message => λ w, (Throw "TypeError" message, w)
  | Locations templateLocations =>
      fold_M (TemplateSource.fromArray templateLocations) discover_source []
  end.

(** The line of [listTemplates] for one template. *)
Definition listing (name : string) (e : entry) : string :=
  let sourceInfo :=
    if e_isRemote e then
      let repoInfo := GitUtils.parseGitUrl (e_source e) in
      " (remote: " +:+ GitUtils.host repoInfo +:+ "/"
      +:+ GitUtils.full repoInfo +:+ ")"
    else " (local: " +:+ e_source e +:+ ")" in
  "  " +:+ name
  +:+ match e_description e with
      | Some d => if is_empty d then "" else " - " +:+ d
      | None => ""
      end
  +:+ sourceInfo.

Definition listTemplates (templates : registry) : M unit :=
  match templates with
  | [] => emit (ELog "No templates found.")
  | _ =>
      emit (ELog "Available templates:") ;;
      for_each templates (λ '(name, e), emit (ELog (listing name e)))
  end.

(** The two calls [createProject] opens with. *)
Definition discovery : M registry :=
  let* c := loadConfig in
  discoverTemplates c.

Definition createProject (templateName : string) (options : dict) : M unit :=
  let* templates := discovery in
  match get templateName templates with
  | None =>
      emit (EError ("Template " +:+ GitCloner.dquote +:+ templateName
                    +:+ GitCloner.dquote +:+ " not found.")) ;;
      listTemplates templates
  | Some e => create E (e_template e) options
  end.
End WithEnv.

End Program.

(** ** A machine with a configuration file and one template *)

Module Machine.
Import Js Sys PQS.

(** A [glob] that knows the given names: it lists those of them that are
    files below [cwd], all of them for the catch-all [**/*], the one
    asked for otherwise; the definition files are given with their whole
    path when [absolute] is set. *)
Definition glob_known (names : list string) (pattern : string)
    (o : glob_options) (f : files) : list string :=
  let present :=
    List.filter (λ name, match f !! join (g_cwd o) name with
                         | Some (File _) => true
                         | _ => false
                         end) names in
  if String.eqb pattern "**/*" then present
  else if String.eqb pattern "**/pqs.config.js" then
    map (λ name, if g_absolute o then join (g_cwd o) name else name)
        (List.filter (String.eqb "pqs.config.js") present)
  else List.filter (String.eqb pattern) present.

Definition env_known : env :=
  let E := Scenario.env_run1 in
  Env (md5_hex E) (homedir E) (cwd E) (sh E)
      (glob_known ["a.txt"; "pqs.config.js"]) (minimatch E) (uuid E)
      (date_fns_format E) (local_time E) (prompt E).

(** The configuration names the location its text gives. *)
Definition parse_config (text : string) : option Program.config :=
  if is_empty text then None else Some (Program.Locations [text]).

(** The one definition file there is exports [t]. *)
Definition require (t : template) (f : files) (configFile : string)
  : (template * option string) + string :=
  if String.eqb configFile "/tpl/pqs.config.js" then inl (t, None)
  else inr ("Cannot find module '" +:+ configFile +:+ "'").

(** The current directory holds a configuration that names [location];
    the template [demo] is at [/tpl]. *)
Definition files_with (location : string) : files :=
  <["/work/pqs.config.json" := File location]>
    (<["/tpl/pqs.config.js" := File "module.exports = { name: 'demo' }"]>
       Scenario.template_files).


Definition createProject (t : template) (options : dict) : M unit :=
  Program.createProject env_known parse_config (require t) "demo" options.

End Machine.

(** ** What the command line says about a question *)

Module CommandLine.
Import Js Sys PQS.

(** The value [askQuestions] takes from the command line for a question:
    the one under its [argument], else the one under its name. *)
Definition given (cliArgs : dict) (q : question) : option jsval :=
  match q_argument q with
  | Some a =>
      if is_empty a then cliArgs !! q_name q
      else match cliArgs !! a with
           | Some v => Some v
           | None => cliArgs !! q_name q
           end
  | None => cliArgs !! q_name q
  end.

(** Neither the name of the question nor its [argument] is a name every
    object inherits: under such a name [cliArgs] answers without holding a
    value, and [answers] may take none. *)
Definition own_names (q : question) : bool :=
  bool_decide (q_name q ∉ object_prototype_members)
  && match q_argument q with
     | Some a => bool_decide (a ∉ object_prototype_members)
     | None => true
     end.

End CommandLine.

(** ** A machine whose [date-fns] formats *)

Module Calendar.
Import Js Sys.

(** [format] answers every pattern, here with the pattern in brackets. *)
Definition env_date_fns : env :=
  let E := Scenario.env_run1 in
  Env (md5_hex E) (homedir E) (cwd E) (sh E) (glob E) (minimatch E) (uuid E)
      (λ _ pattern, ([], Some ("[" +:+ pattern +:+ "]")))
      (local_time E) (prompt E).

End Calendar.


(** * Properties *)

(** ** Strings *)

#[local] Arguments String.append : simpl nomatch.

Module JsFacts.
Import Js.

Lemma strip_prefix_Some p : ∀ s r, strip_prefix p s = Some r → s = p +:+ r.
Proof.
  induction p as [|a p IH]; intros s r H; simpl in *.
  - by inversion H.
  - destruct s as [|b s]; [done|].
    destruct (Ascii.eqb a b) eqn:Hab; [|done].
    apply Ascii.eqb_eq in Hab as ->. simpl. f_equal. by apply IH.
Qed.

Lemma strip_prefix_app p r : strip_prefix p (p +:+ r) = Some r.
Proof.
  induction p as [|a p IH]; simpl; [done|]. by rewrite Ascii.eqb_refl.
Qed.

Lemma strip_any_Some alts : ∀ s r,
  strip_any alts s = Some r → ∃ a, a ∈ alts ∧ s = a +:+ r.
Proof.
  induction alts as [|a alts IH]; intros s r H; simpl in *; [done|].
  destruct (strip_prefix a s) eqn:Ha.
  - inversion H; subst. exists a. split; [left|]. by apply strip_prefix_Some.
  - destruct (IH _ _ H) as (b & Hb & ->). exists b. split; [by right|done].
Qed.

Lemma all_chars_app f a b :
  all_chars f (a +:+ b) = all_chars f a && all_chars f b.
Proof. induction a as [|c a IH]; simpl; [done|]. by rewrite IH, andb_assoc. Qed.

Lemma all_chars_impl (f g : ascii → bool) s :
  (∀ c, f c = true → g c = true) → all_chars f s = true → all_chars g s = true.
Proof.
  intros Hfg. induction s as [|c s IH]; simpl; [done|].
  intros [Hc Hs]%andb_prop. by rewrite (Hfg _ Hc), IH.
Qed.

Lemma take_while_all f s : all_chars f s = true → take_while f s = s.
Proof.
  induction s as [|c s IH]; simpl; [done|].
  intros [-> Hs]%andb_prop. by rewrite IH.
Qed.

Lemma all_chars_take_while f s : all_chars f (take_while f s) = true.
Proof.
  induction s as [|c s IH]; simpl; [done|].
  destruct (f c) eqn:Hc; simpl; [by rewrite Hc|done].
Qed.

Lemma take_while_stop f a c b :
  all_chars f a = true → f c = false →
  take_while f (a +:+ String c b) = a.
Proof.
  intros Ha Hc. induction a as [|d a IH]; simpl in *; [by rewrite Hc|].
  apply andb_prop in Ha as [-> Ha]. by rewrite IH.
Qed.

Lemma drop_while_stop f a c b :
  all_chars f a = true → f c = false →
  drop_while f (a +:+ String c b) = String c b.
Proof.
  intros Ha Hc. induction a as [|d a IH]; simpl in *; [by rewrite Hc|].
  apply andb_prop in Ha as [-> Ha]. by rewrite IH.
Qed.

(** A run that stops inside [s] is not affected by what is appended. *)
Lemma take_while_app_inside f s c rest t :
  drop_while f s = String c rest →
  take_while f (s +:+ t) = take_while f s ∧
  drop_while f (s +:+ t) = String c rest +:+ t.
Proof.
  induction s as [|d s IH]; simpl; [done|].
  destruct (f d) eqn:Hd.
  - intros H. destruct (IH H) as [-> ->]. done.
  - intros H. inversion H; subst. done.
Qed.

Lemma hd_split sep s :
  hd "" (split sep s) = take_while (not_char sep) s.
Proof.
  unfold not_char. induction s as [|c s IH]; simpl; [done|].
  destruct (Ascii.eqb c sep); simpl; [done|].
  destruct (split sep s) as [|p ps]; simpl in *; by rewrite <- IH.
Qed.

Lemma length_app (a b : string) :
  String.length (a +:+ b) = (String.length a + String.length b)%nat.
Proof. induction a as [|c a IH]; simpl; [done|]. by rewrite IH. Qed.

Lemma eqb_longer c a suf : String.eqb (String c (a +:+ suf)) suf = false.
Proof.
  apply String.eqb_neq. intros H.
  apply (f_equal String.length) in H. simpl in H.
  rewrite length_app in H. lia.
Qed.

Lemma strip_suffix_app suf a : strip_suffix suf (a +:+ suf) = Some a.
Proof.
  induction a as [|c a IH].
  - simpl. destruct suf; simpl; by rewrite ?String.eqb_refl, ?Ascii.eqb_refl.
  - change (String c a +:+ suf) with (String c (a +:+ suf)).
    cbn [strip_suffix]. rewrite eqb_longer. by rewrite IH.
Qed.

Lemma endsWith_app suf a : endsWith suf (a +:+ suf) = true.
Proof. unfold endsWith. by rewrite strip_suffix_app. Qed.

Lemma is_empty_app a b : is_empty (a +:+ b) = is_empty a && is_empty b.
Proof. by destruct a. Qed.

Lemma append_assoc (a b c : string) : (a +:+ b) +:+ c = a +:+ (b +:+ c).
Proof. induction a as [|d a IH]; simpl; [done|]. by rewrite IH. Qed.

Lemma append_nil_r (a : string) : a +:+ "" = a.
Proof. induction a as [|d a IH]; simpl; [done|]. by rewrite IH. Qed.

(** What begins with the scheme contains a double slash. *)
Lemma includes_cons sub c s : includes sub s = true → includes sub (String c s) = true.
Proof. intros H. cbn [includes]. rewrite H. apply orb_true_r. Qed.

Lemma includes_app_l sub p s : includes sub s = true → includes sub (p +:+ s) = true.
Proof. induction p as [|c p IH]; simpl; [done|]. intros H. apply includes_cons; auto. Qed.

End JsFacts.

(** ** Repository references *)

Module GitUtilsFacts.
Import Js JsFacts GitUtils.

Lemma take_drop f s : take_while f s +:+ drop_while f s = s.
Proof. induction s as [|c s IH]; simpl; [done|]. destruct (f c); simpl; by rewrite ?IH. Qed.

Lemma repo_char_not_hash c : is_repo_char c = true → (not_char "#") c = true.
Proof. destruct c as [[] [] [] [] [] [] [] []]; vm_compute; congruence. Qed.

Lemma http_scheme_Some s r :
  http_scheme s = Some r → s = "https://" +:+ r ∨ s = "http://" +:+ r.
Proof.
  unfold http_scheme. destruct (strip_prefix "http" s) as [r0|] eqn:H0; [|done].
  apply strip_prefix_Some in H0 as ->. cbn [mbind option_bind].
  destruct (strip_prefix "s" r0) as [r1|] eqn:H1; cbn [mbind option_bind].
  - apply strip_prefix_Some in H1 as ->.
    destruct (strip_prefix "://" r1) as [r2|] eqn:H2.
    + intros [= ->]. apply strip_prefix_Some in H2 as ->. by left.
    + clear. intros H. exfalso. by vm_compute in H.
  - intros H2. apply strip_prefix_Some in H2 as ->. by right.
Qed.

Lemma hosted_rest_Some s r :
  hosted_rest s = Some r →
  ∃ pre, s = pre +:+ r ∧ all_chars (not_char "#") pre = true
         ∧ ∀ t, hosted_rest (pre +:+ t) = Some t.
Proof.
  unfold hosted_rest.
  destruct (http_scheme s) as [r0|] eqn:H0; [|done]. cbn [mbind option_bind].
  destruct (strip_any _ r0) as [r1|] eqn:H1; [|done]. cbn [mbind option_bind].
  destruct (strip_prefix "." r1) as [r2|] eqn:H2; [|done]. cbn [mbind option_bind].
  destruct (strip_any _ r2) as [r3|] eqn:H3; [|done]. cbn [mbind option_bind].
  intros H4.
  apply strip_prefix_Some in H4 as ->. apply strip_prefix_Some in H2 as ->.
  apply strip_any_Some in H3 as (tld & Htld & ->).
  apply strip_any_Some in H1 as (site & Hsite & ->).
  apply http_scheme_Some in H0.
  repeat (apply elem_of_cons in Htld as [->|Htld]);
    [| |by apply elem_of_nil in Htld];
    (repeat (apply elem_of_cons in Hsite as [->|Hsite]);
       [| | |by apply elem_of_nil in Hsite]);
    destruct H0 as [-> | ->];
    match goal with
    | |- ∃ pre, ?a +:+ ?b +:+ "." +:+ ?c +:+ "/" +:+ r = _ ∧ _ =>
        exists (a +:+ b +:+ "." +:+ c +:+ "/"); repeat split; reflexivity
    end.
Qed.

Lemma owner_repo_end_app r :
  owner_repo_end r = true → owner_repo_end (r +:+ ".git") = true.
Proof.
  unfold owner_repo_end, segment.
  destruct (take_while is_repo_char r) as [|c run] eqn:Hrun;
    cbn [mbind option_bind]; [done|].
  destruct (strip_prefix "/" (drop_while is_repo_char r)) as [r2|] eqn:H2; [|done].
  apply strip_prefix_Some in H2. simpl in H2.
  destruct (take_while_app_inside is_repo_char r _ _ ".git" H2) as [-> ->].
  rewrite Hrun. cbn [mbind option_bind].
  change (String "/" r2 +:+ ".git") with ("/" +:+ (r2 +:+ ".git")).
  rewrite strip_prefix_app.
  unfold repo_end. rewrite is_empty_app, all_chars_app.
  intros [Hne Hall]%andb_prop. rewrite Hall.
  destruct r2; done.
Qed.

Lemma owner_repo_end_no_hash r :
  owner_repo_end r = true → all_chars (not_char "#") r = true.
Proof.
  unfold owner_repo_end, segment. intros H.
  rewrite <- (take_drop is_repo_char r), all_chars_app.
  rewrite (all_chars_impl _ _ _ repo_char_not_hash (all_chars_take_while _ r)).
  destruct (take_while is_repo_char r) as [|c run];
    cbn [mbind option_bind] in H; [done|].
  destruct (strip_prefix "/" (drop_while is_repo_char r)) as [r2|] eqn:H2; [|done].
  apply strip_prefix_Some in H2 as ->.
  unfold repo_end in H. apply andb_prop in H as [_ H].
  change ("/" +:+ r2) with (String "/" r2). cbn [all_chars andb not_char].
  by apply (all_chars_impl _ _ _ repo_char_not_hash).
Qed.

Lemma re_hosted_app s : re_hosted s = true → re_hosted (s +:+ ".git") = true.
Proof.
  unfold re_hosted.
  destruct (hosted_rest s) as [r|] eqn:Hr; [|done].
  apply hosted_rest_Some in Hr as (pre & -> & _ & Hpre).
  rewrite append_assoc, Hpre. apply owner_repo_end_app.
Qed.

Lemma re_hosted_no_hash s : re_hosted s = true → all_chars (not_char "#") s = true.
Proof.
  unfold re_hosted.
  destruct (hosted_rest s) as [r|] eqn:Hr; [|done].
  apply hosted_rest_Some in Hr as (pre & -> & Hh & _).
  intros H. rewrite all_chars_app, Hh. by apply owner_repo_end_no_hash.
Qed.

(** [normalizeGitUrl] in terms of the text before the first [#]. *)
Lemma normalizeGitUrl_unfold x :
  normalizeGitUrl x =
  let n := take_while (not_char "#") x in
  if re_hosted n then if negb (endsWith ".git" n) then n +:+ ".git" else n
  else n.
Proof. unfold normalizeGitUrl. by rewrite hd_split. Qed.

Lemma normalizeGitUrl_fixed n :
  all_chars (not_char "#") n = true →
  (re_hosted n = true → endsWith ".git" n = true) →
  normalizeGitUrl n = n.
Proof.
  intros Hn H. rewrite normalizeGitUrl_unfold. simpl.
  rewrite (take_while_all _ _ Hn).
  destruct (re_hosted n); [|done]. by rewrite H.
Qed.

Lemma normalizeGitUrl_idempotent x :
  normalizeGitUrl (normalizeGitUrl x) = normalizeGitUrl x.
Proof.
  rewrite (normalizeGitUrl_unfold x). simpl.
  pose proof (all_chars_take_while (not_char "#") x) as Hn.
  set (n := take_while (not_char "#") x) in *.
  destruct (re_hosted n) eqn:Hh.
  - destruct (endsWith ".git" n) eqn:He; simpl.
    + by apply normalizeGitUrl_fixed.
    + apply normalizeGitUrl_fixed.
      * by rewrite all_chars_app, Hn.
      * intros _. apply endsWith_app.
  - apply normalizeGitUrl_fixed; [done|]. by rewrite Hh.
Qed.

Lemma normalizeGitUrl_spelling base dot_git fragment :
  re_hosted base = true → endsWith ".git" base = false →
  normalizeGitUrl (spelling base dot_git fragment) = base +:+ ".git".
Proof.
  intros Hh He. pose proof (re_hosted_no_hash _ Hh) as Hn.
  assert (Hn' : all_chars (not_char "#") (base +:+ ".git") = true)
    by (by rewrite all_chars_app, Hn).
  pose proof (re_hosted_app _ Hh) as Hh'.
  rewrite normalizeGitUrl_unfold. unfold spelling. simpl.
  destruct dot_git, fragment as [b|]; simpl;
    rewrite ?append_nil_r, ?(take_while_stop (not_char "#") _ "#" b),
            ?take_while_all by done;
    rewrite ?Hh', ?Hh, ?He, ?endsWith_app; done.
Qed.

End GitUtilsFacts.

(** ** The substitution engine *)

Module SubstFacts.
Import Js JsFacts Sys Subst.


Lemma word_not_open c : is_word c = true → Ascii.eqb c "(" = false.
Proof. destruct c as [[] [] [] [] [] [] [] []]; vm_compute; congruence. Qed.

Lemma word_not_brace c : is_word c = true → (not_char "}") c = true.
Proof. destruct c as [[] [] [] [] [] [] [] []]; vm_compute; congruence. Qed.

(** Passing over the rest of a match. *)
Lemma replace_all_M_skip m a : ∀ s,
  replace_all_M m (String.length a) (a +:+ s) = replace_all_M m O s.
Proof. induction a as [|c a IH]; intros s; simpl; [done|]. apply IH. Qed.

(** A character at which nothing matches is copied. *)
Lemma replace_all_M_copy m c s w :
  m (String c s) = None →
  replace_all_M m O (String c s) w =
  (let* rest := replace_all_M m O s in ret (String c rest)) w.
Proof. intros H. simpl. by rewrite H. Qed.

(** At a match the callback runs and the scan resumes after it. *)
Lemma replace_all_M_match m a c s callback w :
  m (String c a +:+ s) = Some (callback, S (String.length a)) →
  replace_all_M m O (String c a +:+ s) w =
  (let* r := callback in
   let* rest := replace_all_M m O s in ret (r +:+ rest)) w.
Proof.
  intros H. change (String c a +:+ s) with (String c (a +:+ s)) in *.
  cbn [replace_all_M]. rewrite H. cbn [Nat.pred].
  by rewrite replace_all_M_skip.
Qed.

Lemma transformMatch_call T id :
  is_empty T = false → all_chars is_word T = true →
  is_empty id = false → all_chars (not_char ")") id = true →
  transformMatch (T +:+ "(" +:+ id +:+ ")") = Some (T, id).
Proof.
  intros HT HwT Hid Hpid. unfold transformMatch, segment.
  change ("(" +:+ id +:+ ")") with (String "(" (id +:+ ")")).
  rewrite take_while_stop, drop_while_stop by done.
  destruct T as [|c T]; [done|]. cbn [mbind option_bind].
  change (String "(" (id +:+ ")")) with ("(" +:+ (id +:+ String ")" "")).
  rewrite strip_prefix_app. cbn [mbind option_bind].
  rewrite take_while_stop, drop_while_stop by done.
  rewrite Hid. by rewrite String.eqb_refl.
Qed.

Lemma transformText_default text T :
  toUpperCase T ∉ transform_names → transformText text T = text.
Proof.
  intros H. unfold transformText.
  repeat match goal with
         | |- context [String.eqb (toUpperCase T) ?n] =>
             destruct (String.eqb_spec (toUpperCase T) n) as [Heq|_];
             [exfalso; apply H; rewrite Heq; unfold transform_names; set_solver|]
         end.
  done.
Qed.

Section WithEnv.
Variable E : env.

(** The token [{{PQS:T(id)}}] is found where it starts. *)
Lemma token_at_call values T id rest :
  is_empty T = false → all_chars is_word T = true →
  is_empty id = false → all_chars (not_char ")") id = true →
  all_chars (not_char "}") id = true →
  let placeholder := T +:+ "(" +:+ id +:+ ")" in
  token_at E values ("{{PQS:" +:+ placeholder +:+ "}}" +:+ rest) =
  Some (substitute E values ("{{PQS:" +:+ placeholder +:+ "}}") placeholder,
        (String.length placeholder + 8)%nat).
Proof.
  intros HT HwT Hid Hpid Hbid placeholder. unfold token_at.
  rewrite strip_prefix_app. cbn [mbind option_bind].
  assert (Hph : all_chars (not_char "}") placeholder = true).
  { unfold placeholder. rewrite !all_chars_app.
    rewrite (all_chars_impl _ _ _ word_not_brace HwT), Hbid. done. }
  change ("}}" +:+ rest) with (String "}" (String "}" rest)).
  rewrite take_while_stop, drop_while_stop by done.
  change (String "}" (String "}" rest)) with ("}}" +:+ rest).
  rewrite strip_prefix_app. cbn [mbind option_bind].
  replace (is_empty placeholder) with false; [done|].
  unfold placeholder. by destruct T.
Qed.
End WithEnv.


Section Engine.
Variable E : env.

Lemma warn_all_eq lines : ∀ w,
  warn_all lines w
  = (Ok tt, World (fs w) (index_doc w) (now w) (uuids w)
              (log w ++ map EWarn lines)).
Proof.
  induction lines as [|line lines IH]; intros w.
  - cbn. rewrite app_nil_r. by destruct w.
  - cbn [warn_all]. unfold bind, emit. rewrite IH.
    cbn [fs index_doc now uuids log map]. by rewrite <- app_assoc.
Qed.

Lemma formatDate_ok pattern w : ∃ r w', formatDate E pattern w = (Ok r, w').
Proof.
  unfold formatDate, bind, get_now.
  destruct (date_fns_format E (now w) _) as [warnings [formatted|]];
    rewrite warn_all_eq; [by eexists _, _|].
  unfold emit; cbn.
  destruct (local_time E (now w)) as [[[[[? ?] ?] ?] ?] ?].
  by eexists _, _.
Qed.

Lemma substitute_ok values original placeholder w :
  ∃ r w', substitute E values original placeholder w = (Ok r, w').
Proof.
  unfold substitute.
  destruct (transformMatch placeholder) as [[transform arg]|].
  - destruct (String.eqb transform "DATE"); [apply formatDate_ok|].
    destruct (String.eqb transform "UUID"); [by eexists _, _|].
    destruct (values !! arg); [by eexists _, _|].
    destruct (values !! placeholder); by eexists _, _.
  - destruct (values !! placeholder); by eexists _, _.
Qed.

Lemma token_at_callback values s callback len :
  token_at E values s = Some (callback, len) →
  ∃ original placeholder, callback = substitute E values original placeholder.
Proof.
  unfold token_at.
  destruct (strip_prefix "{{PQS:" s) as [r|]; [|done]. cbn [mbind option_bind].
  destruct (is_empty _); [done|].
  destruct (strip_prefix "}}" _); [|done]. cbn [mbind option_bind].
  intros [= <- _]. by eexists _, _.
Qed.

(** The scan always produces a text: no callback throws. *)
Lemma replace_all_M_ok values s : ∀ skip w,
  ∃ r w', replace_all_M (token_at E values) skip s w = (Ok r, w').
Proof.
  induction s as [|c s IH]; intros skip w; cbn [replace_all_M].
  - by eexists _, _.
  - destruct skip as [|n]; [|apply IH].
    destruct (token_at E values (String c s)) as [[callback len]|] eqn:Ht.
    + apply token_at_callback in Ht as (o & p & ->).
      destruct (substitute_ok values o p w) as (r & w1 & Hr).
      destruct (IH (Nat.pred len) w1) as (r' & w2 & Hr').
      unfold bind. rewrite Hr, Hr'. by eexists _, _.
    + destruct (IH O w) as (r' & w2 & Hr').
      unfold bind. rewrite Hr'. by eexists _, _.
Qed.

Lemma performSubstitutions_ok content values w :
  ∃ r w', performSubstitutions E content values w = (Ok r, w').
Proof. apply replace_all_M_ok. Qed.

(** Text before the first brace is copied. *)
Lemma performSubstitutions_prefix values pre s w r w' :
  all_chars (not_char "{") pre = true →
  performSubstitutions E s values w = (Ok r, w') →
  performSubstitutions E (pre +:+ s) values w = (Ok (pre +:+ r), w').
Proof.
  intros Hpre Hs. unfold performSubstitutions in *.
  induction pre as [|c pre IH]; [done|].
  cbn [all_chars] in Hpre. apply andb_prop in Hpre as [Hc Hpre].
  change (String c pre +:+ s) with (String c (pre +:+ s)).
  rewrite replace_all_M_copy.
  - unfold bind. by rewrite (IH Hpre).
  - unfold token_at. cbn [strip_prefix].
    unfold not_char in Hc. apply negb_true_iff in Hc.
    rewrite Ascii.eqb_sym in Hc. by rewrite Hc.
Qed.
End Engine.


Section Engine.
Variable E : env.

Lemma substitute_unknown_transform values T id v original w :
  is_empty T = false → all_chars is_word T = true →
  T ≠ "DATE" → T ≠ "UUID" → toUpperCase T ∉ transform_names →
  is_empty id = false → all_chars (not_char ")") id = true →
  values !! id = Some v →
  substitute E values original (T +:+ "(" +:+ id +:+ ")") w
  = (Ok (to_string v), w).
Proof.
  intros HT HwT Hd Hu Hn Hid Hp Hv. unfold substitute.
  rewrite transformMatch_call by done.
  apply String.eqb_neq in Hd, Hu. rewrite Hd, Hu, Hv.
  by rewrite transformText_default.
Qed.

(** A whole token at the head of the content. *)
Lemma performSubstitutions_token values T id rest w :
  is_empty T = false → all_chars is_word T = true →
  is_empty id = false → all_chars (not_char ")") id = true →
  all_chars (not_char "}") id = true →
  let placeholder := T +:+ "(" +:+ id +:+ ")" in
  performSubstitutions E ("{{PQS:" +:+ placeholder +:+ "}}" +:+ rest) values w =
  (let* r := substitute E values ("{{PQS:" +:+ placeholder +:+ "}}") placeholder in
   let* rest' := performSubstitutions E rest values in
   ret (r +:+ rest')) w.
Proof.
  intros HT HwT Hid Hp Hb placeholder. unfold performSubstitutions.
  pose proof (token_at_call E values T id rest HT HwT Hid Hp Hb) as Ht.
  fold placeholder in Ht. cbv zeta in Ht.
  replace ("{{PQS:" +:+ placeholder +:+ "}}" +:+ rest)
    with (String "{" ("{PQS:" +:+ placeholder +:+ "}}") +:+ rest) in *
    by (cbn; by rewrite append_assoc).
  apply replace_all_M_match. rewrite Ht. do 2 f_equal.
  cbn. rewrite !length_app. cbn. lia.
Qed.

(** Content in which [{{PQS:] does not occur is left as it is. *)
Lemma performSubstitutions_no_token values content w :
  includes "{{PQS:" content = false →
  performSubstitutions E content values w = (Ok content, w).
Proof.
  unfold performSubstitutions.
  induction content as [|c s IH]; [done|].
  cbn [includes]. intros [Hc Hs]%orb_false_elim.
  rewrite replace_all_M_copy.
  - unfold bind. by rewrite (IH Hs).
  - unfold token_at. unfold startsWith in Hc.
    by destruct (strip_prefix "{{PQS:" (String c s)).
Qed.
End Engine.

End SubstFacts.

Module ScanFacts.
Import Js JsFacts Sys Subst SubstFacts.

Lemma open_token_tail c s : open_token (String c s) = false → open_token s = false.
Proof. cbn [open_token]. by intros [_ ?]%orb_false_elim. Qed.

Lemma open_token_head s r :
  open_token s = false → strip_prefix "{{PQS:" s = Some r →
  all_chars (not_char "}") r = false.
Proof.
  destruct s as [|c s]; [done|]. cbn [open_token].
  intros [H _]%orb_false_elim Hr. by rewrite Hr in H.
Qed.

Lemma strip_prefix_app_Some p : ∀ s r rest,
  strip_prefix p s = Some r → strip_prefix p (s +:+ rest) = Some (r +:+ rest).
Proof.
  intros s r rest ->%strip_prefix_Some.
  by rewrite append_assoc, strip_prefix_app.
Qed.

(** The opening [{{PQS:] of a match does not end in the token that
    follows: it lies in the text before it. *)
Lemma strip_open_app s rest r :
  is_empty s = false →
  strip_prefix "{{PQS:" (s +:+ "{{PQS:" +:+ rest) = Some r →
  ∃ r', strip_prefix "{{PQS:" s = Some r' ∧ r = r' +:+ "{{PQS:" +:+ rest.
Proof.
  intros Hs H.
  destruct s as [|c1 s]; [done|]. cbn [String.append strip_prefix] in H.
  destruct (Ascii.eqb "{" c1) eqn:E1; [|done].
  destruct s as [|c2 s]; [by cbn in H|]. cbn [String.append strip_prefix] in H.
  destruct (Ascii.eqb "{" c2) eqn:E2; [|done].
  destruct s as [|c3 s]; [by cbn in H|]. cbn [String.append strip_prefix] in H.
  destruct (Ascii.eqb "P" c3) eqn:E3; [|done].
  destruct s as [|c4 s]; [by cbn in H|]. cbn [String.append strip_prefix] in H.
  destruct (Ascii.eqb "Q" c4) eqn:E4; [|done].
  destruct s as [|c5 s]; [by cbn in H|]. cbn [String.append strip_prefix] in H.
  destruct (Ascii.eqb "S" c5) eqn:E5; [|done].
  destruct s as [|c6 s]; [by cbn in H|]. cbn [String.append strip_prefix] in H.
  destruct (Ascii.eqb ":" c6) eqn:E6; [|done].
  injection H as <-. exists s. split; [|done].
  cbn [strip_prefix]. by rewrite E1, E2, E3, E4, E5, E6.
Qed.

(** Where a class stops inside a text, what follows the text plays no
    part. *)
Lemma stop_inside f r rest :
  all_chars f r = false →
  take_while f (r +:+ rest) = take_while f r ∧
  drop_while f (r +:+ rest) = drop_while f r +:+ rest ∧
  ∃ c d, drop_while f r = String c d ∧ f c = false.
Proof.
  induction r as [|c r IH]; [done|]. cbn [all_chars].
  change (String c r +:+ rest) with (String c (r +:+ rest)).
  cbn [take_while drop_while]. destruct (f c) eqn:Hc.
  - cbn [andb]. intros H. destruct (IH H) as (-> & -> & Hd). by repeat split.
  - intros _. repeat split. by exists c, r.
Qed.

Section Engine.
Variable E : env.
Variable values : gmap string jsval.

(** A match that starts in a text without an open token lies in that
    text, whatever token follows the text. *)
Lemma token_at_app s rest :
  is_empty s = false → open_token s = false →
  token_at E values (s +:+ "{{PQS:" +:+ rest) = token_at E values s ∧
  ∀ callback len, token_at E values s = Some (callback, len) →
                  (len ≤ String.length s)%nat.
Proof.
  intros Hs Hopen. unfold token_at.
  destruct (strip_prefix "{{PQS:" s) as [r'|] eqn:Hr'.
  - rewrite (strip_prefix_app_Some _ _ _ _ Hr'). cbn [mbind option_bind].
    pose proof (open_token_head _ _ Hopen Hr') as Hstop.
    destruct (stop_inside _ r' ("{{PQS:" +:+ rest) Hstop)
      as (-> & -> & c & d & Hd & Hc).
    apply strip_prefix_Some in Hr' as Hsplit.
    pose proof (GitUtilsFacts.take_drop (not_char "}") r') as Htd.
    rewrite Hd in *. clear Hd.
    assert (c = "}"%char) as ->.
    { unfold not_char in Hc. apply negb_false_iff in Hc.
      by apply Ascii.eqb_eq in Hc. }
    destruct (is_empty (take_while (not_char "}") r')); [done|].
    destruct d as [|c' d].
    + cbn. done.
    + change (String "}" (String c' d) +:+ "{{PQS:" +:+ rest)
        with (String "}" (String c' (d +:+ "{{PQS:" +:+ rest))).
      cbn [strip_prefix]. change (Ascii.eqb "}" "}") with true. cbv iota.
      destruct (Ascii.eqb "}" c'); [|done]. cbn [mbind option_bind].
      split; [done|]. intros callback len [= _ <-].
      apply (f_equal String.length) in Htd. rewrite length_app in Htd.
      rewrite Hsplit, length_app. cbn [String.length] in *. lia.
  - destruct (strip_prefix "{{PQS:" (s +:+ "{{PQS:" +:+ rest)) as [r|] eqn:Hr;
      [|done].
    apply strip_open_app in Hr as (r' & Hr & _); [congruence|done].
Qed.

(** The scan of a text without an open token, followed by a token, is the
    scan of the text and then the scan from the token on. *)
Lemma scan_app rest s : ∀ skip w,
  open_token s = false → (skip ≤ String.length s)%nat →
  replace_all_M (token_at E values) skip (s +:+ "{{PQS:" +:+ rest) w
  = (let* before := replace_all_M (token_at E values) skip s in
     let* behind := replace_all_M (token_at E values) O ("{{PQS:" +:+ rest) in
     ret (before +:+ behind)) w.
Proof.
  induction s as [|c s IH]; intros skip w Hopen Hskip.
  - cbn [String.length] in Hskip. assert (skip = O) as -> by lia.
    change ("" +:+ "{{PQS:" +:+ rest) with ("{{PQS:" +:+ rest).
    change (replace_all_M (token_at E values) 0 "") with (@ret string "").
    unfold bind, ret.
    by destruct (replace_all_M (token_at E values) 0 ("{{PQS:" +:+ rest) w)
      as [[b|n m|st] w'].
  - change (String c s +:+ "{{PQS:" +:+ rest)
      with (String c (s +:+ "{{PQS:" +:+ rest)).
    pose proof (open_token_tail _ _ Hopen) as Htail.
    destruct skip as [|n].
    + cbn [replace_all_M].
      change (String c (s +:+ "{{PQS:" +:+ rest))
        with (String c s +:+ "{{PQS:" +:+ rest).
      destruct (token_at_app (String c s) rest eq_refl Hopen) as [-> Hlen].
      destruct (token_at E values (String c s)) as [[callback len]|] eqn:Ht.
      * specialize (Hlen _ _ eq_refl). cbn [String.length] in Hlen.
        unfold bind at 1 3 4. destruct (callback w) as [[r|n m|st] w1];
          [|done|done].
        unfold bind at 1. rewrite IH by (done || lia).
        unfold bind, ret.
        destruct (replace_all_M _ (Nat.pred len) s w1) as [[a|n m|st] w2];
          [|done|done].
        destruct (replace_all_M _ O _ w2) as [[b|n m|st] w3]; [|done|done].
        by rewrite append_assoc.
      * unfold bind at 1 2 3. rewrite IH by (done || lia).
        unfold bind, ret.
        destruct (replace_all_M _ O s w) as [[a|n m|st] w2]; [|done|done].
        by destruct (replace_all_M _ O _ w2) as [[b|n m|st] w3].
    + cbn [replace_all_M]. apply IH; [done|]. cbn [String.length] in Hskip. lia.
Qed.

Lemma performSubstitutions_app pre rest w :
  open_token pre = false →
  performSubstitutions E (pre +:+ "{{PQS:" +:+ rest) values w
  = (let* before := performSubstitutions E pre values in
     let* behind := performSubstitutions E ("{{PQS:" +:+ rest) values in
     ret (before +:+ behind)) w.
Proof. intros Hopen. apply scan_app; [done|lia]. Qed.
End Engine.

End ScanFacts.

(** C10: every token [{{PQS:T(id)}}] whose [T] is an identifier other than
    [DATE], [UUID] and (whatever its case) the eight transformation names
    is replaced, when the value set defines [id], by the string form of
    that value as it is; the token is not kept and nothing is raised.  The
    token stands anywhere in a content: behind any text that does not end
    inside a token (no [{{PQS:] without a [}] behind it), and before any
    text.  The text before and the text behind are substituted on their
    own, in this order.  The value is one that is printed without an
    exponent. *)
Theorem unknown_transform_substitutes_raw_value
    (E : Sys.env) (values : gmap string Sys.jsval) (T id : string)
    (v : Sys.jsval) (pre rest : string) (w : Sys.world) :
  Js.is_empty T = false → Js.all_chars Js.is_word T = true →
  T ≠ "DATE" → T ≠ "UUID" → Js.toUpperCase T ∉ Subst.transform_names →
  Js.is_empty id = false →
  Js.all_chars (Js.not_char ")") id = true →
  Js.all_chars (Js.not_char "}") id = true →
  Subst.open_token pre = false →
  values !! id = Some v →
  Subst.is_decimal v = true →
  ∃ before w1 behind w2,
    Subst.performSubstitutions E pre values w = (Sys.Ok before, w1) ∧
    Subst.performSubstitutions E rest values w1 = (Sys.Ok behind, w2) ∧
    Subst.performSubstitutions E
      (pre +:+ "{{PQS:" +:+ (T +:+ "(" +:+ id +:+ ")") +:+ "}}" +:+ rest)
      values w
    = (Sys.Ok (before +:+ Subst.to_string v +:+ behind), w2).
Proof.
  intros HT HwT Hd Hu Hn Hid Hp Hb Hpre Hv _.
  destruct (SubstFacts.performSubstitutions_ok E pre values w)
    as (before & w1 & Hbefore).
  destruct (SubstFacts.performSubstitutions_ok E rest values w1)
    as (behind & w2 & Hbehind).
  exists before, w1, behind, w2. split; [done|]. split; [done|].
  rewrite ScanFacts.performSubstitutions_app by done.
  unfold Sys.bind at 1. rewrite Hbefore. unfold Sys.bind at 1.
  rewrite SubstFacts.performSubstitutions_token by done.
  unfold Sys.bind.
  rewrite (SubstFacts.substitute_unknown_transform E values T id v) by done.
  by rewrite Hbehind.
Qed.

Lemma unknown_transform_substitutes_raw_value_witness :
  Subst.performSubstitutions Scenario.env_run1
    ("{{PQS:projectId}}: { id: " +:+ "{{PQS:"
     +:+ ("UUID_FIXED" +:+ "(" +:+ "projectId" +:+ ")") +:+ "}}"
     +:+ " } {{PQS:projectId}}")
    (<["projectId" := Sys.VStr "demo"]> ∅) Scenario.world0
  = (Sys.Ok "demo: { id: demo } demo", Scenario.world0).
Proof.
  destruct (unknown_transform_substitutes_raw_value Scenario.env_run1
              (<["projectId" := Sys.VStr "demo"]> ∅) "UUID_FIXED" "projectId"
              (Sys.VStr "demo") "{{PQS:projectId}}: { id: "
              " } {{PQS:projectId}}" Scenario.world0)
    as (before & w1 & behind & w2 & Hbefore & Hbehind & ->);
    [ reflexivity | reflexivity | discriminate | discriminate
    | apply (bool_decide_unpack _); vm_compute; exact I
    | reflexivity | reflexivity | reflexivity | reflexivity | reflexivity
    | reflexivity | ].
  vm_compute in Hbefore. injection Hbefore as <- <-.
  vm_compute in Hbehind. injection Hbehind as <- <-.
  reflexivity.
Defined.

(** C4: what the code does with [{{PQS:UUID_FIXED(projectId)}}].  No
    identifier is generated or cached: in any two runs (any two sources of
    identifiers and any two states) the token yields the same text and
    draws nothing from the source; with no value to look up it is left as
    it stands, and when the value set defines [projectId] it is replaced by
    that value. *)
Theorem UUID_FIXED_is_not_generated
    (E1 E2 : Sys.env) (values : gmap string Sys.jsval) (w1 w2 : Sys.world) :
  (∃ text,
     Subst.performSubstitutions E1 "{{PQS:UUID_FIXED(projectId)}}" values w1
       = (Sys.Ok text, w1) ∧
     Subst.performSubstitutions E2 "{{PQS:UUID_FIXED(projectId)}}" values w2
       = (Sys.Ok text, w2)) ∧
  Subst.performSubstitutions E1 "{{PQS:UUID_FIXED(projectId)}}" ∅ w1
    = (Sys.Ok "{{PQS:UUID_FIXED(projectId)}}", w1) ∧
  Subst.performSubstitutions E1 "{{PQS:UUID_FIXED(projectId)}}"
      (<["projectId" := Sys.VStr "demo"]> ∅) w1
    = (Sys.Ok "demo", w1).
Proof.
  assert (Hrun : ∀ E w,
    Subst.performSubstitutions E "{{PQS:UUID_FIXED(projectId)}}" values w =
    (Sys.Ok match values !! "projectId" with
            | Some v => Subst.to_string v
            | None => match values !! "UUID_FIXED(projectId)" with
                      | Some v => Subst.to_string v
                      | None => "{{PQS:UUID_FIXED(projectId)}}"
                      end
            end, w)).
  { intros E w.
    pose proof (SubstFacts.performSubstitutions_token E values
                  "UUID_FIXED" "projectId" "" w) as H.
    cbn zeta in H. etrans; [apply H; reflexivity|]. clear H.
    unfold Sys.bind, Subst.substitute.
    rewrite (SubstFacts.transformMatch_call "UUID_FIXED" "projectId")
      by reflexivity.
    cbn [String.eqb Ascii.eqb Bool.eqb].
    destruct (values !! "projectId") as [v|] eqn:Hv.
    - rewrite SubstFacts.transformText_default
        by (apply (bool_decide_unpack _); vm_compute; exact I).
      cbn. by rewrite JsFacts.append_nil_r.
    - change ("UUID_FIXED" +:+ "(" +:+ "projectId" +:+ ")")
        with "UUID_FIXED(projectId)".
      destruct (values !! "UUID_FIXED(projectId)"); cbn;
        by rewrite ?JsFacts.append_nil_r. }
  split; [|split].
  - eexists. split; apply Hrun.
  - by vm_compute.
  - by vm_compute.
Qed.

(** C5: the block markers are not known to the engine.  Whatever the
    value set says about [flag], content made of a [{{#PQS:flag}}] block and
    a [{{^PQS:flag}}] block comes out unchanged: both bodies are kept and
    the markers stay in the text. *)
Theorem block_conditionals_are_left_verbatim
    (E : Sys.env) (values : gmap string Sys.jsval) (w : Sys.world) :
  Subst.performSubstitutions E
    "{{#PQS:flag}}yes{{/PQS:flag}}{{^PQS:flag}}no{{/PQS:flag}}" values w
  = (Sys.Ok "{{#PQS:flag}}yes{{/PQS:flag}}{{^PQS:flag}}no{{/PQS:flag}}", w).
Proof. by apply SubstFacts.performSubstitutions_no_token. Qed.

(** C6: a location that contains [//] is rejected by [validateGitUrl], a
    remote source at such a location is never available, whether or not
    git is installed, and every location that starts with [http://] or
    [https://] contains [//]. *)
Theorem double_slash_is_never_valid
    (E : Sys.env) (location : string) (w : Sys.world) :
  (Js.includes "//" location = true →
   GitUtils.validateGitUrl location = false ∧
   (TemplateSource.isRemote (TemplateSource.make location) = true →
    TemplateSource.isAvailable E (TemplateSource.make location) w
      = (Sys.Ok false, w))) ∧
  (Js.startsWith "http://" location = true
   ∨ Js.startsWith "https://" location = true →
   Js.includes "//" location = true).
Proof.
  split.
  - intros Hs.
    assert (Hv : GitUtils.validateGitUrl location = false).
    { unfold GitUtils.validateGitUrl. rewrite Hs, orb_true_r.
      by destruct (negb _). }
    split; [done|].
    intros Hr. unfold TemplateSource.isAvailable, Sys.try_catch.
    rewrite Hr. cbn [TemplateSource.location TemplateSource.make].
    by rewrite Hv.
  - unfold Js.startsWith. intros [H|H].
    + destruct (Js.strip_prefix "http://" location) as [r|] eqn:Hp; [|done].
      apply JsFacts.strip_prefix_Some in Hp as ->. reflexivity.
    + destruct (Js.strip_prefix "https://" location) as [r|] eqn:Hp; [|done].
      apply JsFacts.strip_prefix_Some in Hp as ->. reflexivity.
Qed.

Lemma double_slash_is_never_valid_witness :
  GitUtils.isGitUrl "https://github.com/user/repo.git" = true ∧
  Js.includes "//" "https://github.com/user/repo.git" = true ∧
  GitUtils.validateGitUrl "https://github.com/user/repo.git" = false ∧
  TemplateSource.isAvailable Scenario.env_run1
    (TemplateSource.make "https://github.com/user/repo.git") Scenario.world0
    = (Sys.Ok false, Scenario.world0).
Proof.
  pose proof (double_slash_is_never_valid Scenario.env_run1
                "https://github.com/user/repo.git" Scenario.world0)
    as [H1 H2].
  assert (Hs : Js.includes "//" "https://github.com/user/repo.git" = true)
    by (apply H2; right; reflexivity).
  destruct (H1 Hs) as [Hv Ha].
  split; [reflexivity|]. split; [exact Hs|]. split; [exact Hv|].
  apply Ha. reflexivity.
Defined.

(** C8: [normalizeGitUrl] is idempotent, and the spellings of a hosted
    repository (a [base] the hosting expression accepts and that does not
    end in [.git]), with or without the [.git] suffix and with or without a
    [#branch] fragment, have one normal form, [base.git], and one cache
    key. *)
Theorem normalizeGitUrl_idempotent_and_canonical
    (md5_hex : string → string) (x base : string)
    (git1 git2 : bool) (fragment1 fragment2 : option string) :
  GitUtils.normalizeGitUrl (GitUtils.normalizeGitUrl x)
    = GitUtils.normalizeGitUrl x ∧
  (GitUtils.re_hosted base = true → Js.endsWith ".git" base = false →
   GitUtils.normalizeGitUrl (GitUtils.spelling base git1 fragment1)
     = base +:+ ".git" ∧
   GitUtils.normalizeGitUrl (GitUtils.spelling base git1 fragment1)
     = GitUtils.normalizeGitUrl (GitUtils.spelling base git2 fragment2) ∧
   GitUtils.generateCacheKey md5_hex (GitUtils.spelling base git1 fragment1)
     = GitUtils.generateCacheKey md5_hex (GitUtils.spelling base git2 fragment2)).
Proof.
  split; [apply GitUtilsFacts.normalizeGitUrl_idempotent|].
  intros Hh He.
  pose proof (GitUtilsFacts.normalizeGitUrl_spelling base git1 fragment1 Hh He) as H1.
  pose proof (GitUtilsFacts.normalizeGitUrl_spelling base git2 fragment2 Hh He) as H2.
  split; [done|]. split; [congruence|].
  unfold GitUtils.generateCacheKey. by rewrite H1, H2.
Qed.

Lemma normalizeGitUrl_idempotent_and_canonical_witness :
  GitUtils.normalizeGitUrl "https://github.com/user/repo#main"
    = "https://github.com/user/repo" +:+ ".git" ∧
  GitUtils.normalizeGitUrl "https://github.com/user/repo#main"
    = GitUtils.normalizeGitUrl "https://github.com/user/repo.git" ∧
  GitUtils.generateCacheKey (Sys.md5_hex Scenario.env_run1)
      "https://github.com/user/repo#main"
    = GitUtils.generateCacheKey (Sys.md5_hex Scenario.env_run1)
        "https://github.com/user/repo.git".
Proof.
  apply (proj2 (normalizeGitUrl_idempotent_and_canonical
                  (Sys.md5_hex Scenario.env_run1) ""
                  "https://github.com/user/repo" false true (Some "main") None));
    reflexivity.
Defined.

(** ** The cache *)

Module CacheFacts.
Import Js JsFacts Sys.

Lemma ensureDir_lookup_Some (f : files) d p x :
  f !! p = Some x → ensureDir f d !! p = Some x.
Proof.
  intros Hp. unfold ensureDir.
  induction (dir_chain "" d) as [|a l IH]; simpl; [done|].
  destruct (foldr _ f l !! a) eqn:Ha; [done|].
  rewrite lookup_insert_ne; [done|]. intros ->. congruence.
Qed.

Lemma ensureDir_pathExists (f : files) d p :
  pathExists f p = true → pathExists (ensureDir f d) p = true.
Proof.
  unfold pathExists. intros [x Hx]%bool_decide_eq_true.
  apply bool_decide_eq_true. exists x. by apply ensureDir_lookup_Some.
Qed.

End CacheFacts.

(** C7, as amended: for a remote reference that passes [validateGitUrl],
    on a machine where [git --version] succeeds, with a record in the cache
    index and its directory in place, [cloneOrGetCached] with
    [force = false] returns the cached path.  Nothing is cloned or
    removed: the index is as it was, no file is lost, and the log gains
    the git check, the making of the cache root and one console line.  The
    age of the record plays no part, so this holds for a stale one too. *)
Theorem stale_cache_entry_is_reused
    (E : Sys.env) (gitUrl : string) (quiet : bool) (branch : option string)
    (w : Sys.world) (index : gmap string Sys.cache_entry)
    (entry : Sys.cache_entry) (out err : string) :
  GitUtils.validateGitUrl gitUrl = true →
  Sys.sh E "git --version" None (Sys.fs w) = (Sys.fs w, Sys.ShOk out err) →
  Sys.index_doc w = Some index →
  index !! CacheManager.cacheKeyOf E gitUrl = Some entry →
  Sys.pathExists (Sys.fs w) (CacheManager.cachePathOf E gitUrl) = true →
  let w' :=
    Sys.World (Sys.ensureDir (Sys.fs w) (CacheManager.mainCachePath E))
      (Sys.index_doc w) (Sys.now w) (Sys.uuids w)
      (Sys.log w
       ++ [Sys.EExec "git --version" None;
           Sys.EEnsureDir (CacheManager.mainCachePath E)]
       ++ (if quiet then []
           else [Sys.ELog ("Using cached template from "
                           +:+ GitUtils.full (GitUtils.parseGitUrl gitUrl))])) in
  GitCloner.cloneOrGetCached E gitUrl (GitCloner.CloneOptions false quiet branch) w
    = (Sys.Ok (CacheManager.cachePathOf E gitUrl), w') ∧
  (∀ p x, Sys.fs w !! p = Some x → Sys.fs w' !! p = Some x) ∧
  CacheManager.isCacheStale_default E gitUrl w
    = (Sys.Ok (7 * CacheManager.ms_per_day
               <? Sys.now w - Sys.lastUpdated entry)%Z, w).
Proof.
  intros Hvalid Hgit Hdoc Hentry Hdir w'. split; [|split].
  - unfold GitCloner.cloneOrGetCached. rewrite Hvalid. cbn [negb].
    unfold GitCloner.isGitAvailable, Sys.try_catch, Sys.execAsync.
    unfold Sys.bind at 1 2. rewrite Hgit. cbn [Sys.ret negb].
    unfold CacheManager.initializeCache, CacheManager.getCacheInfo,
      CacheManager.indexFileExists, CacheManager.loadCacheIndex,
      Sys.emit, Sys.modify_fs, Sys.get_fs, Sys.bind.
    cbn [Sys.fs Sys.index_doc Sys.now Sys.uuids Sys.log].
    rewrite Hdoc.
    rewrite (bool_decide_eq_true_2 (is_Some (Some index))) by eauto.
    cbn -[Sys.ensureDir Sys.pathExists CacheManager.cachePathOf
          CacheManager.cacheKeyOf CacheManager.mainCachePath
          GitUtils.parseGitUrl bool_decide].
    rewrite Hentry, (CacheFacts.ensureDir_pathExists _ _ _ Hdir).
    cbn -[Sys.ensureDir Sys.pathExists CacheManager.cachePathOf
          CacheManager.cacheKeyOf CacheManager.mainCachePath
          GitUtils.parseGitUrl bool_decide].
    rewrite (bool_decide_eq_true_2 (is_Some (Some _))) by eauto.
    unfold w'. rewrite Hdoc.
    destruct quiet;
      cbn -[Sys.ensureDir CacheManager.cachePathOf
            CacheManager.mainCachePath GitUtils.parseGitUrl];
      by rewrite <- ?app_assoc.
  - intros p x Hp. by apply CacheFacts.ensureDir_lookup_Some.
  - unfold CacheManager.isCacheStale_default, CacheManager.isCacheStale,
      CacheManager.getCacheInfo, CacheManager.loadCacheIndex,
      Sys.get_fs, Sys.get_now, Sys.bind.
    cbn -[Sys.pathExists CacheManager.cachePathOf CacheManager.cacheKeyOf
          CacheManager.ms_per_day Z.mul Z.sub Z.ltb].
    rewrite Hdoc. cbn [default id]. rewrite Hentry, Hdir. reflexivity.
Qed.

Lemma stale_cache_entry_is_reused_witness :
  CacheManager.isCacheStale_default Scenario.env_run1 Scenario.cached_url
      (Scenario.cached_world Scenario.env_run1 Scenario.cached_url)
    = (Sys.Ok true, Scenario.cached_world Scenario.env_run1 Scenario.cached_url) ∧
  ∃ w',
    GitCloner.cloneOrGetCached Scenario.env_run1 Scenario.cached_url
        (GitCloner.CloneOptions false false None)
        (Scenario.cached_world Scenario.env_run1 Scenario.cached_url)
      = (Sys.Ok (CacheManager.cachePathOf Scenario.env_run1 Scenario.cached_url), w') ∧
    Sys.log w'
      = [Sys.EExec "git --version" None;
         Sys.EEnsureDir "/home/u/.pqs/cache";
         Sys.ELog "Using cached template from user/repo"] ∧
    Sys.index_doc w'
      = Sys.index_doc (Scenario.cached_world Scenario.env_run1 Scenario.cached_url).
Proof.
  split; [vm_compute; reflexivity|].
  eexists. split; [|split].
  - apply (stale_cache_entry_is_reused Scenario.env_run1 Scenario.cached_url
             false None
             (Scenario.cached_world Scenario.env_run1 Scenario.cached_url)
             (<[CacheManager.cacheKeyOf Scenario.env_run1 Scenario.cached_url :=
                  Sys.CacheEntry Scenario.cached_url None 0
                    "github.com" "user" "repo" (Some 0%Z)]> ∅)
             (Sys.CacheEntry Scenario.cached_url None 0
                "github.com" "user" "repo" (Some 0%Z)) "" "");
      vm_compute; reflexivity.
  - reflexivity.
  - reflexivity.
Defined.

(** ** Project creation *)

Module PQSFacts.
Import Js JsFacts Sys Subst PQS Report.

Lemma reports_only_refl w : reports_only w w.
Proof. repeat split. exists []. by rewrite app_nil_r. Qed.

Lemma reports_only_trans w1 w2 w3 :
  reports_only w1 w2 → reports_only w2 w3 → reports_only w1 w3.
Proof.
  intros (Hf & Hi & Hu & l & Hl & Hr) (Hf' & Hi' & Hu' & l' & Hl' & Hr').
  repeat split; try congruence.
  exists (l ++ l')%list. split.
  - by rewrite Hl', Hl, app_assoc.
  - by rewrite forallb_app, Hr, Hr'.
Qed.

Lemma harmless_ret {A} (a : A) : harmless (ret a).
Proof. intros w. apply reports_only_refl. Qed.

Lemma harmless_throw {A} msg : harmless (@throw A msg).
Proof. intros w. apply reports_only_refl. Qed.

Lemma harmless_exit {A} st : harmless (@exit A st).
Proof. intros w. apply reports_only_refl. Qed.

Lemma harmless_get_fs : harmless get_fs.
Proof. intros w. apply reports_only_refl. Qed.

Lemma harmless_emit e : is_report e = true → harmless (emit e).
Proof.
  intros He w. repeat split. exists [e]. split; [done|]. cbn. by rewrite He.
Qed.

Lemma harmless_bind {A B} (m : M A) (k : A → M B) :
  harmless m → (∀ a, harmless (k a)) → harmless (bind m k).
Proof.
  intros Hm Hk w. unfold bind. specialize (Hm w).
  destruct (m w) as [[a| |] w1]; cbn in *; [|done|done].
  eapply reports_only_trans; [exact Hm|apply Hk].
Qed.

Lemma harmless_for_each {A} (l : list A) body :
  (∀ x, harmless (body x)) → harmless (for_each l body).
Proof.
  intros Hb. induction l as [|x l IH]; cbn [for_each].
  - apply harmless_ret.
  - apply harmless_bind; [apply Hb|done].
Qed.

Lemma harmless_fold_M {A S} (l : list A) (body : S → A → M S) :
  (∀ s x, harmless (body s x)) → ∀ s, harmless (fold_M l body s).
Proof.
  intros Hb. induction l as [|x l IH]; intros s; cbn [fold_M].
  - apply harmless_ret.
  - apply harmless_bind; [apply Hb|done].
Qed.

Ltac harmless_step :=
  first
    [ apply harmless_ret | apply harmless_throw | apply harmless_exit
    | apply harmless_get_fs
    | (apply harmless_emit; reflexivity)
    | (apply harmless_bind; [|intros ?])
    | (apply harmless_for_each; intros ?) ].

Section WithEnv.
Variable E : env.

Lemma harmless_ask cliArgs answers q : harmless (ask E cliArgs answers q).
Proof.
  unfold ask.
  destruct (match q_argument q with Some _ => _ | None => _ end);
    [apply harmless_ret|].
  destruct (cliArgs !! q_name q); [apply harmless_ret|].
  destruct (bool_decide _); [|apply harmless_throw].
  destruct (prompt E _ _); repeat harmless_step.
Qed.

Lemma harmless_askQuestions t cliArgs : harmless (askQuestions E t cliArgs).
Proof. apply harmless_fold_M. apply harmless_ask. Qed.






(** The guard of a command step and of a copy step has no counterpart
    for a replace step, nor for a question. *)
Lemma guarded_command_is_skipped s command outputPath answers dryRun :
  condition_fails (s_condition s) answers = true →
  processCommandStep E s command outputPath answers dryRun = ret tt.
Proof. unfold processCommandStep. by intros ->. Qed.

Lemma guarded_copy_is_skipped s source dest excl templatePath outputPath
    answers dryRun :
  condition_fails (s_condition s) answers = true →
  processCopyStep E s source dest excl templatePath outputPath answers dryRun
  = ret tt.
Proof. unfold processCopyStep. by intros ->. Qed.

Lemma replace_step_condition_is_not_read t outputPath answers dryRun files
    description condition :
  processStep E t outputPath answers dryRun
    (Step (Replace files) description condition)
  = processStep E t outputPath answers dryRun
      (Step (Replace files) description None).
Proof. reflexivity. Qed.

Lemma question_condition_is_not_read cliArgs answers type name message
    argument condition :
  ask E cliArgs answers (Question type name message argument condition)
  = ask E cliArgs answers (Question type name message argument None).
Proof. reflexivity. Qed.
End WithEnv.

End PQSFacts.

(** C1: a [replace] step whose condition is false over the collected
    answers is carried out all the same.  In the run below the template
    has that one step; its file is read and rewritten.  A [command] step
    and a [copy] step with the same condition leave no trace after the
    copy phase. *)
Theorem replace_step_runs_despite_false_condition :
  let run (t : PQS.template) :=
    PQS.createProject Scenario.env_run1 (Scenario.registry t) "demo"
      Scenario.options_real Scenario.world0 in
  let copy_phase :=
    [Sys.ELog "Creating project from template: demo";
     Sys.ELog "Output directory: /out";
     Sys.EEnsureDir "/out";
     Sys.ELog (PQS.nl +:+ "Copying template files...");
     Sys.EEnsureDir "/out";
     Sys.ECopy "/tpl/a.txt" "/out/a.txt";
     Sys.ELog (PQS.nl +:+ "Processing template steps...")] in
  let done := [Sys.ELog (PQS.nl +:+ "Project created successfully!")] in
  PQS.condition_fails (Some Scenario.never) ∅ = true ∧
  Sys.log (run (Scenario.template_replace (Some Scenario.never))).2
    = copy_phase
      ++ [Sys.EReadFile "/out/a.txt";
          Sys.EWriteFile "/out/a.txt" "hello world"]
      ++ done ∧
  Sys.fs (run (Scenario.template_replace (Some Scenario.never))).2 !! "/out/a.txt"
    = Some (Sys.File "hello world") ∧
  Sys.log (run (Scenario.template_command (Some Scenario.never))).2
    = copy_phase ++ done ∧
  Sys.log (run (Scenario.template_copy (Some Scenario.never))).2
    = copy_phase ++ done.
Proof. repeat split; vm_compute; reflexivity. Qed.

(** C2: the condition of a question is not consulted.  The second
    question carries a condition that is false once the first answer is
    "no"; it is prompted all the same and its answer is stored. *)
Theorem question_is_asked_despite_false_condition :
  let run :=
    PQS.askQuestions Scenario.env_run1 Scenario.template_questions ∅
      Scenario.world0 in
  Scenario.first_is_true (<["first" := Sys.VBool false]> ∅) = false ∧
  Sys.log run.2 = [Sys.EPrompt "first"; Sys.EPrompt "second"] ∧
  run.1 = Sys.Ok (<["second" := Sys.VStr "typed"]>
                    (<["first" := Sys.VBool false]> ∅)).
Proof. repeat split; vm_compute; reflexivity. Qed.

Module TransformFacts.
Import Js JsFacts Subst.

Lemma replace_all_from_skip m a : ∀ s,
  replace_all_from m (String.length a) (a +:+ s) = replace_all_from m O s.
Proof. induction a as [|c a IH]; intros s; simpl; [done|]. apply IH. Qed.

End TransformFacts.

(** C9: CAMEL does not lower-case the first run of characters.  On
    [My Project] the code gives [MyProject], the very text PASCAL gives,
    where the specification, which has CAMEL lower-case the first run,
    asks for [myProject].  The two examples of the specification, whose
    first run is in lower case already, come out as specified. *)
Theorem CAMEL_does_not_lowercase_the_first_run :
  Reading.camel_as_specified "My Project" = "myProject" ∧
  Subst.transformText "My Project" "CAMEL" = "MyProject" ∧
  Subst.transformText "My Project" "CAMEL"
    ≠ Reading.camel_as_specified "My Project" ∧
  Subst.transformText "My Project" "PASCAL"
    = Subst.transformText "My Project" "CAMEL" ∧
  Subst.transformText "my project name" "CAMEL" = "myProjectName" ∧
  Subst.transformText "my-project" "PASCAL" = "MyProject".
Proof. repeat split. discriminate. Qed.

Module ParityFacts.
Import Js JsFacts Sys Subst PQS.


End ParityFacts.

(** C7, as stated, fails: a repository that is cached, its directory in
    place, read with [force = false] on a machine where [git --version]
    fails; and a cached [https] reference, which does not pass
    [validateGitUrl].  Neither call returns the cached path. *)
Lemma cached_read_is_guarded :
  let w := Scenario.cached_world Scenario.env_no_git Scenario.cached_url in
  let w' := Scenario.cached_world Scenario.env_run1 Scenario.https_url in
  GitUtils.isGitUrl Scenario.cached_url = true ∧
  (CacheManager.getCacheInfo Scenario.env_no_git Scenario.cached_url w).1
    = Sys.Ok (Some (Sys.CacheEntry Scenario.cached_url None 0
                      "github.com" "user" "repo" (Some 0%Z),
                    CacheManager.cachePathOf Scenario.env_no_git
                      Scenario.cached_url)) ∧
  (GitCloner.cloneOrGetCached Scenario.env_no_git Scenario.cached_url
     (GitCloner.CloneOptions false false None) w).1
    = Sys.Throw "Error" "Git is not installed or not available in PATH" ∧
  GitUtils.isGitUrl Scenario.https_url = true ∧
  Sys.pathExists (Sys.fs w')
    (CacheManager.cachePathOf Scenario.env_run1 Scenario.https_url) = true ∧
  (GitCloner.cloneOrGetCached Scenario.env_run1 Scenario.https_url
     (GitCloner.CloneOptions false false None) w').1
    = Sys.Throw "Error" "Invalid git URL: https://github.com/user/repo.git".
Proof. repeat split; vm_compute; reflexivity. Qed.


(** * Further properties of the code *)

(** ** Repository references, continued *)

Module ReferenceFacts.
Import Js JsFacts GitUtils GitUtilsFacts.

Lemma segment_Some f s run rest :
  segment f s = Some (run, rest) →
  s = run +:+ rest ∧ all_chars f run = true ∧ is_empty run = false.
Proof.
  unfold segment. intros H.
  assert (Hrun : run = take_while f s ∧ rest = drop_while f s).
  { destruct (take_while f s); [done|]. by inversion H. }
  destruct Hrun as [-> ->]. split; [by rewrite take_drop|].
  split; [apply all_chars_take_while|].
  by destruct (take_while f s).
Qed.

Lemma segment_stop f a c b :
  is_empty a = false → all_chars f a = true → f c = false →
  segment f (a +:+ String c b) = Some (a, String c b).
Proof.
  intros Hne Ha Hc. unfold segment.
  rewrite take_while_stop, drop_while_stop by done. by destruct a.
Qed.

Lemma http_scheme_includes s r : http_scheme s = Some r → includes "//" s = true.
Proof. intros [-> | ->]%http_scheme_Some; reflexivity. Qed.

Lemma split_no_sep sep s :
  all_chars (not_char sep) s = true → split sep s = [s].
Proof.
  induction s as [|c s IH]; [done|].
  cbn [all_chars split]. intros [Hc Hs]%andb_prop.
  unfold not_char in Hc. apply negb_true_iff in Hc. rewrite Hc.
  by rewrite (IH Hs).
Qed.

Lemma split_at_sep sep a rest :
  all_chars (not_char sep) a = true →
  split sep (a +:+ String sep rest) = a :: split sep rest.
Proof.
  induction a as [|c a IH]; intros Ha.
  - cbn. by rewrite Ascii.eqb_refl.
  - cbn [all_chars] in Ha. apply andb_prop in Ha as [Hc Ha].
    unfold not_char in Hc. apply negb_true_iff in Hc.
    change (String c a +:+ String sep rest)
      with (String c (a +:+ String sep rest)).
    cbn [split]. by rewrite Hc, (IH Ha).
Qed.

Lemma repo_git_end_no_hash r :
  repo_git_end r = true → all_chars (not_char "#") r = true.
Proof.
  unfold repo_git_end. intros [H _]%andb_prop.
  by apply (all_chars_impl _ _ _ repo_char_not_hash).
Qed.

Lemma owner_repo_git_end_no_hash r :
  owner_repo_git_end r = true → all_chars (not_char "#") r = true.
Proof.
  unfold owner_repo_git_end.
  destruct (segment is_repo_char r) as [[run rest]|] eqn:Hs;
    cbn [mbind option_bind]; [|done].
  apply segment_Some in Hs as (-> & Hrun & _).
  destruct (strip_prefix "/" rest) as [r2|] eqn:H2; [|done].
  apply strip_prefix_Some in H2 as ->. intros H.
  rewrite all_chars_app, (all_chars_impl _ _ _ repo_char_not_hash Hrun).
  change ("/" +:+ r2) with (String "/" r2). cbn [all_chars andb not_char].
  by apply repo_git_end_no_hash.
Qed.

(** What [re_scp] accepts: [git@], a host, a colon, and the rest. *)
Lemma re_scp_inv s :
  re_scp s = true →
  ∃ hst r, s = "git@" +:+ hst +:+ ":" +:+ r ∧
           all_chars is_repo_char hst = true ∧ owner_repo_git_end r = true.
Proof.
  unfold re_scp.
  destruct (strip_prefix "git@" s) as [r0|] eqn:H0; cbn [mbind option_bind]; [|done].
  apply strip_prefix_Some in H0 as ->.
  destruct (segment is_repo_char r0) as [[hst rest]|] eqn:Hs;
    cbn [mbind option_bind]; [|done].
  apply segment_Some in Hs as (-> & Hh & _).
  destruct (strip_prefix ":" rest) as [r|] eqn:Hr; [|done].
  apply strip_prefix_Some in Hr as ->. intros H. by exists hst, r.
Qed.

Lemma re_scp_no_hash s : re_scp s = true → all_chars (not_char "#") s = true.
Proof.
  intros (hst & r & -> & Hh & Hr)%re_scp_inv.
  change ("git@" +:+ hst +:+ ":" +:+ r)
    with ("git@" +:+ (hst +:+ String ":" r)).
  rewrite !all_chars_app. cbn [all_chars andb not_char].
  rewrite (all_chars_impl _ _ _ repo_char_not_hash Hh).
  by rewrite (owner_repo_git_end_no_hash _ Hr).
Qed.

Lemma isGitUrl_cases s :
  isGitUrl s = true →
  includes "//" s = true ∨ re_scp s = true.
Proof.
  unfold isGitUrl, gitPatterns. cbn [existsb]. rewrite orb_false_r.
  intros H. repeat (apply orb_prop in H as [H|H]).
  - left. unfold re_http_dot_git in H.
    destruct (http_scheme s) eqn:Hh; [|done]. by eapply http_scheme_includes.
  - left. unfold re_http_host in H.
    destruct (http_scheme s) eqn:Hh; [|done]. by eapply http_scheme_includes.
  - left. unfold re_http_host in H.
    destruct (http_scheme s) eqn:Hh; [|done]. by eapply http_scheme_includes.
  - left. unfold re_http_host in H.
    destruct (http_scheme s) eqn:Hh; [|done]. by eapply http_scheme_includes.
  - by right.
  - left. unfold re_ssh in H.
    destruct (strip_prefix "ssh://git@" s) as [r|] eqn:Hp; [|done].
    apply strip_prefix_Some in Hp as ->. reflexivity.
Qed.

Lemma normalizeGitUrl_no_hash x :
  all_chars (not_char "#") (normalizeGitUrl x) = true.
Proof.
  rewrite normalizeGitUrl_unfold. cbv zeta.
  pose proof (all_chars_take_while (not_char "#") x) as Hn.
  destruct (re_hosted _); [|done].
  destruct (negb _); [|done]. by rewrite all_chars_app, Hn.
Qed.

Lemma extractBranch_no_hash s :
  all_chars (not_char "#") s = true → extractBranch s = None.
Proof. intros H. unfold extractBranch. by rewrite split_no_sep. Qed.

Lemma all_chars_substring f s : ∀ n m,
  all_chars f s = true → all_chars f (String.substring n m s) = true.
Proof.
  induction s as [|c s IH]; intros n m H.
  - by destruct n, m.
  - cbn [all_chars] in H. apply andb_prop in H as [Hc Hs].
    destruct n as [|n], m as [|m]; cbn [String.substring all_chars];
      rewrite ?Hc; cbn [andb]; try done; by apply IH.
Qed.

Lemma all_chars_filter f s : all_chars f (filter_chars f s) = true.
Proof.
  induction s as [|c s IH]; [done|]. cbn [filter_chars].
  destruct (f c) eqn:Hc; [|done]. cbn [all_chars]. by rewrite Hc.
Qed.

Lemma excludes_char x s :
  all_chars (not_char x) s = true → includes (String x "") s = false.
Proof.
  induction s as [|c s IH]; [done|].
  cbn [all_chars includes]. intros [Hc Hs]%andb_prop.
  rewrite (IH Hs), orb_false_r. unfold startsWith. cbn [strip_prefix].
  unfold not_char in Hc. apply negb_true_iff in Hc.
  rewrite Ascii.eqb_sym in Hc. by rewrite Hc.
Qed.

End ReferenceFacts.

(** X1: only references of the form [git@host:owner/repo.git] pass
    [validateGitUrl]; such a reference carries no [#branch] fragment and is
    its own normal form. *)
Theorem valid_reference_is_scp_form (gitUrl : string) :
  GitUtils.validateGitUrl gitUrl = true →
  GitUtils.re_scp gitUrl = true ∧
  Js.startsWith "git@" gitUrl = true ∧
  GitUtils.extractBranch gitUrl = None ∧
  GitUtils.normalizeGitUrl gitUrl = gitUrl.
Proof.
  unfold GitUtils.validateGitUrl.
  destruct (GitUtils.isGitUrl gitUrl) eqn:Hg; [|done]. cbn [negb].
  destruct (Js.includes ".." gitUrl); [done|]. cbn [orb].
  destruct (Js.includes "//" gitUrl) eqn:Hs; [done|]. intros _.
  destruct (ReferenceFacts.isGitUrl_cases _ Hg) as [H|Hscp]; [congruence|].
  pose proof (ReferenceFacts.re_scp_no_hash _ Hscp) as Hn.
  destruct (ReferenceFacts.re_scp_inv _ Hscp) as (hst & r & -> & _ & _).
  split; [done|]. split; [reflexivity|].
  split; [by apply ReferenceFacts.extractBranch_no_hash|].
  by apply GitUtilsFacts.normalizeGitUrl_fixed.
Qed.

Lemma valid_reference_is_scp_form_witness :
  GitUtils.re_scp "git@github.com:user/repo.git" = true ∧
  Js.startsWith "git@" "git@github.com:user/repo.git" = true ∧
  GitUtils.extractBranch "git@github.com:user/repo.git" = None ∧
  GitUtils.normalizeGitUrl "git@github.com:user/repo.git"
    = "git@github.com:user/repo.git".
Proof.
  apply (valid_reference_is_scp_form "git@github.com:user/repo.git").
  reflexivity.
Defined.

(** X2: a normalised reference has no [#]: it has no branch to extract,
    normalising it again changes nothing for the cache, so a record's
    stored [url] leads back to the key and directory of the reference it
    was made from. *)
Theorem normalized_reference_has_same_cache_key
    (md5_hex : string → string) (homedir gitUrl : string) :
  Js.includes "#" (GitUtils.normalizeGitUrl gitUrl) = false ∧
  GitUtils.extractBranch (GitUtils.normalizeGitUrl gitUrl) = None ∧
  GitUtils.generateCacheKey md5_hex (GitUtils.normalizeGitUrl gitUrl)
    = GitUtils.generateCacheKey md5_hex gitUrl ∧
  GitUtils.getCachePath md5_hex homedir (GitUtils.normalizeGitUrl gitUrl)
    = GitUtils.getCachePath md5_hex homedir gitUrl.
Proof.
  pose proof (ReferenceFacts.normalizeGitUrl_no_hash gitUrl) as Hn.
  assert (Hk : GitUtils.generateCacheKey md5_hex (GitUtils.normalizeGitUrl gitUrl)
               = GitUtils.generateCacheKey md5_hex gitUrl).
  { unfold GitUtils.generateCacheKey.
    by rewrite GitUtilsFacts.normalizeGitUrl_idempotent. }
  split; [|split; [|split]].
  - by apply ReferenceFacts.excludes_char.
  - by apply ReferenceFacts.extractBranch_no_hash.
  - done.
  - unfold GitUtils.getCachePath. by rewrite Hk.
Qed.

(** X3: [extractBranch] gives what stands between the first [#] and the
    next one (or the end), and nothing when there is no [#];
    [normalizeGitUrl] cuts the reference at the first [#] when what is
    left is not a bare hosting reference. *)
Theorem extractBranch_reads_first_fragment (base branch more : string) :
  Js.all_chars (Js.not_char "#") base = true →
  Js.all_chars (Js.not_char "#") branch = true →
  GitUtils.re_hosted base = false →
  GitUtils.extractBranch base = None ∧
  GitUtils.extractBranch (base +:+ "#" +:+ branch) = Some branch ∧
  GitUtils.extractBranch (base +:+ "#" +:+ branch +:+ "#" +:+ more)
    = Some branch ∧
  GitUtils.normalizeGitUrl (base +:+ "#" +:+ branch) = base.
Proof.
  intros Hb Hr Hh. split; [|split; [|split]].
  - by apply ReferenceFacts.extractBranch_no_hash.
  - unfold GitUtils.extractBranch.
    change ("#" +:+ branch) with (String "#" branch).
    rewrite ReferenceFacts.split_at_sep, ReferenceFacts.split_no_sep by done.
    reflexivity.
  - unfold GitUtils.extractBranch.
    change ("#" +:+ branch +:+ "#" +:+ more)
      with (String "#" (branch +:+ String "#" more)).
    rewrite !ReferenceFacts.split_at_sep by done.
    by destruct (Js.split "#" more).
  - rewrite GitUtilsFacts.normalizeGitUrl_unfold. cbv zeta.
    change ("#" +:+ branch) with (String "#" branch).
    rewrite JsFacts.take_while_stop by done. by rewrite Hh.
Qed.

Lemma extractBranch_reads_first_fragment_witness :
  GitUtils.extractBranch "git@github.com:user/repo.git" = None ∧
  GitUtils.extractBranch ("git@github.com:user/repo.git" +:+ "#" +:+ "v1.0.0")
    = Some "v1.0.0" ∧
  GitUtils.extractBranch
    ("git@github.com:user/repo.git" +:+ "#" +:+ "v1.0.0" +:+ "#" +:+ "x")
    = Some "v1.0.0" ∧
  GitUtils.normalizeGitUrl ("git@github.com:user/repo.git" +:+ "#" +:+ "v1.0.0")
    = "git@github.com:user/repo.git".
Proof.
  apply (extractBranch_reads_first_fragment
           "git@github.com:user/repo.git" "v1.0.0" "x"); reflexivity.
Defined.

Module ParseFacts.
Import Js JsFacts GitUtils GitUtilsFacts ReferenceFacts.

Lemma host_owner_name_format (sep : ascii) hst own nam :
  is_repo_char sep = false →
  is_empty hst = false → all_chars is_repo_char hst = true →
  is_empty own = false → all_chars is_repo_char own = true →
  is_empty nam = false → all_chars is_repo_char nam = true →
  host_owner_name (String sep "")
    (hst +:+ String sep (own +:+ String "/" (nam +:+ ".git")))
  = Some (RepoInfo hst own nam (own +:+ "/" +:+ nam)).
Proof.
  intros Hsep Hh1 Hh2 Ho1 Ho2 Hn1 Hn2. unfold host_owner_name.
  rewrite segment_stop by done. cbn [mbind option_bind].
  change (String sep (own +:+ String "/" (nam +:+ ".git")))
    with (String sep "" +:+ (own +:+ String "/" (nam +:+ ".git"))).
  rewrite strip_prefix_app. cbn [mbind option_bind].
  rewrite segment_stop by done. cbn [mbind option_bind].
  change (String "/" (nam +:+ ".git")) with ("/" +:+ (nam +:+ ".git")).
  rewrite strip_prefix_app. cbn [mbind option_bind].
  rewrite strip_suffix_app. cbn [mbind option_bind].
  by rewrite all_chars_app, Hn2, Hn1.
Qed.

End ParseFacts.

(** X4: [parseGitUrl] reads back the host, owner and name from which an
    [https://host/owner/name.git] or a [git@host:owner/name.git] reference
    is made, whatever the host. *)
Theorem parseGitUrl_reads_back (hst own nam : string) :
  Js.is_empty hst = false → Js.all_chars GitUtils.is_repo_char hst = true →
  Js.is_empty own = false → Js.all_chars GitUtils.is_repo_char own = true →
  Js.is_empty nam = false → Js.all_chars GitUtils.is_repo_char nam = true →
  GitUtils.parseGitUrl
    ("https://" +:+ hst +:+ String "/" (own +:+ String "/" (nam +:+ ".git")))
    = GitUtils.RepoInfo hst own nam (own +:+ "/" +:+ nam) ∧
  GitUtils.parseGitUrl
    ("git@" +:+ hst +:+ String ":" (own +:+ String "/" (nam +:+ ".git")))
    = GitUtils.RepoInfo hst own nam (own +:+ "/" +:+ nam).
Proof.
  intros Hh1 Hh2 Ho1 Ho2 Hn1 Hn2.
  pose proof (JsFacts.all_chars_impl _ _ _ GitUtilsFacts.repo_char_not_hash Hh2) as Hh3.
  pose proof (JsFacts.all_chars_impl _ _ _ GitUtilsFacts.repo_char_not_hash Ho2) as Ho3.
  pose proof (JsFacts.all_chars_impl _ _ _ GitUtilsFacts.repo_char_not_hash Hn2) as Hn3.
  assert (Hrest : ∀ sep : ascii, Js.not_char "#" sep = true →
    Js.all_chars (Js.not_char "#")
      (hst +:+ String sep (own +:+ String "/" (nam +:+ ".git"))) = true).
  { intros sep Hsep. rewrite JsFacts.all_chars_app, Hh3.
    cbn [Js.all_chars andb]. rewrite Hsep.
    rewrite JsFacts.all_chars_app, Ho3. cbn [Js.all_chars andb].
    by rewrite JsFacts.all_chars_app, Hn3. }
  assert (Hends : ∀ pre (sep : ascii),
    Js.endsWith ".git"
      (pre +:+ hst +:+ String sep (own +:+ String "/" (nam +:+ ".git"))) = true).
  { intros pre sep.
    replace (pre +:+ hst +:+ String sep (own +:+ String "/" (nam +:+ ".git")))
      with ((pre +:+ hst +:+ String sep (own +:+ String "/" nam)) +:+ ".git").
    - apply JsFacts.endsWith_app.
    - by repeat (rewrite ?JsFacts.append_assoc; cbn [String.append]). }
  split.
  - unfold GitUtils.parseGitUrl.
    rewrite GitUtilsFacts.normalizeGitUrl_fixed.
    + change (GitUtils.http_scheme ("https://" +:+ ?r)) with (Some r).
      cbn [mbind option_bind].
      by rewrite (ParseFacts.host_owner_name_format "/").
    + rewrite JsFacts.all_chars_app. by rewrite Hrest.
    + intros _. apply Hends.
  - unfold GitUtils.parseGitUrl.
    rewrite GitUtilsFacts.normalizeGitUrl_fixed.
    + change (GitUtils.http_scheme ("git@" +:+ ?r)) with (@None string).
      cbn [mbind option_bind]. rewrite JsFacts.strip_prefix_app.
      cbn [mbind option_bind].
      by rewrite (ParseFacts.host_owner_name_format ":").
    + rewrite JsFacts.all_chars_app. by rewrite Hrest.
    + intros _. apply Hends.
Qed.

Lemma parseGitUrl_reads_back_witness :
  GitUtils.parseGitUrl
    ("https://" +:+ "example.com"
     +:+ String "/" ("user" +:+ String "/" ("my-repo" +:+ ".git")))
    = GitUtils.RepoInfo "example.com" "user" "my-repo" ("user" +:+ "/" +:+ "my-repo") ∧
  GitUtils.parseGitUrl
    ("git@" +:+ "example.com"
     +:+ String ":" ("user" +:+ String "/" ("my-repo" +:+ ".git")))
    = GitUtils.RepoInfo "example.com" "user" "my-repo" ("user" +:+ "/" +:+ "my-repo").
Proof.
  apply (parseGitUrl_reads_back "example.com" "user" "my-repo"); reflexivity.
Defined.

(** X5: a reference of the [ssh://git@host/owner/repo.git] form is taken
    for a git reference by [isGitUrl], but [parseGitUrl] has no expression
    for it: it answers with the [unknown] record. *)
Theorem parseGitUrl_does_not_know_ssh_scheme (gitUrl : string) :
  GitUtils.re_ssh gitUrl = true →
  GitUtils.isGitUrl gitUrl = true ∧
  GitUtils.parseGitUrl gitUrl
    = GitUtils.RepoInfo "unknown" "unknown" "unknown" "unknown/unknown".
Proof.
  intros Hssh. split.
  - unfold GitUtils.isGitUrl, GitUtils.gitPatterns. cbn [existsb].
    rewrite Hssh. by rewrite !orb_true_r.
  - unfold GitUtils.re_ssh in Hssh.
    destruct (Js.strip_prefix "ssh://git@" gitUrl) as [r|] eqn:Hp; [|done].
    apply JsFacts.strip_prefix_Some in Hp as ->. clear Hssh.
    unfold GitUtils.parseGitUrl.
    rewrite GitUtilsFacts.normalizeGitUrl_unfold. cbv zeta.
    change (Js.take_while (Js.not_char "#") ("ssh://git@" +:+ r))
      with ("ssh://git@" +:+ Js.take_while (Js.not_char "#") r).
    by change (GitUtils.re_hosted ("ssh://git@" +:+ ?x)) with false.
Qed.

Lemma parseGitUrl_does_not_know_ssh_scheme_witness :
  GitUtils.isGitUrl "ssh://git@example.com/user/repo.git" = true ∧
  GitUtils.parseGitUrl "ssh://git@example.com/user/repo.git"
    = GitUtils.RepoInfo "unknown" "unknown" "unknown" "unknown/unknown".
Proof.
  apply (parseGitUrl_does_not_know_ssh_scheme
           "ssh://git@example.com/user/repo.git"); reflexivity.
Defined.

(** X6: the readable part of a cache key is made of letters, digits and
    hyphens only, and so is the whole key when the digest is: the key is
    one path segment, with no [/] and no [.]. *)
Theorem cache_key_is_one_safe_segment
    (md5_hex : string → string) (gitUrl : string) :
  Js.all_chars GitUtils.is_key_char (md5_hex (GitUtils.normalizeGitUrl gitUrl))
    = true →
  Js.all_chars GitUtils.is_key_char
    (GitUtils.readable (GitUtils.normalizeGitUrl gitUrl)) = true ∧
  Js.all_chars GitUtils.is_key_char (GitUtils.generateCacheKey md5_hex gitUrl)
    = true ∧
  Js.includes "/" (GitUtils.generateCacheKey md5_hex gitUrl) = false ∧
  Js.includes "." (GitUtils.generateCacheKey md5_hex gitUrl) = false.
Proof.
  intros Hmd5.
  assert (Hr : ∀ n, Js.all_chars GitUtils.is_key_char (GitUtils.readable n) = true)
    by (intros n; apply ReferenceFacts.all_chars_filter).
  assert (Hk : Js.all_chars GitUtils.is_key_char
                 (GitUtils.generateCacheKey md5_hex gitUrl) = true).
  { unfold GitUtils.generateCacheKey. cbv zeta.
    rewrite !JsFacts.all_chars_app, Hr. cbn [Js.all_chars andb].
    unfold Js.take. by rewrite ReferenceFacts.all_chars_substring. }
  split; [apply Hr|]. split; [exact Hk|].
  split; apply ReferenceFacts.excludes_char;
    (eapply JsFacts.all_chars_impl; [|exact Hk]);
    intros c; destruct c as [[] [] [] [] [] [] [] []]; vm_compute; congruence.
Qed.

Lemma cache_key_is_one_safe_segment_witness :
  Js.all_chars GitUtils.is_key_char
    (GitUtils.generateCacheKey (Sys.md5_hex Scenario.env_run1)
       "git@github.com:user/repo.git") = true ∧
  GitUtils.generateCacheKey (Sys.md5_hex Scenario.env_run1)
    "git@github.com:user/repo.git" = "githubcom-user-repo-0a1b2c3d".
Proof.
  split; [|reflexivity].
  apply (cache_key_is_one_safe_segment (Sys.md5_hex Scenario.env_run1)
           "git@github.com:user/repo.git"). reflexivity.
Defined.

(** ** The cache, continued *)

Module CacheStoreFacts.
Import Js JsFacts Sys.

Lemma lookup_remove (f : files) p q :
  remove f p !! q = if under p q then None else f !! q.
Proof.
  unfold remove. destruct (under p q) eqn:Hu.
  - apply map_lookup_filter_None. right. intros x _ H. cbn in H. congruence.
  - destruct (f !! q) as [x|] eqn:Hq.
    + by apply map_lookup_filter_Some.
    + apply map_lookup_filter_None. by left.
Qed.

Lemma under_refl p : under p p = true.
Proof. unfold under. by rewrite String.eqb_refl. Qed.

Lemma pathExists_remove (f : files) p : pathExists (remove f p) p = false.
Proof.
  unfold pathExists. apply bool_decide_eq_false.
  rewrite lookup_remove, under_refl. by intros [? ?].
Qed.

Lemma remove_lookup_Some (f : files) p q x :
  remove f p !! q = Some x → f !! q = Some x.
Proof. rewrite lookup_remove. by destruct (under p q). Qed.

Section WithEnv.
Variable E : env.

Lemma getCacheInfo_eq gitUrl w :
  CacheManager.getCacheInfo E gitUrl w
  = (Ok match default ∅ (index_doc w) !! CacheManager.cacheKeyOf E gitUrl with
        | Some entry =>
            if pathExists (fs w) (CacheManager.cachePathOf E gitUrl)
            then Some (entry, CacheManager.cachePathOf E gitUrl) else None
        | None => None
        end, w).
Proof.
  unfold CacheManager.getCacheInfo, CacheManager.loadCacheIndex, get_fs, bind.
  cbn [id]. destruct (default ∅ (index_doc w) !! _); [|done].
  by destruct (pathExists _ _).
Qed.

Lemma isCacheStale_eq gitUrl maxAgeDays w :
  CacheManager.isCacheStale E gitUrl maxAgeDays w
  = (Ok match (CacheManager.getCacheInfo E gitUrl w).1 with
        | Ok (Some (entry, _)) =>
            (maxAgeDays * CacheManager.ms_per_day <? now w - lastUpdated entry)%Z
        | _ => true
        end, w).
Proof.
  unfold CacheManager.isCacheStale, bind. rewrite getCacheInfo_eq.
  cbn [fst]. destruct (default ∅ (index_doc w) !! _); [|done].
  by destruct (pathExists _ _).
Qed.

Lemma updateCacheEntry_eq gitUrl cloned w :
  CacheManager.updateCacheEntry E gitUrl cloned w
  = (Ok tt,
     World (fs w)
       (Some (<[CacheManager.cacheKeyOf E gitUrl :=
                  CacheEntry (GitUtils.normalizeGitUrl gitUrl)
                    (GitUtils.extractBranch gitUrl) (now w)
                    (GitUtils.host (GitUtils.parseGitUrl gitUrl))
                    (GitUtils.owner (GitUtils.parseGitUrl gitUrl))
                    (GitUtils.name (GitUtils.parseGitUrl gitUrl)) cloned]>
                (default ∅ (index_doc w))))
       (now w) (uuids w) (log w ++ [EWriteJson (CacheManager.cacheIndexFile E)])).
Proof. reflexivity. Qed.

Lemma removeCacheEntry_eq gitUrl w :
  let path := CacheManager.cachePathOf E gitUrl in
  let index := delete (CacheManager.cacheKeyOf E gitUrl) (default ∅ (index_doc w)) in
  CacheManager.removeCacheEntry E gitUrl w
  = (Ok tt,
     if pathExists (fs w) path
     then World (remove (fs w) path) (Some index) (now w) (uuids w)
            (log w ++ [EWriteJson (CacheManager.cacheIndexFile E)]
                   ++ [ERemove path])
     else World (fs w) (Some index) (now w) (uuids w)
            (log w ++ [EWriteJson (CacheManager.cacheIndexFile E)])).
Proof.
  cbv zeta.
  unfold CacheManager.removeCacheEntry, CacheManager.loadCacheIndex,
    CacheManager.saveCacheIndex, get_fs, bind.
  cbn [fs index_doc now uuids log id].
  destruct (pathExists (fs w) _); [|done].
  cbn. by rewrite <- app_assoc.
Qed.
End WithEnv.

End CacheStoreFacts.



(** X8: where the index file can be written (the cache root is a
    directory and the index file is not one), after [removeCacheEntry] the
    reference is not cached any more: its record and its directory are
    gone, [getCacheInfo] finds nothing and [isCacheStale] says yes.  The
    other records of the index and the files outside the directory stay as
    they were. *)
Theorem removeCacheEntry_forgets_the_reference
    (E : Sys.env) (gitUrl : string) (maxAgeDays : Z) (w : Sys.world) :
  CacheManager.writable E w = true →
  let w' := (CacheManager.removeCacheEntry E gitUrl w).2 in
  (CacheManager.removeCacheEntry E gitUrl w).1 = Sys.Ok tt ∧
  Sys.index_doc w'
    = Some (delete (CacheManager.cacheKeyOf E gitUrl)
                   (default ∅ (Sys.index_doc w))) ∧
  Sys.pathExists (Sys.fs w') (CacheManager.cachePathOf E gitUrl) = false ∧
  (CacheManager.getCacheInfo E gitUrl w').1 = Sys.Ok None ∧
  (CacheManager.isCacheStale E gitUrl maxAgeDays w').1 = Sys.Ok true ∧
  (∀ p, Sys.under (CacheManager.cachePathOf E gitUrl) p = false →
        Sys.fs w' !! p = Sys.fs w !! p).
Proof.
  intros _ w'. unfold w'. clear w'.
  pose proof (CacheStoreFacts.removeCacheEntry_eq E gitUrl w) as Hrm.
  cbv zeta in Hrm. rewrite Hrm. clear Hrm. cbn [fst snd].
  rewrite CacheStoreFacts.isCacheStale_eq, CacheStoreFacts.getCacheInfo_eq.
  destruct (Sys.pathExists (Sys.fs w) (CacheManager.cachePathOf E gitUrl))
    eqn:Hdir; cbn [fst Sys.fs Sys.index_doc from_option id];
    rewrite lookup_delete_eq; repeat split.
  - apply CacheStoreFacts.pathExists_remove.
  - intros p Hp. by rewrite CacheStoreFacts.lookup_remove, Hp.
  - done.
Qed.

Lemma removeCacheEntry_forgets_the_reference_witness :
  let E := Scenario.env_run1 in
  let w := Scenario.cached_world E Scenario.cached_url in
  let w' := (CacheManager.removeCacheEntry E Scenario.cached_url w).2 in
  (CacheManager.getCacheInfo E Scenario.cached_url w).1
    = Sys.Ok (Some (Sys.CacheEntry Scenario.cached_url None 0
                      "github.com" "user" "repo" (Some 0%Z),
                    CacheManager.cachePathOf E Scenario.cached_url)) ∧
  Sys.index_doc w' = Some ∅ ∧
  (CacheManager.getCacheInfo E Scenario.cached_url w').1 = Sys.Ok None.
Proof.
  cbv zeta.
  destruct (removeCacheEntry_forgets_the_reference Scenario.env_run1
              Scenario.cached_url 7
              (Scenario.cached_world Scenario.env_run1 Scenario.cached_url))
    as (_ & Hdoc & _ & Hinfo & _); [vm_compute; reflexivity|].
  split; [vm_compute; reflexivity|]. split; [|exact Hinfo].
  rewrite Hdoc. vm_compute. reflexivity.
Defined.

Module OrphanFacts.
Import Js JsFacts Sys CacheStoreFacts.


Lemma join_inj p n m : join p n = join p m → n = m.
Proof.
  unfold join. intros H. apply (inj (String.app p)) in H.
  by apply (inj (String.app "/")) in H.
Qed.



(** What lies at or below a path. *)
Lemma under_inv p q :
  under p q = true → q = p ∨ ∃ r, q = p +:+ "/" +:+ r.
Proof.
  unfold under. intros [H|H]%orb_prop.
  - left. by apply String.eqb_eq.
  - right. unfold startsWith in H.
    destruct (strip_prefix (p +:+ "/") q) as [r|] eqn:Hr; [|done].
    apply strip_prefix_Some in Hr as ->. exists r. by rewrite append_assoc.
Qed.

Lemma includes_slash_app n r : includes "/" (n +:+ "/" +:+ r) = true.
Proof.
  apply includes_app_l. change ("/" +:+ r) with (String "/" r).
  destruct r; reflexivity.
Qed.




Section WithEnv.
Variable E : env.

Let root := CacheManager.mainCachePath E.

End WithEnv.

End OrphanFacts.



Module EnsureDirFacts.
Import Js JsFacts Sys CacheStoreFacts.

Lemma dir_chain_prefix s : ∀ pre q,
  q ∈ dir_chain pre s → ∃ a b, s = a +:+ b ∧ q = pre +:+ a.
Proof.
  induction s as [|c s IH]; intros pre q; cbn [dir_chain].
  - destruct (is_empty pre); [by intros ?%elem_of_nil|].
    intros ->%list_elem_of_singleton. exists "", "". split; [done|by rewrite append_nil_r].
  - intros [Hq|Hq]%elem_of_app.
    + destruct (Ascii.eqb c "/" && negb (is_empty pre));
        [|by apply elem_of_nil in Hq].
      apply list_elem_of_singleton in Hq as ->.
      exists "", (String c s). split; [done|by rewrite append_nil_r].
    + apply IH in Hq as (a & b & -> & ->). exists (String c a), b.
      split; [done|]. by rewrite append_assoc.
Qed.

Lemma dir_chain_last s : ∀ pre,
  is_empty (pre +:+ s) = false → pre +:+ s ∈ dir_chain pre s.
Proof.
  induction s as [|c s IH]; intros pre; cbn [dir_chain].
  - rewrite append_nil_r. intros ->. by apply list_elem_of_singleton.
  - intros _. apply elem_of_app. right.
    replace (pre +:+ String c s) with ((pre +:+ String c "") +:+ s)
      by (by rewrite append_assoc).
    apply IH. rewrite append_assoc. by destruct pre.
Qed.

Lemma ensureDir_lookup_inv (f : files) d q x :
  ensureDir f d !! q = Some x →
  f !! q = Some x ∨ (x = Dir ∧ q ∈ dir_chain "" d).
Proof.
  unfold ensureDir. induction (dir_chain "" d) as [|a l IH]; cbn [foldr].
  - by left.
  - destruct (foldr _ f l !! a) eqn:Ha.
    + intros [?|[? ?]]%IH; [by left|right]. split; [done|by right].
    + destruct (decide (a = q)) as [->|Hne].
      * rewrite lookup_insert_eq. intros [= <-]. right. split; [done|by left].
      * rewrite lookup_insert_ne by done.
        intros [?|[? ?]]%IH; [by left|right]. split; [done|by right].
Qed.

Lemma ensureDir_creates (f : files) d q :
  q ∈ dir_chain "" d → is_Some (ensureDir f d !! q).
Proof.
  unfold ensureDir. induction (dir_chain "" d) as [|a l IH]; cbn [foldr].
  - by intros ?%elem_of_nil.
  - intros [->|Hq]%elem_of_cons.
    + destruct (foldr _ f l !! a) eqn:Ha; [by rewrite Ha|].
      by rewrite lookup_insert_eq.
    + destruct (foldr _ f l !! a) eqn:Ha; [by apply IH|].
      destruct (decide (a = q)) as [->|Hne];
        [by rewrite lookup_insert_eq|].
      rewrite lookup_insert_ne by done. by apply IH.
Qed.

(** [ensureDir] of a path that is not there makes it a directory. *)
Lemma ensureDir_makes_dir (f : files) d :
  is_empty d = false → f !! d = None → ensureDir f d !! d = Some Dir.
Proof.
  intros Hd Hf.
  destruct (ensureDir_creates f d d) as [x Hx].
  { by apply (dir_chain_last d ""). }
  apply ensureDir_lookup_inv in Hx as Hx'.
  destruct Hx' as [?|[-> _]]; [congruence|done].
Qed.

(** What lies strictly below a path is longer than the path, hence none
    of the directories on the way to it. *)
Lemma below_not_on_the_way d q :
  under d q = true → q ≠ d → q ∉ dir_chain "" d.
Proof.
  intros [->|[r ->]]%OrphanFacts.under_inv Hne; [done|].
  intros (a & b & -> & Heq)%dir_chain_prefix. cbn [String.append] in Heq.
  apply (f_equal String.length) in Heq. rewrite !length_app in Heq.
  cbn [String.length] in Heq. lia.
Qed.
End EnsureDirFacts.

(** X10: [clearAllCache], run where the cache root exists, leaves an empty
    cache: the root is a directory with nothing below it, the index is the
    empty one, so that no reference is cached and the listing is empty; what
    lies outside the cache root stays. *)
Theorem clearAllCache_leaves_an_empty_cache (E : Sys.env) (w : Sys.world) :
  let root := CacheManager.mainCachePath E in
  Sys.pathExists (Sys.fs w) root = true →
  ∃ w',
    CacheMaintenance.clearAllCache E w = (Sys.Ok tt, w') ∧
    Sys.fs w' !! root = Some Sys.Dir ∧
    (∀ q, Sys.under root q = true → q ≠ root → Sys.fs w' !! q = None) ∧
    (∀ q x, Sys.under root q = false → Sys.fs w !! q = Some x →
            Sys.fs w' !! q = Some x) ∧
    Sys.index_doc w' = Some ∅ ∧
    (∀ gitUrl, CacheManager.getCacheInfo E gitUrl w' = (Sys.Ok None, w')) ∧
    CacheMaintenance.listCachedRepositories E w' = (Sys.Ok [], w').
Proof.
  intros root Hroot.
  unfold CacheMaintenance.clearAllCache, CacheManager.initializeCache,
    CacheManager.indexFileExists, CacheManager.saveCacheIndex.
  unfold Sys.bind, Sys.get_fs, Sys.emit, Sys.modify_fs. fold root.
  rewrite Hroot. cbn [Sys.fs Sys.index_doc Sys.now Sys.uuids Sys.log].
  rewrite bool_decide_eq_false_2 by (by intros [? ?]). cbn [negb].
  cbn [Sys.fs Sys.index_doc Sys.now Sys.uuids Sys.log].
  eexists. split; [reflexivity|]. cbn [Sys.fs Sys.index_doc].
  assert (Hnonempty : Js.is_empty root = false).
  { unfold root, CacheManager.mainCachePath, GitUtils.getMainCachePath.
    by destruct (Sys.homedir E). }
  split; [|split; [|split; [|split; [|split]]]].
  - apply EnsureDirFacts.ensureDir_makes_dir; [done|].
    by rewrite CacheStoreFacts.lookup_remove, CacheStoreFacts.under_refl.
  - intros q Hu Hne.
    destruct (Sys.ensureDir _ root !! q) as [x|] eqn:Hq; [|done].
    apply EnsureDirFacts.ensureDir_lookup_inv in Hq as [Hq|[_ Hq]].
    + by rewrite CacheStoreFacts.lookup_remove, Hu in Hq.
    + by apply EnsureDirFacts.below_not_on_the_way in Hq.
  - intros q x Hu Hq. apply CacheFacts.ensureDir_lookup_Some.
    by rewrite CacheStoreFacts.lookup_remove, Hu.
  - done.
  - intros gitUrl. unfold CacheManager.getCacheInfo, CacheManager.loadCacheIndex.
    unfold Sys.bind, Sys.get_fs. cbn [Sys.index_doc from_option id].
    by rewrite lookup_empty.
  - unfold CacheMaintenance.listCachedRepositories, CacheManager.loadCacheIndex.
    unfold Sys.bind, Sys.get_fs. cbn [Sys.index_doc from_option id].
    by rewrite map_to_list_empty.
Qed.

Lemma clearAllCache_leaves_an_empty_cache_witness :
  let E := Scenario.env_run1 in
  let w := Scenario.cached_world E Scenario.cached_url in
  let root := CacheManager.mainCachePath E in
  ∃ w',
    CacheMaintenance.clearAllCache E w = (Sys.Ok tt, w') ∧
    Sys.fs w' !! root = Some Sys.Dir ∧
    (∀ q, Sys.under root q = true → q ≠ root → Sys.fs w' !! q = None) ∧
    (∀ q x, Sys.under root q = false → Sys.fs w !! q = Some x →
            Sys.fs w' !! q = Some x) ∧
    Sys.index_doc w' = Some ∅ ∧
    (∀ gitUrl, CacheManager.getCacheInfo E gitUrl w' = (Sys.Ok None, w')) ∧
    CacheMaintenance.listCachedRepositories E w' = (Sys.Ok [], w').
Proof.
  apply (clearAllCache_leaves_an_empty_cache
           Scenario.env_run1
           (Scenario.cached_world Scenario.env_run1 Scenario.cached_url)).
  vm_compute. reflexivity.
Defined.

Module StaleFacts.
Import Js JsFacts Sys CacheStoreFacts.

Section WithEnv.
Variable E : env.
Variable maxAgeDays : Z.

Let root := CacheManager.mainCachePath E.

(** The test of the loop of [cleanupStaleEntries] at time [t]. *)
Let bad (t : Z) (en : CacheMaintenance.listed) : bool :=
  (maxAgeDays * CacheManager.ms_per_day
     <? t - lastUpdated (CacheMaintenance.l_info en))%Z
  || negb (CacheMaintenance.l_exists en).

Lemma cleanup_entries_spec (l : list CacheMaintenance.listed) : ∀ count w,
  (∀ en, en ∈ l →
     CacheManager.cacheKeyOf E (url (CacheMaintenance.l_info en))
       = CacheMaintenance.l_key en ∧
     CacheMaintenance.l_path en = join root (CacheMaintenance.l_key en)) →
  ∃ w',
    PQS.fold_M l (CacheMaintenance.cleanup_entry E maxAgeDays) count w
      = (Ok (count + length (filter (λ en, bad (now w) en = true) l)), w') ∧
    now w' = now w ∧
    (∀ k, default ∅ (index_doc w') !! k
          = if existsb (λ en, bad (now w) en
                              && String.eqb (CacheMaintenance.l_key en) k) l
            then None else default ∅ (index_doc w) !! k) ∧
    (∀ q x, fs w' !! q = Some x → fs w !! q = Some x) ∧
    (∀ en, en ∈ l → bad (now w) en = true →
           fs w' !! CacheMaintenance.l_path en = None).
Proof.
  induction l as [|en l IH]; intros count w Hkeys.
  - exists w. cbn. rewrite Nat.add_0_r. repeat split; try done.
    intros en Hen. by apply elem_of_nil in Hen.
  - destruct (Hkeys en) as [Hkey Hpath]; [by left|].
    assert (Hl : ∀ en', en' ∈ l →
       CacheManager.cacheKeyOf E (url (CacheMaintenance.l_info en'))
         = CacheMaintenance.l_key en' ∧
       CacheMaintenance.l_path en' = join root (CacheMaintenance.l_key en'))
      by (intros en' Hen'; apply Hkeys; by right).
    cbn [PQS.fold_M existsb]. unfold bind at 1.
    unfold CacheMaintenance.cleanup_entry at 1. unfold bind at 1, get_now.
    fold (bad (now w) en). rewrite filter_cons.
    destruct (bad (now w) en) eqn:Hbad.
    + unfold bind. rewrite removeCacheEntry_eq. cbn [ret].
      rewrite Hkey.
      replace (CacheManager.cachePathOf E (url (CacheMaintenance.l_info en)))
        with (CacheMaintenance.l_path en)
        by (rewrite Hpath, <- Hkey; reflexivity).
      set (w1 := if pathExists (fs w) (CacheMaintenance.l_path en)
                 then World _ _ _ _ _ else World _ _ _ _ _).
      assert (Hnow : now w1 = now w) by (unfold w1; by destruct (pathExists _ _)).
      assert (Hidx : default ∅ (index_doc w1)
                     = delete (CacheMaintenance.l_key en) (default ∅ (index_doc w)))
        by (unfold w1; by destruct (pathExists _ _)).
      assert (Hmono1 : ∀ q x, fs w1 !! q = Some x → fs w !! q = Some x).
      { unfold w1. destruct (pathExists _ _); cbn [fs]; [|done].
        intros q x. apply remove_lookup_Some. }
      assert (Hgone : fs w1 !! CacheMaintenance.l_path en = None).
      { unfold w1. destruct (pathExists _ _) eqn:Hp; cbn [fs].
        - by rewrite lookup_remove, under_refl.
        - unfold pathExists in Hp. apply bool_decide_eq_false in Hp.
          by apply eq_None_not_Some. }
      destruct (IH (S count) w1 Hl) as (w' & Hrun & Hn & Hi & Hmono & Hpost).
      rewrite Hnow in *.
      exists w'. split; [|split; [congruence|split; [|split]]].
      * rewrite Hrun. rewrite decide_True by done. cbn [length].
        by rewrite Nat.add_succ_r.
      * intros k. rewrite Hi, Hidx. cbn [andb].
        destruct (String.eqb_spec (CacheMaintenance.l_key en) k) as [->|Hne].
        -- cbn [orb]. rewrite lookup_delete_eq. by destruct (existsb _ l).
        -- cbn [orb]. by rewrite lookup_delete_ne.
      * intros q x Hq. by apply Hmono1, Hmono.
      * intros en' [->|Hen']%elem_of_cons Hb; [|by apply Hpost].
        destruct (fs w' !! _) as [x|] eqn:Hx; [|done].
        apply Hmono in Hx. congruence.
    + cbn [ret].
      destruct (IH count w Hl) as (w' & Hrun & Hn & Hi & Hmono & Hpost).
      exists w'. split; [|split; [done|split; [|split]]].
      * rewrite Hrun. by rewrite decide_False by done.
      * intros k. by rewrite Hi.
      * done.
      * intros en' [->|Hen']%elem_of_cons Hb; [congruence|by apply Hpost].
Qed.
End WithEnv.

(** Records that pass and records that fail a test make up the index. *)
Lemma size_filter_split {A} (P : string * A → bool) (m : gmap string A) :
  length (filter (λ kv, P kv = false) (map_to_list m))
  + size (filter (λ kv, P kv = true) m) = size m.
Proof.
  induction m as [|k x m Hk Hfirst IH] using map_first_key_ind.
  - rewrite map_filter_empty, map_to_list_empty, map_size_empty. reflexivity.
  - rewrite map_to_list_insert_first_key by done. rewrite filter_cons.
    rewrite map_size_insert_None by done. cbn [fst snd].
    destruct (P (k, x)) eqn:HP.
    + rewrite decide_False by done.
      rewrite map_filter_insert_True by done.
      rewrite map_size_insert_None; [lia|].
      apply map_lookup_filter_None. by left.
    + rewrite decide_True by done.
      rewrite map_filter_insert_not' ; [| cbn; congruence | by intros ? ?; congruence].
      cbn [length]. lia.
Qed.

End StaleFacts.

Module StaleListFacts.
Import Js JsFacts Sys.

Lemma length_filter_map {A B} (g : A → B) (P : B → bool) (l : list A) :
  length (filter (λ b, P b = true) (map g l))
  = length (filter (λ a, P (g a) = true) l).
Proof.
  induction l as [|a l IH]; [done|]. cbn [map]. rewrite !filter_cons.
  destruct (P (g a)) eqn:HP.
  - rewrite !decide_True by done. cbn [length]. by rewrite IH.
  - rewrite !decide_False by congruence. done.
Qed.

Lemma existsb_map {A B} (g : A → B) (P : B → bool) (l : list A) :
  existsb P (map g l) = existsb (λ a, P (g a)) l.
Proof. induction l as [|a l IH]; [done|]. cbn. by rewrite IH. Qed.

Lemma existsb_key {A} (P : string * A → bool) (m : gmap string A) k :
  existsb (λ kv, P kv && String.eqb kv.1 k) (map_to_list m)
  = match m !! k with Some e => P (k, e) | None => false end.
Proof.
  apply eq_true_iff_eq. rewrite existsb_exists. split.
  - intros ([k' e] & Hin & [HP Heq]%andb_prop).
    cbn [fst] in Heq. apply String.eqb_eq in Heq as ->.
    apply list_elem_of_In, elem_of_map_to_list in Hin. by rewrite Hin.
  - destruct (m !! k) as [e|] eqn:Hk; [|done]. intros HP.
    exists (k, e). split.
    + by apply list_elem_of_In, elem_of_map_to_list.
    + cbn. by rewrite HP, String.eqb_refl.
Qed.
End StaleListFacts.

(** X11: [cleanupStaleEntries] removes by the reference a record holds.
    On an index whose records are filed under the key of their own
    reference it returns a count and keeps exactly the records that are
    not older than [maxAgeDays] and whose directory exists; the count is
    the number of records taken out, the directory of each of them is gone,
    and nothing is created. *)
Theorem cleanupStaleEntries_keeps_fresh_existing
    (E : Sys.env) (maxAgeDays : Z) (w : Sys.world) :
  let root := CacheManager.mainCachePath E in
  let index := default ∅ (Sys.index_doc w) in
  let keep (kv : string * Sys.cache_entry) : bool :=
    negb (maxAgeDays * CacheManager.ms_per_day
            <? Sys.now w - Sys.lastUpdated kv.2)%Z
    && Sys.pathExists (Sys.fs w) (Sys.join root kv.1) in
  (∀ k e, index !! k = Some e → CacheManager.cacheKeyOf E (Sys.url e) = k) →
  ∃ count w',
    CacheMaintenance.cleanupStaleEntries E maxAgeDays w = (Sys.Ok count, w') ∧
    default ∅ (Sys.index_doc w') = filter (λ kv, keep kv = true) index ∧
    count + size (default ∅ (Sys.index_doc w')) = size index ∧
    (∀ q x, Sys.fs w' !! q = Some x → Sys.fs w !! q = Some x) ∧
    (∀ k e, index !! k = Some e → keep (k, e) = false →
            Sys.fs w' !! Sys.join root k = None).
Proof.
  intros root index keep Hkeys.
  unfold CacheMaintenance.cleanupStaleEntries,
    CacheMaintenance.listCachedRepositories, CacheManager.loadCacheIndex.
  unfold Sys.bind, Sys.get_fs. cbn [Sys.ret]. fold root index.
  set (mk := λ kv : string * Sys.cache_entry,
               CacheMaintenance.Listed kv.1 kv.2 (Sys.join root kv.1)
                 (Sys.pathExists (Sys.fs w) (Sys.join root kv.1))).
  destruct (StaleFacts.cleanup_entries_spec E maxAgeDays
              (map mk (map_to_list index)) O w)
    as (w' & Hrun & Hnow & Hidx & Hmono & Hgone).
  { intros en (kv & -> & Hin)%list_elem_of_fmap. destruct kv as [k e].
    apply elem_of_map_to_list in Hin. cbn. split; [by apply Hkeys|done]. }
  assert (Hbad : ∀ kv,
    (maxAgeDays * CacheManager.ms_per_day
       <? Sys.now w - Sys.lastUpdated (CacheMaintenance.l_info (mk kv)))%Z
    || negb (CacheMaintenance.l_exists (mk kv)) = negb (keep kv)).
  { intros kv. unfold keep, mk. cbn. by rewrite negb_andb, negb_involutive. }
  assert (Hmap : default ∅ (Sys.index_doc w')
                 = filter (λ kv, keep kv = true) index).
  { apply map_eq. intros k. rewrite Hidx.
    rewrite StaleListFacts.existsb_map.
    change (existsb _ (map_to_list index)) with
      (existsb (λ kv, ((maxAgeDays * CacheManager.ms_per_day
                  <? Sys.now w - Sys.lastUpdated (CacheMaintenance.l_info (mk kv)))%Z
                 || negb (CacheMaintenance.l_exists (mk kv)))
                 && String.eqb kv.1 k) (map_to_list index)).
    rewrite (StaleListFacts.existsb_key
               (λ kv, (maxAgeDays * CacheManager.ms_per_day
                  <? Sys.now w - Sys.lastUpdated (CacheMaintenance.l_info (mk kv)))%Z
                 || negb (CacheMaintenance.l_exists (mk kv))) index k).
    change (default ∅ (Sys.index_doc w)) with index.
    destruct (index !! k) as [e|] eqn:Hk.
    - rewrite Hbad. destruct (keep (k, e)) eqn:Hkeep; cbn [negb]; symmetry.
      + by apply map_lookup_filter_Some.
      + apply map_lookup_filter_None. right. intros e' He'.
        assert (e' = e) as -> by congruence. congruence.
    - symmetry. apply map_lookup_filter_None. by left. }
  eexists _, w'. split; [exact Hrun|]. split; [exact Hmap|]. split; [|split].
  - rewrite Hmap. cbn [Nat.add].
    rewrite StaleListFacts.length_filter_map.
    rewrite <- (StaleFacts.size_filter_split keep index). f_equal.
    f_equal. apply list_filter_iff. intros kv. rewrite Hbad.
    by destruct (keep kv).
  - exact Hmono.
  - intros k e Hk Hkeep.
    apply (Hgone (mk (k, e))).
    + apply list_elem_of_fmap. exists (k, e). split; [done|].
      by apply elem_of_map_to_list.
    + rewrite Hbad, Hkeep. done.
Qed.

Lemma cleanupStaleEntries_keeps_fresh_existing_witness :
  let E := Scenario.env_run1 in
  let w := Scenario.cached_world E Scenario.cached_url in
  let root := CacheManager.mainCachePath E in
  let index := default ∅ (Sys.index_doc w) in
  let keep (kv : string * Sys.cache_entry) : bool :=
    negb (7 * CacheManager.ms_per_day <? Sys.now w - Sys.lastUpdated kv.2)%Z
    && Sys.pathExists (Sys.fs w) (Sys.join root kv.1) in
  ∃ count w',
    CacheMaintenance.cleanupStaleEntries E 7 w = (Sys.Ok count, w') ∧
    default ∅ (Sys.index_doc w') = filter (λ kv, keep kv = true) index ∧
    count + size (default ∅ (Sys.index_doc w')) = size index ∧
    (∀ q x, Sys.fs w' !! q = Some x → Sys.fs w !! q = Some x) ∧
    (∀ k e, index !! k = Some e → keep (k, e) = false →
            Sys.fs w' !! Sys.join root k = None).
Proof.
  apply (cleanupStaleEntries_keeps_fresh_existing
           Scenario.env_run1 7
           (Scenario.cached_world Scenario.env_run1 Scenario.cached_url)).
  unfold Scenario.cached_world. cbn [Sys.index_doc from_option id].
  intros k e [[<- <-]|[_ H]]%lookup_insert_Some.
  - vm_compute. reflexivity.
  - by rewrite lookup_empty in H.
Defined.

Module CloneFacts.
Import Js JsFacts Sys CacheStoreFacts.

(** A path is not at or below one of its own entries. *)
Lemma not_under_child p n : under (join p n) p = false.
Proof.
  destruct (under (join p n) p) eqn:Hu; [|done]. exfalso.
  apply OrphanFacts.under_inv in Hu as [Heq|[r Heq]];
    apply (f_equal String.length) in Heq; unfold join in Heq;
    rewrite ?length_app in Heq; cbn [String.length] in Heq;
    rewrite ?length_app in Heq; cbn [String.length] in Heq; lia.
Qed.

Lemma pathExists_remove_child (f : files) p n :
  pathExists (remove f (join p n)) p = pathExists f p.
Proof. unfold pathExists. by rewrite lookup_remove, not_under_child. Qed.

Lemma pathExists_false (f : files) p : pathExists f p = false → f !! p = None.
Proof.
  unfold pathExists. intros H%bool_decide_eq_false. by apply eq_None_not_Some.
Qed.

(** What [cloneRepository] leaves, by the way it ends. *)
Lemma cloneRepository_post (E : env) (gitUrl targetPath : string)
    (options : GitCloner.clone_options) (w : world) :
  match GitCloner.cloneRepository E gitUrl targetPath options w with
  | (Ok _, w') =>
      pathExists (fs w') targetPath = true ∧
      pathExists (fs w') (join targetPath ".git") = false ∧
      index_doc w' = index_doc w ∧ now w' = now w
  | (Throw _ _, w') =>
      pathExists (fs w') targetPath = false ∧
      index_doc w' = index_doc w ∧ now w' = now w
  | (Exit _, _) => False
  end.
Proof.
  unfold GitCloner.cloneRepository.
  unfold bind at 1 2 3, emit at 1, modify_fs at 1.
  cbn [fs index_doc now uuids log].
  unfold try_catch, bind at 1, execAsync.
  cbn [fs index_doc now uuids log].
  destruct (sh E _ None _) as [f2 [out err|msg]].
  - (* the command succeeded *)
    set (w2 := World f2 _ _ _ _).
    assert (Hlog : ∀ m : M unit,
      (m = ret tt ∨ ∃ e, m = emit e) →
      ∃ w3, m w2 = (Ok tt, w3) ∧ fs w3 = f2 ∧
            index_doc w3 = index_doc w ∧ now w3 = now w).
    { intros m [->|[e ->]]; eexists; (split; [|split; [|split]]); reflexivity. }
    destruct (Hlog (if negb (GitCloner.quiet options)
                       && negb (is_empty (out +:+ err))
                       && negb (is_empty (GitCloner.trim (out +:+ err)))
                    then emit (ELog (GitCloner.trim (out +:+ err)))
                    else ret tt)) as (w3 & -> & Hfs & Hi & Hn).
    { destruct (_ && _); [right; by eexists|by left]. }
    unfold bind, get_fs. rewrite Hfs.
    destruct (pathExists f2 targetPath) eqn:Htarget; cbn [negb].
    + destruct (pathExists f2 (join targetPath ".git")) eqn:Hgit.
      * cbn [emit modify_fs fs index_doc now]. rewrite Hfs, Hi, Hn.
        split; [|split; [|done]].
        -- by rewrite pathExists_remove_child.
        -- apply pathExists_remove.
      * cbn [ret]. by rewrite Hfs.
    + cbn [throw]. by rewrite Hfs.
  - (* the command failed *)
    unfold bind, get_fs. cbn [fs].
    destruct (pathExists f2 targetPath) eqn:Htarget.
    + cbn [emit modify_fs throw fs index_doc now].
      split; [apply pathExists_remove|done].
    + cbn [ret throw fs index_doc now]. by split.
Qed.
End CloneFacts.

(** X12: [cloneRepository] is all or nothing about its target.  When it
    returns, the target exists and holds no [.git] entry; when it throws,
    whether because the command failed or because it left nothing, no target
    is left behind.  Either way the cache index is as it was, and the
    process is never left. *)
Theorem cloneRepository_all_or_nothing
    (E : Sys.env) (gitUrl targetPath : string)
    (options : GitCloner.clone_options) (w : Sys.world) :
  match GitCloner.cloneRepository E gitUrl targetPath options w with
  | (Sys.Ok _, w') =>
      Sys.pathExists (Sys.fs w') targetPath = true ∧
      Sys.pathExists (Sys.fs w') (Sys.join targetPath ".git") = false ∧
      Sys.index_doc w' = Sys.index_doc w
  | (Sys.Throw _ _, w') =>
      Sys.pathExists (Sys.fs w') targetPath = false ∧
      Sys.index_doc w' = Sys.index_doc w
  | (Sys.Exit _, _) => False
  end.
Proof.
  pose proof (CloneFacts.cloneRepository_post E gitUrl targetPath options w) as H.
  destruct (GitCloner.cloneRepository E gitUrl targetPath options w)
    as [[?|? ?|?] w']; [| |done].
  - destruct H as (? & ? & ? & _). by repeat split.
  - destruct H as (? & ? & _). by split.
Qed.

Module CachedCloneFacts.
Import Js JsFacts Sys CacheStoreFacts.

Section WithEnv.
Variable E : env.


Lemma initializeCache_eq w :
  ∃ l, CacheManager.initializeCache E w
       = (Ok tt, World (ensureDir (fs w) (CacheManager.mainCachePath E))
                   (Some (default ∅ (index_doc w))) (now w) (uuids w) l).
Proof.
  unfold CacheManager.initializeCache, CacheManager.indexFileExists,
    CacheManager.saveCacheIndex, bind, emit, modify_fs.
  cbn [fs index_doc now uuids log].
  destruct (index_doc w) as [index|].
  - rewrite bool_decide_eq_true_2 by (by eexists). eexists. reflexivity.
  - rewrite bool_decide_eq_false_2 by (by intros [? ?]). eexists. reflexivity.
Qed.


End WithEnv.

End CachedCloneFacts.



(** X15: [updateCachedRepository] of a cached, valid reference, on a
    machine where git works and the clone delivers the target, downloads
    again: the old copy is removed before the clone command runs, the result
    is the cache path, the files are what the command left less the [.git]
    directory, and the record is rewritten with the time of the update, so
    that it is not stale. *)
Theorem updateCachedRepository_downloads_again
    (E : Sys.env) (gitUrl : string) (options : GitCloner.clone_options)
    (w : Sys.world) (entry : Sys.cache_entry) (f2 : Sys.files)
    (o e out err : string) :
  let cachePath := CacheManager.cachePathOf E gitUrl in
  let forced := GitCloner.CloneOptions true (GitCloner.quiet options)
                  (GitCloner.opt_branch options) in
  let f1 := Sys.ensureDir
              (Sys.remove (Sys.ensureDir (Sys.fs w) (CacheManager.mainCachePath E))
                          cachePath)
              (Sys.dirname cachePath) in
  let info := GitUtils.parseGitUrl gitUrl in
  GitUtils.validateGitUrl gitUrl = true →
  default ∅ (Sys.index_doc w) !! CacheManager.cacheKeyOf E gitUrl = Some entry →
  Sys.pathExists (Sys.fs w) cachePath = true →
  Sys.sh E "git --version" None (Sys.fs w) = (Sys.fs w, Sys.ShOk o e) →
  Sys.sh E (GitCloner.clone_command gitUrl cachePath forced) None f1
    = (f2, Sys.ShOk out err) →
  Sys.pathExists f2 cachePath = true →
  ∃ w',
    GitCloner.updateCachedRepository E gitUrl options w = (Sys.Ok cachePath, w') ∧
    Sys.fs w' = (if Sys.pathExists f2 (Sys.join cachePath ".git")
                 then Sys.remove f2 (Sys.join cachePath ".git") else f2) ∧
    CacheManager.getCacheInfo E gitUrl w'
      = (Sys.Ok (Some (Sys.CacheEntry (GitUtils.normalizeGitUrl gitUrl)
                         (GitUtils.extractBranch gitUrl) (Sys.now w)
                         (GitUtils.host info) (GitUtils.owner info)
                         (GitUtils.name info) (Some (Sys.now w)),
                       cachePath)), w') ∧
    CacheManager.isCacheStale_default E gitUrl w' = (Sys.Ok false, w').
Proof.
  intros cachePath forced f1 info Hvalid Hentry Hdir Hgit Hclone Htarget.
  unfold GitCloner.updateCachedRepository. unfold Sys.bind at 1.
  rewrite CacheStoreFacts.getCacheInfo_eq, Hentry. fold cachePath. rewrite Hdir.
  fold forced. unfold GitCloner.cloneOrGetCached. rewrite Hvalid. cbn [negb].
  unfold GitCloner.isGitAvailable, Sys.try_catch, Sys.execAsync.
  unfold Sys.bind at 1 2. rewrite Hgit. cbn [Sys.ret negb].
  unfold Sys.bind at 1.
  match goal with |- context [CacheManager.initializeCache E ?w1] =>
    destruct (CachedCloneFacts.initializeCache_eq E w1) as (l & ->) end.
  cbn [Sys.fs Sys.index_doc Sys.now Sys.uuids].
  unfold Sys.bind at 1. rewrite CacheStoreFacts.getCacheInfo_eq.
  cbn [Sys.fs Sys.index_doc Sys.now Sys.uuids from_option id].
  rewrite Hentry. fold cachePath.
  rewrite (CacheFacts.ensureDir_pathExists _ _ _ Hdir).
  rewrite bool_decide_eq_true_2 by (by eexists).
  cbn [GitCloner.force forced negb andb].
  unfold Sys.bind at 1. cbn [Sys.bind Sys.emit Sys.modify_fs].
  cbn [Sys.fs Sys.index_doc Sys.now Sys.uuids Sys.log].
  unfold Sys.bind at 1.
  match goal with |- context [(if ?c then ?a else ?b) ?w3] =>
    assert (∃ l', (if c then a else b) w3
                  = (Sys.Ok tt, Sys.World (Sys.fs w3) (Sys.index_doc w3)
                                  (Sys.now w3) (Sys.uuids w3) l'))
      as (l' & ->)
      by (destruct c; eexists; reflexivity)
  end.
  cbn [Sys.fs Sys.index_doc Sys.now Sys.uuids Sys.log].
  unfold Sys.bind at 1. unfold GitCloner.cloneRepository.
  unfold Sys.bind at 1 2 3, Sys.emit at 1, Sys.modify_fs at 1.
  cbn [Sys.fs Sys.index_doc Sys.now Sys.uuids Sys.log].
  unfold Sys.try_catch, Sys.bind at 1, Sys.execAsync.
  cbn [Sys.fs Sys.index_doc Sys.now Sys.uuids Sys.log].
  fold f1. rewrite Hclone.
  match goal with |- context [(if ?c then ?a else ?b) ?w3] =>
    assert (∃ l'', (if c then a else b) w3
                   = (Sys.Ok tt, Sys.World (Sys.fs w3) (Sys.index_doc w3)
                                   (Sys.now w3) (Sys.uuids w3) l''))
      as (l'' & ->)
      by (destruct c; eexists; reflexivity)
  end.
  cbn [Sys.fs Sys.index_doc Sys.now Sys.uuids Sys.log].
  unfold Sys.bind at 1, Sys.get_fs at 1. cbn [Sys.fs].
  rewrite Htarget. cbn [negb].
  assert (Hfresh : ∀ f3 l3,
    Sys.pathExists f3 cachePath = true →
    let w3 := Sys.World f3 (Some (default ∅ (Sys.index_doc w))) (Sys.now w)
                (Sys.uuids w) l3 in
    ∃ w',
      (let* t := Sys.get_now in
       CacheManager.updateCacheEntry E gitUrl (Some t) ;;
       (if negb (GitCloner.quiet forced)
        then Sys.emit (Sys.ELog "Template cached successfully")
        else Sys.ret tt) ;;
       Sys.ret cachePath) w3 = (Sys.Ok cachePath, w') ∧
      Sys.fs w' = f3 ∧
      CacheManager.getCacheInfo E gitUrl w'
        = (Sys.Ok (Some (Sys.CacheEntry (GitUtils.normalizeGitUrl gitUrl)
                           (GitUtils.extractBranch gitUrl) (Sys.now w)
                           (GitUtils.host info) (GitUtils.owner info)
                           (GitUtils.name info) (Some (Sys.now w)),
                         cachePath)), w') ∧
      CacheManager.isCacheStale_default E gitUrl w' = (Sys.Ok false, w')).
  { intros f3 l3 Hf3 w3. unfold Sys.bind at 1, Sys.get_now. unfold Sys.bind at 1.
    rewrite CacheStoreFacts.updateCacheEntry_eq.
    assert (Hage : (7 * CacheManager.ms_per_day <? Sys.now w - Sys.now w)%Z = false).
    { apply Z.ltb_ge. unfold CacheManager.ms_per_day. lia. }
    destruct (negb (GitCloner.quiet forced));
      cbn [Sys.bind Sys.emit Sys.ret Sys.fs Sys.index_doc Sys.now Sys.uuids
           Sys.log w3];
      (eexists; split; [reflexivity|]; split; [reflexivity|]);
      unfold CacheManager.isCacheStale_default;
      rewrite CacheStoreFacts.isCacheStale_eq, !CacheStoreFacts.getCacheInfo_eq;
      cbn [Sys.fs Sys.index_doc Sys.now from_option id fst];
      rewrite lookup_insert_eq; fold cachePath; rewrite Hf3;
      cbn [Sys.lastUpdated]; rewrite Hage; done. }
  destruct (Sys.pathExists f2 (Sys.join cachePath ".git")) eqn:Hgitdir.
  - cbn [Sys.bind Sys.emit Sys.modify_fs].
    cbn [Sys.fs Sys.index_doc Sys.now Sys.uuids Sys.log].
    match goal with |- context [Sys.World (Sys.remove f2 ?g) _ _ _ ?l3] =>
      destruct (Hfresh (Sys.remove f2 g) l3) as (w' & Hrun & Hfs & Hinfo & Hstale)
    end.
    { by rewrite CloneFacts.pathExists_remove_child. }
    exists w'. split; [exact Hrun|]. by split.
  - cbn [Sys.bind Sys.ret].
    match goal with |- context [Sys.World f2 _ _ _ ?l3] =>
      destruct (Hfresh f2 l3) as (w' & Hrun & Hfs & Hinfo & Hstale)
    end; [done|].
    exists w'. split; [exact Hrun|]. by split.
Qed.

Lemma updateCachedRepository_downloads_again_witness :
  let E := Download.env_fetch in
  let gitUrl := Scenario.cached_url in
  let w := Scenario.cached_world E gitUrl in
  let cachePath := CacheManager.cachePathOf E gitUrl in
  ∃ w',
    GitCloner.updateCachedRepository E gitUrl GitCloner.default_options w
      = (Sys.Ok cachePath, w') ∧
    Sys.fs w' !! (cachePath +:+ "/pqs.config.js")
      = Some (Sys.File "module.exports = {}") ∧
    Sys.fs w' !! (cachePath +:+ "/.git") = None ∧
    CacheManager.isCacheStale_default E gitUrl w' = (Sys.Ok false, w').
Proof.
  cbv zeta.
  destruct (updateCachedRepository_downloads_again
              Download.env_fetch Scenario.cached_url GitCloner.default_options
              (Scenario.cached_world Download.env_fetch Scenario.cached_url)
              (Sys.CacheEntry Scenario.cached_url None 0 "github.com" "user"
                 "repo" (Some 0%Z))
              (Download.sh_clone "git clone" None
                 (Sys.ensureDir
                    (Sys.remove
                       (Sys.ensureDir
                          (Sys.fs (Scenario.cached_world Download.env_fetch
                                     Scenario.cached_url))
                          (CacheManager.mainCachePath Download.env_fetch))
                       (CacheManager.cachePathOf Download.env_fetch
                          Scenario.cached_url))
                    (Sys.dirname (CacheManager.cachePathOf Download.env_fetch
                                    Scenario.cached_url)))).1
              "git version 2.43.0" "" "" "Cloning into the cache...")
    as (w' & Hrun & Hfs & _ & Hstale);
    [vm_compute; reflexivity ..|].
  exists w'. split; [exact Hrun|]. split; [|split; [|exact Hstale]].
  - rewrite Hfs. vm_compute. reflexivity.
  - rewrite Hfs. vm_compute. reflexivity.
Defined.

Module TildeFacts.
Import Js JsFacts.

Lemma replace_first_char_none c r s :
  all_chars (not_char c) s = true → TemplateSource.replace_first_char c r s = s.
Proof.
  induction s as [|d s IH]; [done|]. cbn [all_chars TemplateSource.replace_first_char].
  intros [Hd Hs]%andb_prop. unfold not_char in Hd.
  destruct (Ascii.eqb d c); [done|]. by rewrite IH.
Qed.

Lemma replace_first_char_first c r pre rest :
  all_chars (not_char c) pre = true →
  TemplateSource.replace_first_char c r (pre +:+ String c rest)
  = pre +:+ r +:+ rest.
Proof.
  induction pre as [|d pre IH]; cbn [all_chars String.append
                                      TemplateSource.replace_first_char].
  - intros _. by rewrite Ascii.eqb_refl.
  - intros [Hd Hs]%andb_prop. unfold not_char in Hd.
    destruct (Ascii.eqb d c); [done|]. by rewrite IH.
Qed.
End TildeFacts.

(** X16: a source whose location is no git reference is a local one and
    never touches the world: [isAvailable] tells whether the expanded path
    exists, [prepare] returns that path exactly when [isAvailable] holds and
    throws otherwise, [needsUpdate] is false, [getCacheInfo] gives nothing,
    and [update] and [removeFromCache] throw; in each case the world is as
    it was, so no command runs and nothing is logged. *)
Theorem local_source_is_only_looked_at
    (E : Sys.env) (location : string) (options : GitCloner.clone_options)
    (w : Sys.world) :
  GitUtils.isGitUrl location = false →
  let src := TemplateSource.make location in
  let p := TemplateSource.getLocalPath E src in
  let there := Sys.pathExists (Sys.fs w) p in
  p = TemplateSource.replace_first_char "~" (Sys.homedir E) location ∧
  TemplateSource.isAvailable E src w = (Sys.Ok there, w) ∧
  TemplateSource.prepare E src options w
    = (if there then Sys.Ok p
       else Sys.Throw "Error"
              ("Local template directory does not exist: " +:+ p), w) ∧
  TemplateSource.needsUpdate E src w = (Sys.Ok false, w) ∧
  TemplateDiscovery.getCacheInfo E src w = (Sys.Ok None, w) ∧
  TemplateSource.update E src options w
    = (Sys.Throw "Error" "Cannot update local template source", w) ∧
  TemplateDiscovery.removeFromCache E src w
    = (Sys.Throw "Error" "Cannot remove local template source from cache", w).
Proof.
  intros Hlocal src p there. subst there p src.
  unfold TemplateSource.isAvailable, TemplateSource.prepare,
    TemplateSource.needsUpdate, TemplateSource.update,
    TemplateDiscovery.getCacheInfo, TemplateDiscovery.removeFromCache,
    Sys.try_catch, Sys.bind, Sys.get_fs.
  unfold TemplateSource.getLocalPath, TemplateSource.make.
  cbn [TemplateSource.isRemote TemplateSource.location]. rewrite Hlocal.
  cbn [negb Sys.ret Sys.throw].
  split; [done|]. split; [done|]. split; [|done].
  by destruct (Sys.pathExists _ _).
Qed.

Lemma local_source_is_only_looked_at_witness :
  let E := Scenario.env_run1 in
  let w := Scenario.world0 in
  let src := TemplateSource.make "/tpl" in
  let p := TemplateSource.getLocalPath E src in
  let there := Sys.pathExists (Sys.fs w) p in
  p = TemplateSource.replace_first_char "~" (Sys.homedir E) "/tpl" ∧
  TemplateSource.isAvailable E src w = (Sys.Ok there, w) ∧
  TemplateSource.prepare E src GitCloner.default_options w
    = (if there then Sys.Ok p
       else Sys.Throw "Error"
              ("Local template directory does not exist: " +:+ p), w) ∧
  TemplateSource.needsUpdate E src w = (Sys.Ok false, w) ∧
  TemplateDiscovery.getCacheInfo E src w = (Sys.Ok None, w) ∧
  TemplateSource.update E src GitCloner.default_options w
    = (Sys.Throw "Error" "Cannot update local template source", w) ∧
  TemplateDiscovery.removeFromCache E src w
    = (Sys.Throw "Error" "Cannot remove local template source from cache", w).
Proof.
  apply (local_source_is_only_looked_at Scenario.env_run1 "/tpl"
           GitCloner.default_options Scenario.world0).
  vm_compute. reflexivity.
Defined.

(** X17: the path of a local source is its location with the first [~]
    replaced by the home directory, wherever that [~] stands, and with
    every later [~] kept; a location without [~] is its own path.  (The
    home directory is taken without [$], which [String.prototype.replace]
    would read as a replacement pattern.) *)
Theorem getLocalPath_expands_the_first_tilde
    (E : Sys.env) (pre rest : string) :
  Js.includes "$" (Sys.homedir E) = false →
  Js.all_chars (Js.not_char "~") pre = true →
  TemplateSource.getLocalPath E (TemplateSource.TemplateSource pre false) = pre ∧
  TemplateSource.getLocalPath E
    (TemplateSource.TemplateSource (pre +:+ "~" +:+ rest) false)
  = pre +:+ Sys.homedir E +:+ rest.
Proof.
  intros _ Hpre. unfold TemplateSource.getLocalPath.
  cbn [TemplateSource.isRemote TemplateSource.location]. split.
  - by apply TildeFacts.replace_first_char_none.
  - change ("~" +:+ rest) with (String "~" rest).
    by apply TildeFacts.replace_first_char_first.
Qed.

Lemma getLocalPath_expands_the_first_tilde_witness :
  TemplateSource.getLocalPath Scenario.env_run1
    (TemplateSource.TemplateSource "/data/a" false) = "/data/a" ∧
  TemplateSource.getLocalPath Scenario.env_run1
    (TemplateSource.TemplateSource ("/data/a" +:+ "~" +:+ "/b~c") false)
  = "/data/a" +:+ Sys.homedir Scenario.env_run1 +:+ "/b~c".
Proof.
  apply (getLocalPath_expands_the_first_tilde Scenario.env_run1 "/data/a" "/b~c");
    vm_compute; reflexivity.
Defined.

(** X18: a reference that [isGitUrl] accepts and that holds [//], so every
    [http://], [https://] and [ssh://] one, makes a remote source from which
    nothing is ever discovered: [prepare] throws [Invalid git URL] before
    anything is done, and [discoverTemplates] turns that into one warning
    and the empty list, whatever [findTemplatesInDirectory] would find. *)
Theorem double_slash_source_discovers_nothing
    (E : Sys.env) (config : Type)
    (findTemplatesInDirectory : string → Sys.M (list config))
    (location : string) (options : GitCloner.clone_options) (w : Sys.world) :
  GitUtils.isGitUrl location = true →
  Js.includes "//" location = true →
  let src := TemplateSource.make location in
  TemplateSource.prepare E src options w
    = (Sys.Throw "Error" ("Invalid git URL: " +:+ location), w) ∧
  TemplateDiscovery.discoverTemplates E config findTemplatesInDirectory
    src options w
    = (Sys.Ok [],
       Sys.World (Sys.fs w) (Sys.index_doc w) (Sys.now w) (Sys.uuids w)
         (Sys.log w
          ++ [Sys.EWarn ("Warning: Failed to discover templates in "
                         +:+ location +:+ ": Invalid git URL: " +:+ location)])).
Proof.
  intros Hgit Hslash src.
  assert (Hv : GitUtils.validateGitUrl location = false).
  { unfold GitUtils.validateGitUrl. rewrite Hslash, orb_true_r.
    by destruct (negb _). }
  assert (Hprepare : TemplateSource.prepare E src options w
    = (Sys.Throw "Error" ("Invalid git URL: " +:+ location), w)).
  { unfold TemplateSource.prepare, src, TemplateSource.make.
    cbn [TemplateSource.isRemote TemplateSource.location]. rewrite Hgit.
    unfold GitCloner.cloneAndValidate, GitCloner.cloneOrGetCached, Sys.bind.
    by rewrite Hv. }
  split; [exact Hprepare|].
  unfold TemplateDiscovery.discoverTemplates, Sys.try_catch.
  unfold Sys.bind at 1. rewrite Hprepare. reflexivity.
Qed.

Lemma double_slash_source_discovers_nothing_witness :
  let E := Scenario.env_run1 in
  let location := Scenario.https_url in
  let w := Scenario.world0 in
  let src := TemplateSource.make location in
  TemplateSource.prepare E src GitCloner.default_options w
    = (Sys.Throw "Error" ("Invalid git URL: " +:+ location), w) ∧
  TemplateDiscovery.discoverTemplates E string (λ p, Sys.ret [p])
    src GitCloner.default_options w
    = (Sys.Ok [],
       Sys.World (Sys.fs w) (Sys.index_doc w) (Sys.now w) (Sys.uuids w)
         (Sys.log w
          ++ [Sys.EWarn ("Warning: Failed to discover templates in "
                         +:+ location +:+ ": Invalid git URL: " +:+ location)])).
Proof.
  apply (double_slash_source_discovers_nothing Scenario.env_run1 string
           (λ p, Sys.ret [p]) Scenario.https_url GitCloner.default_options
           Scenario.world0);
    vm_compute; reflexivity.
Defined.

Module RunFacts.
Import Js JsFacts.

Lemma length_drop_while f s :
  (String.length (drop_while f s) ≤ String.length s)%nat.
Proof.
  induction s as [|c s IH]; cbn [drop_while]; [done|].
  destruct (f c); cbn [String.length]; lia.
Qed.

(** The three cases of [s.replace(/[cls]+/g, r)]. *)
Lemma collapse_keep f r c s :
  f c = false →
  replace_all (run_of f r) (String c s)
  = String c (replace_all (run_of f r) s).
Proof.
  intros Hc. unfold replace_all. cbn [replace_all_from].
  unfold run_of at 1. cbn [take_while]. by rewrite Hc.
Qed.

Lemma collapse_run f r c s :
  f c = true →
  replace_all (run_of f r) (String c s)
  = r +:+ replace_all (run_of f r) (drop_while f s).
Proof.
  intros Hc. unfold replace_all. cbn [replace_all_from].
  unfold run_of at 1. cbn [take_while]. rewrite Hc.
  cbn [String.length Nat.pred]. f_equal.
  rewrite <- (GitUtilsFacts.take_drop f s) at 2.
  apply TransformFacts.replace_all_from_skip.
Qed.

(** Induction along the scan. *)
Lemma collapse_ind f r (P : string → string → Prop) :
  P "" "" →
  (∀ c s t, f c = false → P s t → P (String c s) (String c t)) →
  (∀ c s t, f c = true → P (drop_while f s) t → P (String c s) (r +:+ t)) →
  ∀ s, P s (replace_all (run_of f r) s).
Proof.
  intros Hnil Hkeep Hrun s.
  remember (String.length s) as n eqn:Hn. revert s Hn.
  induction n as [n IH] using lt_wf_ind. intros [|c s] Hn.
  - exact Hnil.
  - cbn [String.length] in Hn. destruct (f c) eqn:Hc.
    + rewrite collapse_run by done. apply Hrun; [done|].
      apply (IH (String.length (drop_while f s))); [|done].
      pose proof (length_drop_while f s). lia.
    + rewrite collapse_keep by done. apply Hkeep; [done|].
      apply (IH (String.length s)); [lia|done].
Qed.

Lemma drop_while_head f s :
  match drop_while f s with String c _ => f c = false | "" => True end.
Proof.
  induction s as [|c s IH]; cbn [drop_while]; [done|].
  by destruct (f c) eqn:Hc.
Qed.

(** The characters of the result: those the scan keeps, and those of the
    replacement. *)
Lemma collapse_chars f r (Q : ascii → bool) s :
  all_chars Q r = true →
  all_chars (λ c, f c || Q c) s = true →
  all_chars Q (replace_all (run_of f r) s) = true.
Proof.
  intros Hr. revert s.
  apply (collapse_ind f r (λ s t,
           all_chars (λ c, f c || Q c) s = true → all_chars Q t = true)).
  - done.
  - intros c s t Hc IH. cbn [all_chars]. rewrite Hc. cbn [orb].
    intros [-> Hs]%andb_prop. by apply IH.
  - intros c s t Hc IH. cbn [all_chars]. intros [_ Hs]%andb_prop.
    rewrite all_chars_app, Hr. apply IH.
    clear -Hs. induction s as [|d s IHs]; [done|].
    cbn [all_chars drop_while] in *. apply andb_prop in Hs as [Hd Hs].
    destruct (f d) eqn:Hfd; [by apply IHs|]. cbn [all_chars].
    rewrite Hfd. cbn [orb] in *. by rewrite Hd, Hs.
Qed.

(** A text without a character of the class is left alone. *)
Lemma collapse_none f r s :
  all_chars (λ c, negb (f c)) s = true → replace_all (run_of f r) s = s.
Proof.
  induction s as [|c s IH]; [done|]. cbn [all_chars].
  intros [Hc Hs]%andb_prop. apply negb_true_iff in Hc.
  rewrite collapse_keep by done. by rewrite IH.
Qed.

Lemma startsWith_cons c d s :
  startsWith (String c "") (String d s) = Ascii.eqb c d.
Proof. unfold startsWith. cbn [strip_prefix]. by destruct (Ascii.eqb c d). Qed.

Lemma includes_double c s :
  includes (String c (String c "")) (String c s)
  = startsWith (String c "") s || includes (String c (String c "")) s.
Proof.
  cbn [includes]. f_equal. unfold startsWith. cbn [strip_prefix].
  rewrite Ascii.eqb_refl. destruct s as [|d s]; [done|].
  by destruct (Ascii.eqb c d).
Qed.

Lemma includes_double_other c d s :
  Ascii.eqb c d = false →
  includes (String c (String c "")) (String d s)
  = includes (String c (String c "")) s.
Proof.
  intros H. cbn [includes]. unfold startsWith at 1. cbn [strip_prefix].
  by rewrite H.
Qed.

(** [s.replace(/c+/g, 'c')] leaves no two [c] in a row, and begins with
    [c] exactly when the text does. *)
Lemma squeeze_head c s :
  startsWith (String c "")
    (replace_all (run_of (Ascii.eqb c) (String c "")) s)
  = startsWith (String c "") s.
Proof.
  destruct s as [|d s]; [done|]. destruct (Ascii.eqb c d) eqn:Hd.
  - rewrite collapse_run by done. cbn [String.append].
    by rewrite !startsWith_cons, Ascii.eqb_refl, Hd.
  - rewrite collapse_keep by done. by rewrite !startsWith_cons.
Qed.

Lemma squeeze_no_double c s :
  includes (String c (String c ""))
    (replace_all (run_of (Ascii.eqb c) (String c "")) s) = false.
Proof.
  revert s.
  apply (collapse_ind (Ascii.eqb c) (String c "")
           (λ s t, (startsWith (String c "") t = startsWith (String c "") s
                    → True) ∧
                   (match s with
                    | String d _ => Ascii.eqb c d = false
                    | "" => True
                    end → startsWith (String c "") t = false) ∧
                   includes (String c (String c "")) t = false)).
  - done.
  - intros d s t Hd (_ & _ & IH). split; [done|]. split.
    + intros _. by rewrite startsWith_cons.
    + by rewrite includes_double_other.
  - intros d s t Hd (_ & Hhead & IH). split; [done|]. split.
    + intros H. congruence.
    + cbn [String.append]. rewrite includes_double, IH, orb_false_r.
      apply Hhead. apply drop_while_head.
Qed.

Lemma squeeze_fixed c s :
  includes (String c (String c "")) s = false →
  replace_all (run_of (Ascii.eqb c) (String c "")) s = s.
Proof.
  induction s as [|d s IH]; [done|]. destruct (Ascii.eqb c d) eqn:Hd.
  - apply Ascii.eqb_eq in Hd as <-. rewrite includes_double.
    intros [Hh Hs]%orb_false_elim. rewrite collapse_run by apply Ascii.eqb_refl.
    destruct s as [|e s]; [done|]. rewrite startsWith_cons in Hh.
    cbn [drop_while]. rewrite Hh. cbn [String.append]. by rewrite IH.
  - rewrite includes_double_other by done. intros Hs.
    rewrite collapse_keep by done. by rewrite IH.
Qed.

Lemma strip_suffix_Some suf : ∀ s r, strip_suffix suf s = Some r → s = r +:+ suf.
Proof.
  induction s as [|c s IH]; intros r; cbn [strip_suffix].
  - destruct (String.eqb_spec "" suf) as [<-|]; [|done]. by intros [= <-].
  - destruct (String.eqb_spec (String c s) suf) as [<-|]; [by intros [= <-]|].
    destruct (strip_suffix suf s) as [r'|] eqn:Hs; [|done].
    intros [= <-]. cbn [String.append]. f_equal. by apply IH.
Qed.

Lemma startsWith_app p a b :
  startsWith p a = true → startsWith p (a +:+ b) = true.
Proof.
  unfold startsWith. destruct (strip_prefix p a) as [r|] eqn:Hr; [|done].
  apply strip_prefix_Some in Hr as ->. by rewrite append_assoc, strip_prefix_app.
Qed.

Lemma includes_app_r sub a b :
  includes sub a = true → includes sub (a +:+ b) = true.
Proof.
  induction a as [|c a IH]; cbn [includes String.append].
  - rewrite orb_false_r. intros H.
    pose proof (startsWith_app sub "" b H) as H'. cbn [String.append] in H'.
    destruct b; cbn [includes]; by rewrite H'.
  - intros [H|H]%orb_prop.
    + pose proof (startsWith_app sub (String c a) b H) as H'.
      cbn [String.append] in H'. by rewrite H'.
    + rewrite (IH H). apply orb_true_r.
Qed.
End RunFacts.

Module SlugFacts.
Import Js JsFacts RunFacts Subst.

Lemma transformText_SLUG text :
  transformText text "SLUG"
  = strip_hyphens
      (replace_all (run_of (Ascii.eqb "-") "-")
         (replace_all (run_of is_space "-")
            (filter_chars is_slug_char (toLowerCase text)))).
Proof. reflexivity. Qed.

Lemma slug_char_cases c :
  is_slug_char c = true → is_space c || is_kebab_char c = true.
Proof. destruct c as [[] [] [] [] [] [] [] []]; vm_compute; congruence. Qed.

Lemma kebab_char_cases c :
  is_kebab_char c = true → Ascii.eqb "-" c || is_kebab_char c = true.
Proof. intros ->. apply orb_true_r. Qed.

Lemma kebab_char_lower c : is_kebab_char c = true → lower_char c = c.
Proof. destruct c as [[] [] [] [] [] [] [] []]; vm_compute; congruence. Qed.

Lemma kebab_char_slug c : is_kebab_char c = true → is_slug_char c = true.
Proof. destruct c as [[] [] [] [] [] [] [] []]; vm_compute; congruence. Qed.

Lemma kebab_char_not_space c : is_kebab_char c = true → negb (is_space c) = true.
Proof. destruct c as [[] [] [] [] [] [] [] []]; vm_compute; congruence. Qed.

Lemma map_chars_fixed (f : ascii → ascii) (Q : ascii → bool) s :
  (∀ c, Q c = true → f c = c) → all_chars Q s = true → map_chars f s = s.
Proof.
  intros Hf. induction s as [|c s IH]; [done|]. cbn [all_chars map_chars].
  intros [Hc Hs]%andb_prop. by rewrite (Hf c Hc), IH.
Qed.

Lemma filter_chars_all f s : all_chars f s = true → filter_chars f s = s.
Proof.
  induction s as [|c s IH]; [done|]. cbn [all_chars filter_chars].
  intros [-> Hs]%andb_prop. by rewrite IH.
Qed.

(** [s.replace(/^-|-$/g, '')] on a text without [--]. *)
Lemma strip_hyphens_spec t :
  includes "--" t = false →
  startsWith "-" (strip_hyphens t) = false ∧
  endsWith "-" (strip_hyphens t) = false ∧
  includes "--" (strip_hyphens t) = false ∧
  ∃ a b, t = a +:+ strip_hyphens t +:+ b.
Proof.
  intros Ht. unfold strip_hyphens.
  assert (H1 : ∃ a s1, default t (strip_prefix "-" t) = s1 ∧ t = a +:+ s1 ∧
                       startsWith "-" s1 = false ∧ includes "--" s1 = false).
  { destruct (strip_prefix "-" t) as [s1|] eqn:Hp; cbn [from_option id].
    - apply strip_prefix_Some in Hp as ->. exists "-", s1.
      change ("-" +:+ s1) with (String "-" s1) in Ht.
      rewrite (includes_double "-") in Ht.
      apply orb_false_elim in Ht as [? ?]. done.
    - exists "", t. unfold startsWith. by rewrite Hp. }
  destruct H1 as (a & s1 & -> & -> & Hhead & Hs1).
  destruct (strip_suffix "-" s1) as [r|] eqn:Hr; cbn [from_option id].
  - apply strip_suffix_Some in Hr as ->.
    assert (Hr : includes "--" r = false).
    { destruct (includes "--" r) eqn:Hi; [|done].
      by rewrite (includes_app_r _ _ "-" Hi) in Hs1. }
    split; [|split; [|split; [done|by exists a, "-"]]].
    + destruct r as [|c r]; [done|].
      cbn [String.append] in Hhead. by rewrite startsWith_cons in *.
    + unfold endsWith. destruct (strip_suffix "-" r) as [r'|] eqn:Hr'; [|done].
      apply strip_suffix_Some in Hr' as ->. rewrite append_assoc in Hs1.
      by rewrite includes_app_l in Hs1.
  - split; [done|]. split; [unfold endsWith; by rewrite Hr|].
    split; [done|]. exists a, "". by rewrite append_nil_r.
Qed.

Lemma strip_hyphens_fixed r :
  startsWith "-" r = false → endsWith "-" r = false → strip_hyphens r = r.
Proof.
  unfold startsWith, endsWith, strip_hyphens.
  destruct (strip_prefix "-" r); [done|]. cbn [from_option id].
  by destruct (strip_suffix "-" r).
Qed.
Lemma slug_alphabet text :
  all_chars is_kebab_char
    (replace_all (run_of (Ascii.eqb "-") "-")
       (replace_all (run_of is_space "-")
          (filter_chars is_slug_char (toLowerCase text)))) = true.
Proof.
  apply collapse_chars; [done|].
  eapply all_chars_impl; [apply kebab_char_cases|].
  apply collapse_chars; [done|].
  eapply all_chars_impl; [apply slug_char_cases|].
  apply ReferenceFacts.all_chars_filter.
Qed.

Lemma SLUG_alphabet text :
  all_chars is_kebab_char (transformText text "SLUG") = true.
Proof.
  rewrite transformText_SLUG.
  pose proof (slug_alphabet text) as Ht.
  destruct (strip_hyphens_spec _ (squeeze_no_double "-"
              (replace_all (run_of is_space "-")
                 (filter_chars is_slug_char (toLowerCase text)))))
    as (_ & _ & _ & a & b & Hsplit).
  rewrite Hsplit, !all_chars_app in Ht.
  by apply andb_prop in Ht as [_ [? _]%andb_prop].
Qed.

Lemma kebab_no_slash s :
  all_chars is_kebab_char s = true → startsWith "/" s = false.
Proof.
  destruct s as [|c s]; [done|]. cbn [all_chars]. intros [Hc _]%andb_prop.
  rewrite startsWith_cons.
  revert Hc. destruct c as [[] [] [] [] [] [] [] []]; vm_compute; congruence.
Qed.
End SlugFacts.

(** X19: the SLUG transformation gives a clean slug for every text: only
    lower-case letters, digits and hyphens, no hyphen at either end and no
    two hyphens in a row; so it has no [/], no [.] and no blank, and it is
    a fixed point: SLUG of a slug is that slug. *)
Theorem SLUG_gives_a_clean_slug (text : string) :
  let slug := Subst.transformText text "SLUG" in
  Js.all_chars Subst.is_kebab_char slug = true ∧
  Js.startsWith "-" slug = false ∧
  Js.endsWith "-" slug = false ∧
  Js.includes "--" slug = false ∧
  Js.includes "/" slug = false ∧
  Js.includes "." slug = false ∧
  Subst.transformText slug "SLUG" = slug.
Proof.
  cbv zeta. rewrite (SlugFacts.transformText_SLUG text).
  set (v := Js.filter_chars Subst.is_slug_char (Js.toLowerCase text)).
  set (u := Js.replace_all (Js.run_of Js.is_space "-") v).
  set (t := Js.replace_all (Js.run_of (Ascii.eqb "-") "-") u).
  assert (Ht : Js.all_chars Subst.is_kebab_char t = true)
    by apply SlugFacts.slug_alphabet.
  destruct (SlugFacts.strip_hyphens_spec t (RunFacts.squeeze_no_double "-" u))
    as (Hhead & Hend & Hdouble & a & b & Hsplit).
  set (r := Subst.strip_hyphens t) in *.
  assert (Hr : Js.all_chars Subst.is_kebab_char r = true).
  { rewrite Hsplit, !JsFacts.all_chars_app in Ht.
    by apply andb_prop in Ht as [_ [? _]%andb_prop]. }
  split; [done|]. split; [done|]. split; [done|]. split; [done|].
  split; [|split].
  - apply ReferenceFacts.excludes_char.
    eapply JsFacts.all_chars_impl; [|exact Hr].
    intros c; destruct c as [[] [] [] [] [] [] [] []]; vm_compute; congruence.
  - apply ReferenceFacts.excludes_char.
    eapply JsFacts.all_chars_impl; [|exact Hr].
    intros c; destruct c as [[] [] [] [] [] [] [] []]; vm_compute; congruence.
  - rewrite (SlugFacts.transformText_SLUG r).
    unfold Js.toLowerCase.
    rewrite (SlugFacts.map_chars_fixed _ _ _ SlugFacts.kebab_char_lower Hr).
    rewrite SlugFacts.filter_chars_all
      by (eapply JsFacts.all_chars_impl; [apply SlugFacts.kebab_char_slug|done]).
    rewrite (RunFacts.collapse_none Js.is_space)
      by (eapply JsFacts.all_chars_impl; [apply SlugFacts.kebab_char_not_space|done]).
    rewrite (RunFacts.squeeze_fixed "-") by done.
    by apply SlugFacts.strip_hyphens_fixed.
Qed.


Module PathFacts.
Import Js JsFacts Sys PQS.

Lemma split_not_nil sep s : split sep s ≠ [].
Proof.
  destruct s as [|c s]; [done|]. cbn [split].
  destruct (Ascii.eqb c sep); [done|]. by destruct (split sep s).
Qed.

Lemma split_app sep a b :
  split sep (a +:+ String sep b) = split sep a ++ split sep b.
Proof.
  induction a as [|c a IH].
  - cbn. by rewrite Ascii.eqb_refl.
  - change (String c a +:+ String sep b) with (String c (a +:+ String sep b)).
    cbn [split]. rewrite IH. destruct (Ascii.eqb c sep); [done|].
    pose proof (split_not_nil sep a). by destruct (split sep a).
Qed.

Lemma concat_cons sep x l :
  l ≠ [] → String.concat sep (x :: l) = x +:+ sep +:+ String.concat sep l.
Proof. by destruct l. Qed.

Lemma concat_app sep a b :
  a ≠ [] → b ≠ [] →
  String.concat sep (a ++ b)
  = String.concat sep a +:+ sep +:+ String.concat sep b.
Proof.
  intros Ha Hb. induction a as [|x a IH]; [done|].
  destruct a as [|y a].
  - cbn [app]. by rewrite concat_cons.
  - change ((x :: y :: a) ++ b) with (x :: (y :: a) ++ b).
    rewrite !concat_cons by done. rewrite IH by done.
    by rewrite !append_assoc.
Qed.

Lemma concat_split sep s :
  String.concat (String sep "") (split sep s) = s.
Proof.
  induction s as [|c s IH]; [done|]. cbn [split].
  pose proof (split_not_nil sep s) as Hne.
  destruct (Ascii.eqb_spec c sep) as [->|_].
  - rewrite concat_cons by done. by rewrite IH.
  - destruct (split sep s) as [|p ps]; [done|].
    destruct ps as [|q ps].
    + cbn in *. by rewrite IH.
    + rewrite concat_cons by done. rewrite concat_cons in IH by done.
      by rewrite <- IH.
Qed.

(** Segments pass [path.resolve] as they are. *)
Lemma resolve_segments_normal (l : list string) : ∀ kept,
  forallb is_segment l = true →
  fold_left (λ kept segment,
               if is_empty segment || String.eqb segment "." then kept
               else if String.eqb segment ".." then removelast kept
               else kept ++ [segment]) l kept
  = kept ++ l.
Proof.
  induction l as [|x l IH]; intros kept; cbn [forallb fold_left].
  - by rewrite app_nil_r.
  - intros [Hx Hl]%andb_prop. unfold is_segment in Hx.
    apply andb_prop in Hx as [[[Hx1 Hx2]%andb_prop Hx3]%andb_prop Hx4].
    apply negb_true_iff in Hx1, Hx3, Hx4. rewrite Hx1, Hx3, Hx4.
    cbn [orb]. rewrite IH by done. by rewrite <- app_assoc.
Qed.

Section WithEnv.
Variable E : env.

(** [path.resolve] of what is normal already. *)
Lemma resolve_absolute p :
  is_normal_absolute p = true → resolve E p = p.
Proof.
  unfold is_normal_absolute, resolve.
  destruct p as [|c r]; [done|].
  destruct (Ascii.eqb_spec c "/") as [->|Hc];
    [|by destruct c as [[] [] [] [] [] [] [] []]; destruct r].
  change (startsWith "/" (String "/" r)) with true. cbv iota.
  destruct r as [|d r]; [reflexivity|]. intros Hr.
  unfold is_normal_relative in Hr.
  change (split "/" (String "/" (String d r)))
    with ("" :: split "/" (String d r)).
  unfold resolve_segments. cbn [fold_left is_empty orb].
  rewrite resolve_segments_normal by done. cbn [app].
  by rewrite concat_split.
Qed.

Lemma resolve_relative rel :
  is_normal_absolute (cwd E) = true →
  is_normal_relative rel = true →
  resolve E rel
  = if String.eqb (cwd E) "/" then "/" +:+ rel else join (cwd E) rel.
Proof.
  intros Hcwd Hrel. unfold resolve.
  assert (Hs : startsWith "/" rel = false).
  { unfold is_normal_relative in Hrel. destruct rel as [|c rel]; [done|].
    rewrite RunFacts.startsWith_cons.
    destruct (Ascii.eqb_spec c "/") as [->|Hc]; [|apply Ascii.eqb_neq; congruence].
    change (split "/" (String "/" rel)) with ("" :: split "/" rel) in Hrel.
    done. }
  rewrite Hs. unfold is_normal_absolute in Hcwd.
  destruct (cwd E) as [|c r]; [done|].
  destruct (Ascii.eqb_spec c "/") as [->|Hc];
    [|by destruct c as [[] [] [] [] [] [] [] []]; destruct r].
  unfold is_normal_relative in *.
  destruct r as [|d r].
  - change (String.eqb "/" "/") with true. cbv iota.
    change (split "/" ("/" +:+ "/" +:+ rel))
      with ("" :: "" :: split "/" rel).
    unfold resolve_segments. cbn [fold_left is_empty orb].
    rewrite resolve_segments_normal by done. cbn [app].
    by rewrite concat_split.
  - change (String.eqb (String "/" (String d r)) "/") with false. cbv iota.
    change (split "/" (String "/" (String d r) +:+ "/" +:+ rel))
      with ("" :: split "/" (String d r +:+ String "/" rel)).
    rewrite split_app.
    unfold resolve_segments. cbn [fold_left is_empty orb].
    rewrite resolve_segments_normal by (by rewrite forallb_app, Hcwd, Hrel).
    cbn [app].
    rewrite concat_app by apply split_not_nil.
    rewrite !concat_split. reflexivity.
Qed.

(** Taken from a normal current directory, nothing is the current
    directory. *)
Lemma resolve_nothing :
  is_normal_absolute (cwd E) = true → resolve E "" = cwd E.
Proof.
  intros Hcwd. unfold resolve. change (startsWith "/" "") with false.
  cbv iota. unfold is_normal_absolute in Hcwd.
  destruct (cwd E) as [|c r]; [done|].
  destruct (Ascii.eqb_spec c "/") as [->|Hc];
    [|by destruct c as [[] [] [] [] [] [] [] []]; destruct r].
  unfold is_normal_relative in *.
  destruct r as [|d r]; [reflexivity|].
  change (split "/" (String "/" (String d r) +:+ "/" +:+ ""))
    with ("" :: split "/" (String d r +:+ String "/" "")).
  rewrite split_app. change (split "/" "") with [""].
  unfold resolve_segments. cbn [fold_left is_empty orb].
  rewrite fold_left_app.
  rewrite (resolve_segments_normal (split "/" (String d r))) by done.
  cbn [app fold_left is_empty orb]. by rewrite concat_split.
Qed.
End WithEnv.

(** A clean slug that is not empty is one segment. *)
Lemma kebab_is_segment s :
  all_chars Subst.is_kebab_char s = true → is_empty s = false →
  is_normal_relative s = true.
Proof.
  intros Hk Hne. unfold is_normal_relative.
  assert (Hslash : all_chars (not_char "/") s = true).
  { eapply all_chars_impl; [|exact Hk].
    intros c; destruct c as [[] [] [] [] [] [] [] []]; vm_compute; congruence. }
  rewrite ReferenceFacts.split_no_sep by done. cbn [forallb].
  rewrite andb_true_r. unfold is_segment.
  rewrite Hne, (ReferenceFacts.excludes_char "/" s Hslash). cbn [negb andb].
  destruct s as [|c s]; [done|]. cbn [all_chars] in Hk.
  apply andb_prop in Hk as [Hc Hs].
  assert (Hdot : Ascii.eqb c "." = false).
  { revert Hc. destruct c as [[] [] [] [] [] [] [] []]; vm_compute; congruence. }
  cbn [String.eqb]. by rewrite Hdot.
Qed.

End PathFacts.

(** X20: without [--output], the output directory is decided by the
    answers alone.  From a normalised current directory and for a project
    name of ASCII text, it is the current directory with the SLUG of the
    project name as one more segment, and the current directory itself
    when that slug is empty (a name without letters and digits); with no
    name among the answers the segment is [new-project].  A project name
    that is not a string makes the call throw a [TypeError] before
    anything is written. *)
Theorem default_output_is_inside_cwd
    (E : Sys.env) (options answers : PQS.dict) (w : Sys.world) :
  options !! "output" = None →
  Sys.is_normal_absolute (Sys.cwd E) = true →
  (∀ projectName, PQS.projectNameOf answers = Sys.VStr projectName →
                  Js.is_ascii_text projectName = true) →
  let below (segment : string) :=
    if String.eqb (Sys.cwd E) "/" then "/" +:+ segment
    else Sys.join (Sys.cwd E) segment in
  PQS.outputPathOf E options answers w
  = (match PQS.projectNameOf answers with
     | Sys.VStr projectName =>
         let slug := Subst.transformText projectName "SLUG" in
         Sys.Ok (if Js.is_empty slug then Sys.cwd E else below slug)
     | _ => Sys.Throw "TypeError" "text.toLowerCase is not a function"
     end, w) ∧
  (∀ projectName,
     Js.is_ascii_text projectName = true →
     Js.includes "/" (Subst.transformText projectName "SLUG") = false) ∧
  ((∀ k, k ∈ ["projectName"; "name"; "project"] → answers !! k = None) →
   PQS.outputPathOf E options answers w = (Sys.Ok (below "new-project"), w)).
Proof.
  intros Hout Hcwd Hascii below.
  assert (Hslash : ∀ projectName,
     Js.includes "/" (Subst.transformText projectName "SLUG") = false).
  { intros projectName. apply ReferenceFacts.excludes_char.
    eapply JsFacts.all_chars_impl; [|apply SlugFacts.SLUG_alphabet].
    intros c; destruct c as [[] [] [] [] [] [] [] []]; vm_compute; congruence. }
  assert (Hgen : PQS.outputPathOf E options answers w
  = (match PQS.projectNameOf answers with
     | Sys.VStr projectName =>
         let slug := Subst.transformText projectName "SLUG" in
         Sys.Ok (if Js.is_empty slug then Sys.cwd E else below slug)
     | _ => Sys.Throw "TypeError" "text.toLowerCase is not a function"
     end, w)).
  { unfold PQS.outputPathOf. rewrite Hout.
    destruct (PQS.projectNameOf answers) as [| |projectName|]; try done.
    cbv zeta. unfold Sys.ret. do 2 f_equal.
    destruct (Js.is_empty _) eqn:He.
    - destruct (Subst.transformText projectName "SLUG"); [|done].
      by apply PathFacts.resolve_nothing.
    - apply PathFacts.resolve_relative; [done|].
      apply PathFacts.kebab_is_segment; [apply SlugFacts.SLUG_alphabet|done]. }
  split; [exact Hgen|]. split; [intros projectName _; apply Hslash|].
  intros Hnone. rewrite Hgen. unfold PQS.projectNameOf.
  rewrite !Hnone by (repeat constructor). reflexivity.
Qed.

Lemma default_output_is_inside_cwd_witness :
  PQS.outputPathOf Scenario.env_run1 ∅ (<["name" := Sys.VStr "My App!"]> ∅)
    Scenario.world0
  = (Sys.Ok "/work/my-app", Scenario.world0) ∧
  PQS.outputPathOf Scenario.env_run1 ∅ (<["name" := Sys.VStr "!!!"]> ∅)
    Scenario.world0
  = (Sys.Ok "/work", Scenario.world0) ∧
  PQS.outputPathOf Scenario.env_run1 ∅ (<["name" := Sys.VBool true]> ∅)
    Scenario.world0
  = (Sys.Throw "TypeError" "text.toLowerCase is not a function",
     Scenario.world0).
Proof.
  split; [|split].
  - destruct (default_output_is_inside_cwd Scenario.env_run1 ∅
                (<["name" := Sys.VStr "My App!"]> ∅) Scenario.world0)
      as (H & _); [reflexivity|reflexivity| |].
    + intros projectName Hname. vm_compute in Hname.
      by injection Hname as <-.
    + rewrite H. vm_compute. reflexivity.
  - destruct (default_output_is_inside_cwd Scenario.env_run1 ∅
                (<["name" := Sys.VStr "!!!"]> ∅) Scenario.world0)
      as (H & _); [reflexivity|reflexivity| |].
    + intros projectName Hname. vm_compute in Hname.
      by injection Hname as <-.
    + rewrite H. vm_compute. reflexivity.
  - destruct (default_output_is_inside_cwd Scenario.env_run1 ∅
                (<["name" := Sys.VBool true]> ∅) Scenario.world0)
      as (H & _); [reflexivity|reflexivity| |].
    + intros projectName Hname. vm_compute in Hname. discriminate.
    + rewrite H. vm_compute. reflexivity.
Defined.

Module StepFacts.
Import Js Sys PQS.

(** Computations that end by returning or by throwing. *)
Lemma bind_no_exit {A B} (m : M A) (k : A → M B) :
  (∀ w st w', m w ≠ (Exit st, w')) →
  (∀ a w st w', k a w ≠ (Exit st, w')) →
  ∀ w st w', bind m k w ≠ (Exit st, w').
Proof.
  intros Hm Hk w st w'. unfold bind.
  destruct (m w) as [[a|n msg|st'] w1] eqn:Hmw; [apply Hk|done|].
  by destruct (Hm w st' w1).
Qed.

Lemma for_each_no_exit {A} (body : A → M unit) (l : list A) :
  (∀ x w st w', body x w ≠ (Exit st, w')) →
  ∀ w st w', for_each l body w ≠ (Exit st, w').
Proof.
  intros Hbody. induction l as [|x l IH]; [done|].
  cbn [for_each]. apply bind_no_exit; [apply Hbody|]. intros _. apply IH.
Qed.

Lemma for_each_ok {A} (body : A → M unit) (l : list A) :
  (∀ x w, ∃ w', body x w = (Ok tt, w')) →
  ∀ w, ∃ w', for_each l body w = (Ok tt, w').
Proof.
  intros Hbody. induction l as [|x l IH]; intros w; [by eexists|].
  cbn [for_each]. unfold bind. destruct (Hbody x w) as (w1 & ->). apply IH.
Qed.

(** A [try] whose handler returns, around a body that does not leave the
    process, returns. *)
Lemma try_catch_ok (m : M unit) (h : string → string → M unit) :
  (∀ w st w', m w ≠ (Exit st, w')) →
  (∀ n msg w, ∃ w', h n msg w = (Ok tt, w')) →
  ∀ w, ∃ w', try_catch m h w = (Ok tt, w').
Proof.
  intros Hm Hh w. unfold try_catch.
  destruct (m w) as [[[]|n msg|st] w1] eqn:Hmw; [by eexists|apply Hh|].
  by destruct (Hm w st w1).
Qed.

Section WithEnv.
Variable E : env.

Lemma copy_file_no_exit srcPath destPath w st w' :
  copy_file srcPath destPath w ≠ (Exit st, w').
Proof.
  unfold copy_file, ensure_dir, bind, emit, write.
  cbn [fs index_doc now uuids log].
  destruct (mkdirs _ _); [|done].
  cbn [fs index_doc now uuids log]. by destruct (copy _ _ _).
Qed.

Lemma replace_in_file_ok filePath values w :
  ∃ w', replace_in_file E filePath values w = (Ok tt, w').
Proof.
  apply try_catch_ok; [|intros; by eexists].
  clear w. intros w st w'. unfold bind at 1 2, emit at 1, get_fs at 1.
  cbn [fs index_doc now uuids log].
  destruct (readFile _ filePath) as [content|]; [|done].
  unfold bind at 1.
  match goal with |- context [Subst.performSubstitutions E content values ?w1] =>
    destruct (SubstFacts.performSubstitutions_ok E content values w1)
      as (r & w2 & ->) end.
  unfold bind, emit, get_fs, put_fs, throw.
  cbn [fs index_doc now uuids log]. by destruct (writeFile _ _ _).
Qed.

Lemma processStep_ok t outputPath answers dryRun s w :
  ∃ w', processStep E t outputPath answers dryRun s w = (Ok tt, w').
Proof.
  unfold processStep. destruct (s_body s) as [files|command|source dest excl|type].
  - (* replace *)
    unfold processReplaceStep, bind, get_fs.
    destruct dryRun; [by eexists|].
    apply for_each_ok. intros file w1. apply replace_in_file_ok.
  - (* command *)
    unfold processCommandStep.
    destruct (condition_fails _ _); [by eexists|].
    destruct dryRun; [by eexists|]. unfold bind at 1.
    match goal with |- context [(match ?d with Some _ => _ | None => _ end) w] =>
      assert (∃ w1, (match d with
                     | Some d0 => if is_empty d0 then ret tt else emit (ELog d0)
                     | None => ret tt end) w = (Ok tt, w1)) as (w1 & ->)
        by (destruct d as [d0|]; [destruct (is_empty d0)|]; by eexists)
    end.
    apply try_catch_ok; [|intros; by eexists].
    clear. intros w st w'. unfold bind at 1, execAsync.
    destruct (sh E command (Some outputPath) (fs w)) as [f [out err|msg]];
      [|done].
    destruct (negb (is_empty out)), (negb (is_empty err)); done.
  - (* copy *)
    unfold processCopyStep.
    destruct (condition_fails _ _); [by eexists|].
    destruct dryRun.
    + unfold bind, emit. destruct excl; by eexists.
    + apply try_catch_ok; [|intros; by eexists].
      clear. intros w st w'. unfold bind at 1, get_fs at 1.
      destruct (negb (pathExists _ _)); [done|].
      destruct (isDirectory _ _); [|apply copy_file_no_exit].
      apply bind_no_exit.
      * clear. intros w st w'. unfold getFilesToCopy, bind, get_fs.
        by destruct excl.
      * intros filesToCopy. apply for_each_no_exit.
        intros file. apply copy_file_no_exit.
  - by eexists.
Qed.
End WithEnv.

End StepFacts.

(** X21: no step aborts the creation of a project.  Whatever the template,
    the answers, the files and the environment, processing the steps
    returns: a command that fails, a file that cannot be read or written
    and a copy that fails are logged or passed over, and the next step
    runs. *)
Theorem steps_never_abort
    (E : Sys.env) (t : PQS.template) (outputPath : string)
    (answers : PQS.dict) (dryRun : bool) (steps : list PQS.step)
    (w : Sys.world) :
  ∃ w',
    PQS.for_each steps (PQS.processStep E t outputPath answers dryRun) w
    = (Sys.Ok tt, w').
Proof.
  apply StepFacts.for_each_ok. intros s w1. apply StepFacts.processStep_ok.
Qed.

Module AskFacts.
Import Js Sys PQS.

Section WithEnv.
Variable E : env.
Variable cliArgs : dict.

Lemma ask_given answers q v w :
  CommandLine.given cliArgs q = Some v →
  ask E cliArgs answers q w = (Ok (<[q_name q := v]> answers), w).
Proof.
  unfold CommandLine.given, ask. destruct (q_argument q) as [a|].
  - destruct (is_empty a).
    + by intros ->.
    + destruct (cliArgs !! a) as [v'|]; [by intros [= ->]|]. by intros ->.
  - by intros ->.
Qed.

Lemma ask_all_given (l : list question) : ∀ answers w,
  (∀ q, q ∈ l → is_Some (CommandLine.given cliArgs q)) →
  ∃ answers',
    fold_M l (ask E cliArgs) answers w = (Ok answers', w) ∧
    dom answers' = dom answers ∪ list_to_set (q_name <$> l) ∧
    (∀ k, k ∉ q_name <$> l → answers' !! k = answers !! k) ∧
    (NoDup (q_name <$> l) → ∀ q, q ∈ l → answers' !! q_name q = CommandLine.given cliArgs q).
Proof.
  induction l as [|q l IH]; intros answers w Hall.
  - exists answers. split; [done|].
    split; [cbn; by rewrite (right_id_L ∅ (∪))|]. split; [done|].
    intros _ q Hq. by apply elem_of_nil in Hq.
  - destruct (Hall q) as [v Hv]; [by left|].
    cbn [fold_M]. unfold bind. rewrite (ask_given _ _ _ _ Hv).
    destruct (IH (<[q_name q := v]> answers) w) as (answers' & -> & Hdom & Hout & Hin).
    { intros q' Hq'. apply Hall. by right. }
    exists answers'. split; [done|]. split; [|split].
    + rewrite Hdom, dom_insert_L, fmap_cons, list_to_set_cons.
      apply set_eq. intros k. rewrite !elem_of_union. tauto.
    + intros k Hk. rewrite fmap_cons in Hk. apply not_elem_of_cons in Hk as [Hne Hk].
      rewrite (Hout k Hk). by rewrite lookup_insert_ne.
    + rewrite fmap_cons. intros [Hq Hnd]%NoDup_cons q' [->|Hq']%elem_of_cons.
      * rewrite (Hout _ Hq). by rewrite lookup_insert_eq.
      * by apply Hin.
Qed.

End WithEnv.

End AskFacts.

(** X22: answers given on the command line are never asked for.  The
    questions are named, and refer to the command line, by names that are
    not those every object inherits.  When every question of a template
    has a value on the command line, under its [argument] or else under
    its name, [askQuestions] returns without a prompt and without any
    other effect, whatever the types of the questions; the answers hold
    exactly the names of the questions, and for questions with distinct
    names each answer is the value under the [argument] when there is one,
    and the value under the name otherwise. *)
Theorem cli_answers_are_not_prompted
    (E : Sys.env) (t : PQS.template) (cliArgs : PQS.dict) (w : Sys.world) :
  (∀ q, q ∈ PQS.t_questions t → CommandLine.own_names q = true) →
  (∀ q, q ∈ PQS.t_questions t → is_Some (CommandLine.given cliArgs q)) →
  ∃ answers,
    PQS.askQuestions E t cliArgs w = (Sys.Ok answers, w) ∧
    dom answers = list_to_set (PQS.q_name <$> PQS.t_questions t) ∧
    (NoDup (PQS.q_name <$> PQS.t_questions t) →
     ∀ q, q ∈ PQS.t_questions t → answers !! PQS.q_name q = CommandLine.given cliArgs q).
Proof.
  intros _ Hall.
  destruct (AskFacts.ask_all_given E cliArgs (PQS.t_questions t) ∅ w Hall)
    as (answers & Hrun & Hdom & _ & Hin).
  exists answers. split; [exact Hrun|]. split; [|exact Hin].
  by rewrite Hdom, dom_empty_L, (left_id_L ∅ (∪)).
Qed.

Lemma cli_answers_are_not_prompted_witness :
  let cliArgs : PQS.dict :=
    <["first" := Sys.VBool true]> (<["second" := Sys.VStr "x"]> ∅) in
  ∃ answers,
    PQS.askQuestions Scenario.env_run1 Scenario.template_questions cliArgs
      Scenario.world0
    = (Sys.Ok answers, Scenario.world0) ∧
    dom answers
    = list_to_set (PQS.q_name <$> PQS.t_questions Scenario.template_questions).
Proof.
  destruct (cli_answers_are_not_prompted Scenario.env_run1
              Scenario.template_questions
              (<["first" := Sys.VBool true]> (<["second" := Sys.VStr "x"]> ∅))
              Scenario.world0)
    as (answers & Hrun & Hdom & _).
  { intros q Hq. unfold Scenario.template_questions in Hq.
    cbn [PQS.t_questions] in Hq.
    apply elem_of_cons in Hq as [->|Hq]; [vm_compute; reflexivity|].
    apply list_elem_of_singleton in Hq as ->. vm_compute. reflexivity. }
  { intros q Hq. unfold Scenario.template_questions in Hq.
    cbn [PQS.t_questions] in Hq.
    apply elem_of_cons in Hq as [->|Hq]; [vm_compute; by eexists|].
    apply list_elem_of_singleton in Hq as ->. vm_compute. by eexists. }
  exists answers. by split.
Defined.

Module AskExitFacts.
Import Js Sys PQS.


End AskExitFacts.


Module TokenFacts.
Import Js JsFacts Sys Subst SubstFacts.

Section Engine.
Variable E : env.

(** Any token [{{PQS:placeholder}}] is found where it starts. *)
Lemma token_at_any values placeholder rest :
  is_empty placeholder = false →
  all_chars (not_char "}") placeholder = true →
  token_at E values ("{{PQS:" +:+ placeholder +:+ "}}" +:+ rest) =
  Some (substitute E values ("{{PQS:" +:+ placeholder +:+ "}}") placeholder,
        (String.length placeholder + 8)%nat).
Proof.
  intros Hne Hph. unfold token_at.
  rewrite strip_prefix_app. cbn [mbind option_bind].
  change ("}}" +:+ rest) with (String "}" (String "}" rest)).
  rewrite take_while_stop, drop_while_stop by done.
  change (String "}" (String "}" rest)) with ("}}" +:+ rest).
  rewrite strip_prefix_app. cbn [mbind option_bind].
  by rewrite Hne.
Qed.

Lemma performSubstitutions_any values placeholder rest w :
  is_empty placeholder = false →
  all_chars (not_char "}") placeholder = true →
  performSubstitutions E ("{{PQS:" +:+ placeholder +:+ "}}" +:+ rest) values w =
  (let* r := substitute E values ("{{PQS:" +:+ placeholder +:+ "}}") placeholder in
   let* rest' := performSubstitutions E rest values in
   ret (r +:+ rest')) w.
Proof.
  intros Hne Hph. unfold performSubstitutions.
  pose proof (token_at_any values placeholder rest Hne Hph) as Ht.
  replace ("{{PQS:" +:+ placeholder +:+ "}}" +:+ rest)
    with (String "{" ("{PQS:" +:+ placeholder +:+ "}}") +:+ rest) in *
    by (cbn; by rewrite append_assoc).
  apply replace_all_M_match. rewrite Ht. do 2 f_equal.
  cbn. rewrite !length_app. cbn. lia.
Qed.
End Engine.

End TokenFacts.

(** X24: a token whose placeholder is not a call, such as [{{PQS:name}}]
    or [{{PQS:UUID()}}] with its empty argument, is replaced by the string
    form of the value of that name (a value printed without an exponent),
    and is left as it stands when the name has no value and is not a name
    every object inherits.  The token stands behind any text that does not
    end inside a token and before any text; the text before and the text
    behind are substituted on their own, in this order.  The text put in
    is not scanned again, so a value that holds a token stays a token. *)
Theorem plain_placeholder_is_replaced_once
    (E : Sys.env) (values : gmap string Sys.jsval)
    (pre placeholder rest : string) (w : Sys.world) :
  Subst.open_token pre = false →
  Js.is_empty placeholder = false →
  Js.all_chars (Js.not_char "}") placeholder = true →
  Subst.transformMatch placeholder = None →
  match values !! placeholder with
  | Some v => Subst.is_decimal v = true
  | None => placeholder ∉ Js.object_prototype_members
  end →
  ∃ before w1 behind w2,
    Subst.performSubstitutions E pre values w = (Sys.Ok before, w1) ∧
    Subst.performSubstitutions E rest values w1 = (Sys.Ok behind, w2) ∧
    Subst.performSubstitutions E
      (pre +:+ "{{PQS:" +:+ placeholder +:+ "}}" +:+ rest) values w
    = (Sys.Ok (before
               +:+ match values !! placeholder with
                   | Some v => Subst.to_string v
                   | None => "{{PQS:" +:+ placeholder +:+ "}}"
                   end
               +:+ behind), w2).
Proof.
  intros Hpre Hne Hph Hcall _.
  destruct (SubstFacts.performSubstitutions_ok E pre values w)
    as (before & w1 & Hbefore).
  destruct (SubstFacts.performSubstitutions_ok E rest values w1)
    as (behind & w2 & Hbehind).
  exists before, w1, behind, w2. split; [done|]. split; [done|].
  rewrite ScanFacts.performSubstitutions_app by done.
  unfold Sys.bind at 1. rewrite Hbefore. unfold Sys.bind at 1.
  rewrite TokenFacts.performSubstitutions_any by done.
  unfold Sys.bind at 1. unfold Subst.substitute. rewrite Hcall.
  destruct (values !! placeholder) as [v|]; cbn [Sys.ret];
    unfold Sys.bind; by rewrite Hbehind.
Qed.

Lemma plain_placeholder_is_replaced_once_witness :
  let values : gmap string Sys.jsval :=
    <["a" := Sys.VStr "{{PQS:b}}"]> (<["b" := Sys.VStr "x"]> ∅) in
  Subst.performSubstitutions Scenario.env_run1
    ("{ b: {{PQS:b}}, id: " +:+ "{{PQS:" +:+ "UUID()" +:+ "}}"
     +:+ ", a: {{PQS:a}}")
    values Scenario.world0
  = (Sys.Ok ("{ b: x, id: " +:+ "{{PQS:" +:+ "UUID()" +:+ "}}"
             +:+ ", a: {{PQS:b}}"),
     Scenario.world0).
Proof.
  cbv zeta.
  destruct (plain_placeholder_is_replaced_once Scenario.env_run1
              (<["a" := Sys.VStr "{{PQS:b}}"]> (<["b" := Sys.VStr "x"]> ∅))
              "{ b: {{PQS:b}}, id: " "UUID()" ", a: {{PQS:a}}"
              Scenario.world0)
    as (before & w1 & behind & w2 & Hbefore & Hbehind & ->);
    [ reflexivity | reflexivity | reflexivity | reflexivity
    | apply (bool_decide_unpack _); vm_compute; exact I | ].
  vm_compute in Hbefore. injection Hbefore as <- <-.
  vm_compute in Hbehind. injection Hbehind as <- <-.
  reflexivity.
Defined.

(** X25: every [{{PQS:UUID(arg)}}] token draws a new identifier, in the
    order of the tokens; the argument names nothing, so two tokens with the
    same argument get two different draws, and the values play no part.
    Nothing else changes. *)
Theorem UUID_draws_a_new_identifier_per_token
    (E : Sys.env) (values : gmap string Sys.jsval)
    (a b mid : string) (w : Sys.world) :
  Js.is_empty a = false → Js.all_chars (Js.not_char ")") a = true →
  Js.all_chars (Js.not_char "}") a = true →
  Js.is_empty b = false → Js.all_chars (Js.not_char ")") b = true →
  Js.all_chars (Js.not_char "}") b = true →
  Js.all_chars (Js.not_char "{") mid = true →
  Subst.performSubstitutions E
    ("{{PQS:" +:+ ("UUID" +:+ "(" +:+ a +:+ ")") +:+ "}}" +:+ mid
     +:+ "{{PQS:" +:+ ("UUID" +:+ "(" +:+ b +:+ ")") +:+ "}}" +:+ "")
    values w
  = (Sys.Ok (Sys.uuid E (Sys.uuids w) +:+ mid
             +:+ Sys.uuid E (S (Sys.uuids w))),
     Sys.World (Sys.fs w) (Sys.index_doc w) (Sys.now w)
       (S (S (Sys.uuids w))) (Sys.log w)).
Proof.
  intros Ha Hpa Hba Hb Hpb Hbb Hmid.
  assert (Hcall : ∀ x original w1,
    Js.is_empty x = false → Js.all_chars (Js.not_char ")") x = true →
    Subst.substitute E values original ("UUID" +:+ "(" +:+ x +:+ ")") w1
    = Subst.generateUUID E w1).
  { intros x original w1 Hx Hpx. unfold Subst.substitute.
    by rewrite (SubstFacts.transformMatch_call "UUID" x). }
  rewrite (SubstFacts.performSubstitutions_token E values "UUID" a) by done.
  cbv zeta. unfold Sys.bind at 1. rewrite Hcall by done.
  unfold Subst.generateUUID at 1. unfold Sys.bind at 1.
  erewrite SubstFacts.performSubstitutions_prefix; [reflexivity|done|].
  rewrite (SubstFacts.performSubstitutions_token E values "UUID" b) by done.
  cbv zeta. unfold Sys.bind at 1. rewrite Hcall by done.
  unfold Subst.generateUUID at 1.
  cbn [Sys.fs Sys.index_doc Sys.now Sys.uuids Sys.log].
  unfold Sys.bind, Subst.performSubstitutions. cbn [Subst.replace_all_M Sys.ret].
  by rewrite JsFacts.append_nil_r.
Qed.

Lemma UUID_draws_a_new_identifier_per_token_witness :
  Subst.performSubstitutions Scenario.env_run1
    ("{{PQS:" +:+ ("UUID" +:+ "(" +:+ "id" +:+ ")") +:+ "}}" +:+ " / "
     +:+ "{{PQS:" +:+ ("UUID" +:+ "(" +:+ "id" +:+ ")") +:+ "}}" +:+ "")
    (<["id" := Sys.VStr "fixed"]> ∅) Scenario.world0
  = (Sys.Ok (Sys.uuid Scenario.env_run1 (Sys.uuids Scenario.world0) +:+ " / "
             +:+ Sys.uuid Scenario.env_run1 (S (Sys.uuids Scenario.world0))),
     Sys.World (Sys.fs Scenario.world0) (Sys.index_doc Scenario.world0)
       (Sys.now Scenario.world0) (S (S (Sys.uuids Scenario.world0)))
       (Sys.log Scenario.world0)).
Proof.
  apply (UUID_draws_a_new_identifier_per_token Scenario.env_run1
           (<["id" := Sys.VStr "fixed"]> ∅) "id" "id" " / " Scenario.world0);
    reflexivity.
Defined.

Module CopyFacts.
Import Js JsFacts Sys PQS.

(** [ensureDir] puts no regular file anywhere. *)
Lemma ensureDir_no_new_file (f : files) d q c :
  ensureDir f d !! q = Some (File c) → f !! q = Some (File c).
Proof. by intros [?|[? _]]%EnsureDirFacts.ensureDir_lookup_inv. Qed.

Lemma free_way_spec (f : files) p :
  free_way f p = true ↔
  ∀ q, q ∈ dir_chain "" p → ∀ c, f !! q ≠ Some (File c).
Proof.
  unfold free_way. rewrite forallb_forall. split.
  - intros H q Hq c Hc. apply list_elem_of_In in Hq. specialize (H q Hq).
    by rewrite Hc in H.
  - intros H q Hq. apply list_elem_of_In in Hq.
    destruct (f !! q) as [[c|]|] eqn:Hf; [|done..]. by destruct (H q Hq c).
Qed.

Lemma free_way_ensureDir (f : files) d p :
  free_way f p = true → free_way (ensureDir f d) p = true.
Proof.
  rewrite !free_way_spec. intros H q Hq c Hc.
  apply ensureDir_no_new_file in Hc. by apply (H q Hq c).
Qed.

Lemma mkdirs_free (f : files) p :
  free_way f p = true → mkdirs f p = FsOk (ensureDir f p).
Proof. unfold mkdirs. by intros ->. Qed.

(** [copy_file] of a file that is there, to a place that can take it. *)
Lemma copy_file_File srcPath destPath content w :
  fs w !! srcPath = Some (File content) →
  srcPath ≠ destPath →
  fs w !! destPath ≠ Some Dir →
  destPath ∉ dir_chain "" (dirname destPath) →
  free_way (fs w) (dirname destPath) = true →
  ∃ l,
    copy_file srcPath destPath w
    = (Ok tt,
       World (<[destPath := File content]>
                (ensureDir (ensureDir (fs w) (dirname destPath))
                           (dirname destPath)))
             (index_doc w) (now w) (uuids w) l).
Proof.
  intros Hsrc Hne Hdst Hway Hfree.
  unfold copy_file, ensure_dir, bind, emit, write.
  cbn [fs index_doc now uuids log].
  rewrite (mkdirs_free _ _ Hfree). cbn [fs index_doc now uuids log].
  unfold copy.
  rewrite (CacheFacts.ensureDir_lookup_Some _ _ _ _ Hsrc).
  apply String.eqb_neq in Hne. rewrite Hne.
  rewrite (mkdirs_free _ _ (free_way_ensureDir _ _ _ Hfree)).
  destruct (ensureDir (fs w) (dirname destPath) !! destPath) as [[c|]|] eqn:Hd;
    [by eexists| |by eexists].
  apply EnsureDirFacts.ensureDir_lookup_inv in Hd as [Hd|[_ Hd]]; done.
Qed.

(** The copy is refused where a directory stands. *)
Lemma copy_file_over_directory srcPath destPath content w :
  fs w !! srcPath = Some (File content) →
  fs w !! destPath = Some Dir →
  ∃ message w',
    copy_file srcPath destPath w = (Throw "Error" message, w') ∧
    fs w' !! destPath = Some Dir ∧
    (∀ p x, fs w !! p = Some x → fs w' !! p = Some x) ∧
    index_doc w' = index_doc w.
Proof.
  intros Hsrc Hdst.
  unfold copy_file, ensure_dir, bind, emit, write.
  cbn [fs index_doc now uuids log].
  destruct (mkdirs (fs w) (dirname destPath)) as [f|message] eqn:Hmk;
    cbn [fs index_doc now uuids log].
  - assert (f = ensureDir (fs w) (dirname destPath)) as ->.
    { unfold mkdirs in Hmk. destruct (free_way _ _); [by injection Hmk|].
      by destruct (fs w !! dirname destPath) as [[?|]|]. }
    unfold copy.
    rewrite (CacheFacts.ensureDir_lookup_Some _ _ _ _ Hsrc).
    rewrite (CacheFacts.ensureDir_lookup_Some _ _ _ _ Hdst).
    destruct (String.eqb srcPath destPath); eexists _, _;
      (split; [reflexivity|]); cbn [fs index_doc];
      (split; [by apply CacheFacts.ensureDir_lookup_Some|]);
      (split; [|done]); intros p x Hp;
      by apply CacheFacts.ensureDir_lookup_Some.
  - eexists _, _. split; [reflexivity|]. cbn [fs index_doc]. by repeat split.
Qed.

Lemma before_last_slash_Some p : ∀ d,
  before_last_slash p = Some d → ∃ name, p = d +:+ String "/" name.
Proof.
  induction p as [|c p IH]; intros d; [done|]. cbn [before_last_slash].
  destruct (before_last_slash p) as [d'|].
  - intros [= <-]. destruct (IH d' eq_refl) as [name ->]. by exists name.
  - destruct (Ascii.eqb_spec c "/") as [->|_]; [|done].
    intros [= <-]. by exists p.
Qed.

Lemma before_last_slash_join a b :
  ∃ r, before_last_slash (join a b) = Some (a +:+ r).
Proof.
  unfold join. induction a as [|c a [r IH]].
  - cbn [String.append before_last_slash].
    destruct (before_last_slash b) as [d|]; by eexists.
  - change (String c a +:+ "/" +:+ b) with (String c (a +:+ "/" +:+ b)).
    cbn [before_last_slash]. rewrite IH. by exists r.
Qed.

(** A path below a directory is none of the directories on the way to
    its parent. *)
Lemma dest_not_on_its_way a b :
  is_empty a = false → join a b ∉ dir_chain "" (dirname (join a b)).
Proof.
  intros Ha. destruct (before_last_slash_join a b) as [r Hd].
  destruct (before_last_slash_Some _ _ Hd) as [name Hp].
  unfold dirname. rewrite Hd.
  replace (match a +:+ r with "" => "/" | _ => a +:+ r end) with (a +:+ r)
    by (by destruct a).
  intros (x & y & Hxy & Hq)%EnsureDirFacts.dir_chain_prefix.
  cbn [String.append] in Hq. rewrite Hq in Hp. rewrite Hxy in Hp.
  apply (f_equal String.length) in Hp. rewrite !length_app in Hp.
  cbn [String.length] in Hp. lia.
Qed.

Lemma normal_base_not_empty p : is_normal_base p = true → is_empty p = false.
Proof. by destruct p. Qed.

Lemma copy_files_spec (templatePath outputPath : string) (l : list string) :
  ∀ w,
  (∀ file, file ∈ l →
     ∃ content, fs w !! join templatePath file = Some (File content)) →
  (∀ file other, file ∈ l → other ∈ l →
     join outputPath file ≠ join templatePath other) →
  (∀ file, file ∈ l → fs w !! join outputPath file ≠ Some Dir) →
  (∀ file, file ∈ l →
     free_way (fs w) (dirname (join outputPath file)) = true) →
  (∀ file other, file ∈ l → other ∈ l →
     join outputPath file ∉ dir_chain "" (dirname (join outputPath other))) →
  ∃ w',
    for_each l (λ file, copy_file (join templatePath file)
                                  (join outputPath file)) w = (Ok tt, w') ∧
    index_doc w' = index_doc w ∧
    (∀ file content, file ∈ l →
       fs w !! join templatePath file = Some (File content) →
       fs w' !! join outputPath file = Some (File content)) ∧
    (∀ p x, fs w !! p = Some x →
       (∀ file, file ∈ l → p ≠ join outputPath file) →
       fs w' !! p = Some x).
Proof.
  induction l as [|file l IH]; intros w Hsrc Hapart Hnodir Hfree Hway.
  - exists w. split; [done|]. split; [done|]. split; [|done].
    intros file content Hin. by apply elem_of_nil in Hin.
  - destruct (Hsrc file) as [content Hfile]; [by left|].
    cbn [for_each]. unfold bind.
    destruct (copy_file_File _ (join outputPath file) _ _ Hfile) as (l1 & ->).
    { intros Heq. by apply (Hapart file file); [left|left|]. }
    { apply Hnodir. by left. }
    { apply Hway; by left. }
    { apply Hfree. by left. }
    set (w1 := World _ _ _ _ _).
    assert (Hkeep : ∀ p x, fs w !! p = Some x → p ≠ join outputPath file →
                           fs w1 !! p = Some x).
    { intros p x Hp Hne. unfold w1. cbn [fs].
      rewrite lookup_insert_ne by done.
      by do 2 apply CacheFacts.ensureDir_lookup_Some. }
    assert (Hback : ∀ p x, fs w1 !! p = Some x → p ≠ join outputPath file →
                           fs w !! p = Some x
                           ∨ (x = Dir ∧
                              p ∈ dir_chain "" (dirname (join outputPath file)))).
    { intros p x Hp Hne. unfold w1 in Hp. cbn [fs] in Hp.
      rewrite lookup_insert_ne in Hp by done.
      apply EnsureDirFacts.ensureDir_lookup_inv in Hp as [Hp|Hp]; [|by right].
      apply EnsureDirFacts.ensureDir_lookup_inv in Hp as [Hp|Hp];
        [by left|by right]. }
    destruct (IH w1) as (w' & Hrun & Hi & Hcopied & Hrest).
    { intros other Hother. destruct (Hsrc other) as [c Hc]; [by right|].
      exists c. apply Hkeep; [done|]. intros Heq.
      by apply (Hapart file other); [left|right|]. }
    { intros f g Hf Hg. apply Hapart; by right. }
    { intros g Hg Hdir.
      destruct (decide (join outputPath g = join outputPath file)) as [Heq|Hne].
      - unfold w1 in Hdir. cbn [fs] in Hdir.
        by rewrite Heq, lookup_insert_eq in Hdir.
      - apply Hback in Hdir as [Hdir|[_ Hdir]]; [| |done].
        + by apply (Hnodir g); [right|].
        + by apply (Hway g file); [right|left|]. }
    { intros g Hg. apply free_way_spec. intros q Hq c Hc.
      destruct (decide (q = join outputPath file)) as [->|Hne].
      - by apply (Hway file g); [left|right|].
      - apply Hback in Hc as [Hc|[? _]]; [|done|done].
        assert (Hf : free_way (fs w) (dirname (join outputPath g)) = true)
          by (apply Hfree; by right).
        rewrite free_way_spec in Hf. by apply (Hf q Hq c). }
    { intros f g Hf Hg. apply Hway; by right. }
    exists w'. split; [exact Hrun|]. split; [by rewrite Hi|]. split.
    + intros f c [->|Hf]%elem_of_cons Hc.
      * assert (c = content) as -> by congruence.
        destruct (decide (file ∈ l)) as [Hin|Hout].
        -- apply Hcopied; [done|]. apply Hkeep; [done|]. intros Heq.
           by apply (Hapart file file); [left|left|].
        -- apply Hrest.
           ++ unfold w1. cbn [fs]. by rewrite lookup_insert_eq.
           ++ intros g Hg Heq. apply OrphanFacts.join_inj in Heq. by subst.
      * apply Hcopied; [done|]. apply Hkeep; [done|]. intros Heq.
        by apply (Hapart file f); [left|right|].
    + intros p x Hp Hne. apply Hrest.
      * apply Hkeep; [done|]. apply Hne. by left.
      * intros g Hg. apply Hne. by right.
Qed.
End CopyFacts.

(** X26: the copy phase of a real run reproduces the template.  The paths
    are normalised.  The names [glob] lists and that pass the exclusions
    name files of the template; no destination is a path of the template,
    none is a directory, no regular file stands on the way to one and none
    lies on the way to another (as it is when the sources are files of one
    directory).  Then [copyTemplate] returns those names, every one of
    them is afterwards a file of the output directory with the content it
    has in the template, and every path that is not a destination keeps
    what it held, the template included. *)
Theorem copyTemplate_reproduces_the_files
    (E : Sys.env) (templatePath outputPath : string)
    (excludePatterns : list string) (w : Sys.world) :
  let normalized :=
    map (λ pattern, if PQS.has_magic pattern then pattern
                    else "**/" +:+ pattern +:+ "/**") excludePatterns in
  let copied :=
    List.filter (λ file, negb (PQS.excluded E normalized file))
      (Sys.glob E "**/*" (PQS.all_files_options templatePath) (Sys.fs w)) in
  Sys.is_normal_base templatePath = true →
  Sys.is_normal_base outputPath = true →
  (∀ file, file ∈ copied → Sys.is_normal_relative file = true) →
  (∀ file, file ∈ copied →
     ∃ content,
       Sys.fs w !! Sys.join templatePath file = Some (Sys.File content)) →
  (∀ file other, file ∈ copied → other ∈ copied →
     Sys.join outputPath file ≠ Sys.join templatePath other) →
  (∀ file, file ∈ copied →
     Sys.fs w !! Sys.join outputPath file ≠ Some Sys.Dir) →
  (∀ file, file ∈ copied →
     Sys.free_way (Sys.fs w) (Sys.dirname (Sys.join outputPath file)) = true) →
  (∀ file other, file ∈ copied → other ∈ copied →
     Sys.join outputPath file
     ∉ Sys.dir_chain "" (Sys.dirname (Sys.join outputPath other))) →
  ∃ w',
    PQS.copyTemplate E templatePath outputPath excludePatterns false w
      = (Sys.Ok copied, w') ∧
    (∀ file content, file ∈ copied →
       Sys.fs w !! Sys.join templatePath file = Some (Sys.File content) →
       Sys.fs w' !! Sys.join outputPath file = Some (Sys.File content)) ∧
    (∀ p x, Sys.fs w !! p = Some x →
       (∀ file, file ∈ copied → p ≠ Sys.join outputPath file) →
       Sys.fs w' !! p = Some x) ∧
    Sys.index_doc w' = Sys.index_doc w.
Proof.
  intros normalized copied _ _ _ Hsrc Hapart Hnodir Hfree Hway.
  unfold PQS.copyTemplate. unfold Sys.bind at 1, Sys.get_fs at 1.
  fold normalized. fold copied. unfold Sys.bind at 1.
  destruct (CopyFacts.copy_files_spec templatePath outputPath copied w
              Hsrc Hapart Hnodir Hfree Hway)
    as (w' & -> & Hi & Hcopied & Hrest).
  exists w'. by repeat split.
Qed.

Lemma copyTemplate_reproduces_the_files_witness :
  ∃ w',
    PQS.copyTemplate Scenario.env_run1 "/tpl" "/out" [] false Scenario.world0
      = (Sys.Ok ["a.txt"], w') ∧
    Sys.fs w' !! "/out/a.txt" = Some (Sys.File "{{PQS:greeting}} world") ∧
    Sys.fs w' !! "/tpl/a.txt" = Some (Sys.File "{{PQS:greeting}} world").
Proof.
  assert (Hone : ∀ file,
    file ∈ List.filter (λ file, negb (PQS.excluded Scenario.env_run1 [] file))
             (Sys.glob Scenario.env_run1 "**/*" (PQS.all_files_options "/tpl")
                (Sys.fs Scenario.world0)) → file = "a.txt").
  { intros file Hin. vm_compute in Hin.
    by apply list_elem_of_singleton in Hin. }
  destruct (copyTemplate_reproduces_the_files Scenario.env_run1 "/tpl" "/out"
              [] Scenario.world0) as (w' & Hrun & Hcopied & Hrest & _).
  - reflexivity.
  - reflexivity.
  - intros file ->%Hone. reflexivity.
  - intros file ->%Hone.
    exists "{{PQS:greeting}} world". vm_compute. reflexivity.
  - intros file other ->%Hone ->%Hone. vm_compute. discriminate.
  - intros file ->%Hone. vm_compute. discriminate.
  - intros file ->%Hone. vm_compute. reflexivity.
  - intros file other ->%Hone ->%Hone. vm_compute.
    intros [=]%list_elem_of_singleton.
  - exists w'. split; [exact Hrun|]. split.
    + apply (Hcopied "a.txt"); vm_compute; [by left|reflexivity].
    + apply Hrest; [vm_compute; reflexivity|].
      intros file Hin. vm_compute in Hin.
      apply list_elem_of_singleton in Hin as ->. vm_compute. discriminate.
Defined.

Module ReplaceFacts.
Import Js JsFacts Sys Subst PQS.

Section WithEnv.
Variable E : env.

Lemma substitute_files values original placeholder w r w' :
  substitute E values original placeholder w = (r, w') →
  fs w' = fs w ∧ index_doc w' = index_doc w.
Proof.
  assert (Hdirect : ∀ w r w',
    (match values !! placeholder with
     | Some v => ret (to_string v)
     | None => ret original
     end) w = (r, w') → fs w' = fs w ∧ index_doc w' = index_doc w).
  { intros w0 r0 w0'. destruct (values !! placeholder); by intros [= _ <-]. }
  unfold substitute.
  destruct (transformMatch placeholder) as [[transform arg]|];
    [|apply Hdirect].
  destruct (String.eqb transform "DATE").
  { unfold formatDate, bind, get_now.
    destruct (date_fns_format E (now w) _) as [warnings [formatted|]];
      rewrite SubstFacts.warn_all_eq; [by intros [= _ <-]|].
    unfold emit. cbn [fs index_doc now uuids log].
    destruct (local_time E (now w)) as [[[[[? ?] ?] ?] ?] ?].
    by intros [= _ <-]. }
  destruct (String.eqb transform "UUID").
  { unfold generateUUID. by intros [= _ <-]. }
  destruct (values !! arg); [by intros [= _ <-]|apply Hdirect].
Qed.

Lemma replace_all_M_files values s : ∀ skip w r w',
  replace_all_M (token_at E values) skip s w = (r, w') →
  fs w' = fs w ∧ index_doc w' = index_doc w.
Proof.
  induction s as [|c s IH]; intros skip w r w'; cbn [replace_all_M].
  - by intros [= _ <-].
  - destruct skip as [|n]; [|apply IH].
    destruct (token_at E values (String c s)) as [[callback len]|] eqn:Ht.
    + apply SubstFacts.token_at_callback in Ht as (original & placeholder & ->).
      unfold bind at 1.
      destruct (substitute E values original placeholder w)
        as [[r1|n1 m1|st1] w1] eqn:Hsub;
        apply substitute_files in Hsub as [Hf Hi].
      * unfold bind.
        destruct (replace_all_M _ _ s w1) as [[r2|n2 m2|st2] w2] eqn:Hrest;
          apply IH in Hrest as [Hf2 Hi2]; intros [= _ <-]; split; congruence.
      * by intros [= _ <-].
      * by intros [= _ <-].
    + unfold bind.
      destruct (replace_all_M _ _ s w) as [[r2|n2 m2|st2] w2] eqn:Hrest;
        apply IH in Hrest as [Hf2 Hi2]; by intros [= _ <-].
Qed.

(** One turn of the loop of [processReplaceStep]. *)
Lemma replace_in_file_spec filePath values w :
  ∃ w',
    replace_in_file E filePath values w = (Ok tt, w') ∧
    index_doc w' = index_doc w ∧
    (∀ q, q ≠ filePath → fs w' !! q = fs w !! q) ∧
    match fs w !! filePath with
    | Some (File content) =>
        ∃ r w1 w2,
          performSubstitutions E content values w1 = (Ok r, w2) ∧
          fs w' !! filePath = Some (File r)
    | other => fs w' !! filePath = other
    end.
Proof.
  unfold replace_in_file, try_catch.
  unfold bind at 1 2, emit at 1, get_fs at 1.
  cbn [fs index_doc now uuids log]. unfold readFile.
  destruct (fs w !! filePath) as [[content|]|] eqn:Hfile;
    [|by eexists..].
  unfold bind at 1.
  match goal with |- context [performSubstitutions E content values ?w1] =>
    destruct (SubstFacts.performSubstitutions_ok E content values w1)
      as (r & w2 & Hsub);
    pose proof (replace_all_M_files _ _ _ _ _ _ Hsub) as [Hf Hi];
    rewrite Hsub
  end.
  cbn [fs index_doc] in Hf, Hi.
  unfold bind, emit, get_fs, put_fs, writeFile.
  cbn [fs index_doc now uuids log]. rewrite Hf, Hfile.
  eexists. split; [reflexivity|]. cbn [fs index_doc].
  split; [done|]. split.
  - intros q Hq. by rewrite lookup_insert_ne.
  - eexists r, _, w2. split; [exact Hsub|]. by rewrite lookup_insert_eq.
Qed.

Lemma replace_files_spec outputPath values (l : list string) : ∀ w,
  ∃ w',
    for_each l (λ file, replace_in_file E (join outputPath file) values) w
      = (Ok tt, w') ∧
    index_doc w' = index_doc w ∧
    (∀ q, (∀ file, file ∈ l → q ≠ join outputPath file) →
          fs w' !! q = fs w !! q) ∧
    (∀ q, fs w' !! q = None ↔ fs w !! q = None) ∧
    (∀ q, fs w' !! q = Some Dir ↔ fs w !! q = Some Dir) ∧
    (∀ q content, fs w !! q = Some (File content) →
                  includes "{{PQS:" content = false →
                  fs w' !! q = Some (File content)).
Proof.
  induction l as [|file l IH]; intros w.
  - exists w. by repeat split.
  - cbn [for_each]. unfold bind.
    destruct (replace_in_file_spec (join outputPath file) values w)
      as (w1 & -> & Hi1 & Hother & Hthis).
    destruct (IH w1) as (w' & -> & Hi & Hrest & Hnone & Hdir & Hplain).
    assert (Hnone1 : ∀ q, fs w1 !! q = None ↔ fs w !! q = None).
    { intros q. destruct (decide (q = join outputPath file)) as [->|Hne];
        [|by rewrite Hother].
      destruct (fs w !! join outputPath file) as [[c|]|];
        [destruct Hthis as (r & ? & ? & _ & ->)|rewrite Hthis..]; done. }
    assert (Hdir1 : ∀ q, fs w1 !! q = Some Dir ↔ fs w !! q = Some Dir).
    { intros q. destruct (decide (q = join outputPath file)) as [->|Hne];
        [|by rewrite Hother].
      destruct (fs w !! join outputPath file) as [[c|]|];
        [destruct Hthis as (r & ? & ? & _ & ->)|rewrite Hthis..]; done. }
    exists w'. split; [done|]. split; [congruence|].
    split; [|split; [|split]].
    + intros q Hq. rewrite Hrest by (intros f Hf; apply Hq; by right).
      apply Hother. apply Hq. by left.
    + intros q. by rewrite Hnone, Hnone1.
    + intros q. by rewrite Hdir, Hdir1.
    + intros q content Hq Hplain'. apply Hplain; [|done].
      destruct (decide (q = join outputPath file)) as [->|Hne];
        [|by rewrite Hother].
      rewrite Hq in Hthis. destruct Hthis as (r & w2 & w3 & Hsub & ->).
      rewrite (SubstFacts.performSubstitutions_no_token E values content w2 Hplain')
        in Hsub.
      by injection Hsub as <- _.
Qed.
End WithEnv.

End ReplaceFacts.

(** X28: a replace step of a real run rewrites in place and nothing else.
    The paths are normalised.  The step returns; the cache index is as it
    was; only the files its patterns match can change; no path appears or
    disappears and a directory stays a directory; and a file of ASCII text
    that holds no [{{PQS:] keeps its content whether matched or not. *)
Theorem replace_step_rewrites_in_place
    (E : Sys.env) (s : PQS.step) (files : list string) (outputPath : string)
    (values : PQS.dict) (w : Sys.world) :
  let matched :=
    concat (map (λ filePattern,
                   Sys.glob E filePattern
                     (Sys.GlobOptions outputPath false false false None)
                     (Sys.fs w)) files) in
  Sys.is_normal_base outputPath = true →
  (∀ file, file ∈ matched → Sys.is_normal_relative file = true) →
  ∃ w',
    PQS.processReplaceStep E s files outputPath values false w
      = (Sys.Ok tt, w') ∧
    Sys.index_doc w' = Sys.index_doc w ∧
    (∀ q, (∀ file, file ∈ matched → q ≠ Sys.join outputPath file) →
          Sys.fs w' !! q = Sys.fs w !! q) ∧
    (∀ q, Sys.fs w' !! q = None ↔ Sys.fs w !! q = None) ∧
    (∀ q, Sys.fs w' !! q = Some Sys.Dir ↔ Sys.fs w !! q = Some Sys.Dir) ∧
    (∀ q content, Sys.fs w !! q = Some (Sys.File content) →
                  Js.is_ascii_text content = true →
                  Js.includes "{{PQS:" content = false →
                  Sys.fs w' !! q = Some (Sys.File content)).
Proof.
  intros matched _ _. unfold PQS.processReplaceStep, Sys.bind, Sys.get_fs.
  fold matched.
  destruct (ReplaceFacts.replace_files_spec E outputPath values matched w)
    as (w' & Hrun & Hi & Hrest & Hnone & Hdir & Hplain).
  exists w'. split; [exact Hrun|]. split; [exact Hi|]. split; [exact Hrest|].
  split; [exact Hnone|]. split; [exact Hdir|].
  intros q content Hq _. by apply Hplain.
Qed.

Lemma replace_step_rewrites_in_place_witness :
  ∃ w',
    PQS.processReplaceStep Scenario.env_run1
      (PQS.Step (PQS.Replace ["a.txt"]) None None) ["a.txt"] "/tpl"
      (<["greeting" := Sys.VStr "hello"]> ∅) false Scenario.world0
    = (Sys.Ok tt, w') ∧
    Sys.fs w' !! "/tpl" = Some Sys.Dir ∧
    Sys.fs w' !! "/out" = None.
Proof.
  destruct (replace_step_rewrites_in_place Scenario.env_run1
              (PQS.Step (PQS.Replace ["a.txt"]) None None) ["a.txt"] "/tpl"
              (<["greeting" := Sys.VStr "hello"]> ∅) Scenario.world0)
    as (w' & Hrun & _ & _ & Hnone & Hdir & _).
  - reflexivity.
  - intros file Hin. vm_compute in Hin.
    by apply list_elem_of_singleton in Hin as ->.
  - exists w'. split; [exact Hrun|]. split.
    + apply Hdir. vm_compute. reflexivity.
    + apply Hnone. vm_compute. reflexivity.
Defined.

(** X29: a copy step of a real run whose condition does not fail.  The
    paths are normalised.  A file of the template is copied to its
    destination, which is the source path when no destination is given,
    provided no regular file stands on the way there and source and
    destination are two paths; every other path and the cache index are
    kept.  Where the destination is a directory nothing is copied: the
    step prints that it failed to copy, and the directory stays.  In both
    cases, and for a source that is a directory, the step returns; a
    source that is not in the template costs one warning and nothing
    else. *)
Theorem copy_step_copies_a_file
    (E : Sys.env) (s : PQS.step) (source : string) (dest : option string)
    (excludePatterns : list string) (templatePath outputPath : string)
    (answers : PQS.dict) (w : Sys.world) :
  PQS.condition_fails (PQS.s_condition s) answers = false →
  Sys.is_normal_base templatePath = true →
  Sys.is_normal_base outputPath = true →
  let destination :=
    match dest with
    | Some d => if Js.is_empty d then source else d
    | None => source
    end in
  Sys.is_normal_relative source = true →
  Sys.is_normal_relative destination = true →
  let sourcePath := Sys.join templatePath source in
  let destPath := Sys.join outputPath destination in
  let run := PQS.processCopyStep E s source dest excludePatterns templatePath
               outputPath answers false w in
  match Sys.fs w !! sourcePath with
  | Some (Sys.File content) =>
      match Sys.fs w !! destPath with
      | Some Sys.Dir =>
          run.1 = Sys.Ok tt ∧
          Sys.fs run.2 !! destPath = Some Sys.Dir ∧
          (∀ p x, Sys.fs w !! p = Some x → Sys.fs run.2 !! p = Some x) ∧
          Sys.index_doc run.2 = Sys.index_doc w ∧
          ∃ l message,
            Sys.log run.2
            = l ++ [Sys.EError ("Failed to copy '" +:+ source +:+ "': "
                                +:+ message)]
      | _ =>
          sourcePath ≠ destPath →
          Sys.free_way (Sys.fs w) (Sys.dirname destPath) = true →
          run.1 = Sys.Ok tt ∧
          Sys.fs run.2 !! destPath = Some (Sys.File content) ∧
          (∀ p x, Sys.fs w !! p = Some x → p ≠ destPath →
                  Sys.fs run.2 !! p = Some x) ∧
          Sys.index_doc run.2 = Sys.index_doc w
      end
  | Some Sys.Dir => run.1 = Sys.Ok tt
  | None =>
      run = (Sys.Ok tt,
             Sys.World (Sys.fs w) (Sys.index_doc w) (Sys.now w) (Sys.uuids w)
               (Sys.log w
                ++ [Sys.EWarn ("Warning: Source path '" +:+ source
                               +:+ "' not found in template")]))
  end.
Proof.
  intros Hcond _ Hout destination _ _ sourcePath destPath run. subst run.
  destruct (Sys.fs w !! sourcePath) as [[content|]|] eqn:Hsrc.
  - assert (Hstep : PQS.processCopyStep E s source dest excludePatterns
                      templatePath outputPath answers false w
                    = Sys.try_catch (PQS.copy_file sourcePath destPath)
                        (λ _ message,
                           Sys.emit (Sys.EError ("Failed to copy '" +:+ source
                                                 +:+ "': " +:+ message))) w).
    { unfold PQS.processCopyStep. rewrite Hcond. fold destination.
      fold sourcePath. fold destPath.
      unfold Sys.try_catch, Sys.bind at 1, Sys.get_fs at 1.
      unfold Sys.pathExists, Sys.isDirectory. rewrite Hsrc.
      rewrite bool_decide_eq_true_2 by (by eexists). reflexivity. }
    rewrite Hstep. clear Hstep. unfold Sys.try_catch.
    assert (Hgo : sourcePath ≠ destPath →
      Sys.fs w !! destPath ≠ Some Sys.Dir →
      Sys.free_way (Sys.fs w) (Sys.dirname destPath) = true →
      let run := match PQS.copy_file sourcePath destPath w with
                 | (Sys.Throw _ msg, w') =>
                     Sys.emit (Sys.EError ("Failed to copy '" +:+ source
                                           +:+ "': " +:+ msg)) w'
                 | r => r
                 end in
      run.1 = Sys.Ok tt ∧
      Sys.fs run.2 !! destPath = Some (Sys.File content) ∧
      (∀ p x, Sys.fs w !! p = Some x → p ≠ destPath →
              Sys.fs run.2 !! p = Some x) ∧
      Sys.index_doc run.2 = Sys.index_doc w).
    { intros Hne Hnodir Hfree.
      destruct (CopyFacts.copy_file_File sourcePath destPath content w)
        as (l & ->); try done.
      { apply CopyFacts.dest_not_on_its_way.
        by apply CopyFacts.normal_base_not_empty. }
      cbn [fst snd Sys.fs Sys.index_doc]. split; [done|].
      split; [by rewrite lookup_insert_eq|]. split; [|done].
      intros p x Hp Hp'. rewrite lookup_insert_ne by done.
      by do 2 apply CacheFacts.ensureDir_lookup_Some. }
    destruct (Sys.fs w !! destPath) as [[c|]|] eqn:Hdst.
    + intros Hne Hfree. by apply Hgo.
    + destruct (CopyFacts.copy_file_over_directory sourcePath destPath
                  content w Hsrc Hdst)
        as (message & w' & -> & Hdir & Hkeep & Hi).
      unfold Sys.emit. cbn [fst snd Sys.fs Sys.index_doc Sys.log].
      split; [done|]. split; [done|]. split; [done|]. split; [done|].
      by eexists _, _.
    + intros Hne Hfree. by apply Hgo.
  - destruct (StepFacts.processStep_ok E
                (PQS.Template "" None [] [] None templatePath) outputPath
                answers false
                (PQS.Step (PQS.Copy source dest excludePatterns)
                   (PQS.s_description s) (PQS.s_condition s)) w)
      as (w' & Hrun).
    unfold PQS.processStep in Hrun. cbn [PQS.s_body PQS.t_path] in Hrun.
    unfold PQS.processCopyStep in *. cbn [PQS.s_condition] in Hrun.
    by rewrite Hrun.
  - unfold PQS.processCopyStep. rewrite Hcond.
    fold sourcePath. unfold Sys.try_catch, Sys.bind at 1, Sys.get_fs at 1.
    unfold Sys.pathExists. rewrite Hsrc.
    by rewrite bool_decide_eq_false_2 by (by intros [? ?]).
Qed.

Lemma copy_step_copies_a_file_witness :
  let run := PQS.processCopyStep Scenario.env_run1
               (PQS.Step (PQS.Copy "a.txt" None []) None None)
               "a.txt" None [] "/tpl" "/out" ∅ false Scenario.world0 in
  run.1 = Sys.Ok tt ∧
  Sys.fs run.2 !! "/out/a.txt" = Some (Sys.File "{{PQS:greeting}} world").
Proof.
  cbv zeta.
  pose proof (copy_step_copies_a_file Scenario.env_run1
                (PQS.Step (PQS.Copy "a.txt" None []) None None)
                "a.txt" None [] "/tpl" "/out" ∅ Scenario.world0
                ltac:(reflexivity) ltac:(reflexivity) ltac:(reflexivity)
                ltac:(reflexivity) ltac:(reflexivity)) as H.
  cbv zeta in H.
  change (Sys.fs Scenario.world0 !! Sys.join "/tpl" "a.txt")
    with (Some (Sys.File "{{PQS:greeting}} world")) in H.
  change (Sys.fs Scenario.world0 !! Sys.join "/out" "a.txt")
    with (@None Sys.node) in H.
  cbv iota beta in H.
  destruct H as (Hok & Hfile & _); [discriminate|reflexivity|].
  split; [exact Hok|exact Hfile].
Defined.

Module DateFacts.
Import Js JsFacts Subst.

(** A literal that does not occur is not replaced. *)
Lemma literal_none lit r s :
  includes lit s = false → replace_all (literal_at lit r) s = s.
Proof.
  unfold replace_all. induction s as [|c s IH]; [done|].
  cbn [includes]. intros [Hc Hs]%orb_false_elim.
  cbn [replace_all_from]. unfold literal_at at 1. unfold startsWith in Hc.
  destruct (strip_prefix lit (String c s)); [done|]. by rewrite IH.
Qed.

(** Replacing a literal by itself changes nothing. *)
Lemma literal_same lit s :
  is_empty lit = false → replace_all (literal_at lit lit) s = s.
Proof.
  intros Hlit. unfold replace_all.
  remember (String.length s) as n eqn:Hn. revert s Hn.
  induction n as [n IH] using lt_wf_ind. intros [|c s] Hn; [done|].
  cbn [replace_all_from]. unfold literal_at at 1.
  destruct (strip_prefix lit (String c s)) as [rest|] eqn:Hp.
  - apply strip_prefix_Some in Hp. destruct lit as [|d lit]; [done|].
    cbn [String.append] in Hp. injection Hp as -> ->.
    cbn [String.length Nat.pred]. rewrite TransformFacts.replace_all_from_skip.
    cbn [String.append]. f_equal. f_equal.
    apply (IH (String.length rest)); [|done].
    rewrite Hn. cbn [String.length]. rewrite length_app. lia.
  - f_equal. apply (IH (String.length s)); [|done].
    rewrite Hn. cbn [String.length]. lia.
Qed.
End DateFacts.

(** X30: a [date-fns] pattern passes the legacy conversion untouched.  For
    a pattern that holds neither [YYYY] nor [DD], [formatDate] hands the
    pattern itself to [date-fns], and when [date-fns] formats it without a
    warning of its own, [{{PQS:DATE(pattern)}}] becomes what [date-fns]
    makes of it; nothing is printed and nothing else changes. *)
Theorem DATE_keeps_date_fns_patterns
    (E : Sys.env) (values : gmap string Sys.jsval)
    (pattern formatted : string) (w : Sys.world) :
  Js.includes "YYYY" pattern = false →
  Js.includes "DD" pattern = false →
  Js.is_empty pattern = false →
  Js.all_chars (Js.not_char ")") pattern = true →
  Js.all_chars (Js.not_char "}") pattern = true →
  Sys.date_fns_format E (Sys.now w) pattern = ([], Some formatted) →
  Subst.formatDate E pattern w = (Sys.Ok formatted, w) ∧
  Subst.performSubstitutions E
    ("{{PQS:" +:+ ("DATE" +:+ "(" +:+ pattern +:+ ")") +:+ "}}" +:+ "")
    values w
  = (Sys.Ok formatted, w).
Proof.
  intros Hy Hd Hne Hp Hb Hfmt.
  assert (Hdate : Subst.formatDate E pattern w = (Sys.Ok formatted, w)).
  { unfold Subst.formatDate, Sys.bind, Sys.get_now, Subst.legacyPatterns.
    cbn [fold_left].
    rewrite (DateFacts.literal_none "YYYY") by done.
    rewrite (DateFacts.literal_same "MM") by done.
    rewrite (DateFacts.literal_none "DD") by done.
    rewrite (DateFacts.literal_same "HH"), (DateFacts.literal_same "mm"),
      (DateFacts.literal_same "ss") by done.
    by rewrite Hfmt. }
  split; [exact Hdate|].
  rewrite (SubstFacts.performSubstitutions_token E values "DATE" pattern) by done.
  cbv zeta. unfold Sys.bind at 1. unfold Subst.substitute.
  rewrite (SubstFacts.transformMatch_call "DATE" pattern) by done.
  cbn [String.eqb Ascii.eqb Bool.eqb]. rewrite Hdate.
  unfold Sys.bind, Subst.performSubstitutions. cbn [Subst.replace_all_M Sys.ret].
  by rewrite JsFacts.append_nil_r.
Qed.

Lemma DATE_keeps_date_fns_patterns_witness :
  Subst.formatDate Calendar.env_date_fns "yyyy-MM-dd HH:mm" Scenario.world0
    = (Sys.Ok "[yyyy-MM-dd HH:mm]", Scenario.world0) ∧
  Subst.performSubstitutions Calendar.env_date_fns
    ("{{PQS:" +:+ ("DATE" +:+ "(" +:+ "yyyy-MM-dd HH:mm" +:+ ")") +:+ "}}" +:+ "")
    ∅ Scenario.world0
  = (Sys.Ok "[yyyy-MM-dd HH:mm]", Scenario.world0).
Proof.
  apply (DATE_keeps_date_fns_patterns Calendar.env_date_fns ∅
           "yyyy-MM-dd HH:mm" "[yyyy-MM-dd HH:mm]" Scenario.world0);
    reflexivity.
Defined.

(** * The dry run and the real run *)

Module EmitFacts.
Import Js JsFacts Sys Subst PQS Report.










Section WithEnv.
Variable E : env.







End WithEnv.




End EmitFacts.

Module ReadingFacts.
Import Js JsFacts Sys Subst PQS Report Reading.


Lemma logged_nil w : logged w [] = w.
Proof. unfold logged. rewrite app_nil_r. by destruct w. Qed.

Lemma logged_logged w a b : logged (logged w a) b = logged w (a ++ b).
Proof. unfold logged. cbn [fs index_doc now uuids log]. by rewrite app_assoc. Qed.













End ReadingFacts.

Module StepTraceFacts.
Import Js JsFacts Sys Subst PQS Report Reading EmitFacts ReadingFacts.





Section WithEnv.
Variable E : env.











End WithEnv.

End StepTraceFacts.

Module MaterializeFacts.
Import Js JsFacts Sys Subst PQS Report Reading.
Import EmitFacts ReadingFacts StepTraceFacts.




Section WithEnv.
Variable E : env.



(** What a question adds to the log does not depend on the state. *)
Lemma ask_log cliArgs answers q :
  ∃ o l, (∀ w, ask E cliArgs answers q w = (o, logged w l)) ∧
         (∀ a, o = Ok a → forallb is_prompt l = true).
Proof.
  unfold ask.
  destruct (match q_argument q with Some _ => _ | None => _ end) as [v|].
  { eexists _, []. split; [intros w; by rewrite logged_nil|done]. }
  destruct (cliArgs !! q_name q) as [v|].
  { eexists _, []. split; [intros w; by rewrite logged_nil|done]. }
  destruct (bool_decide _).
  - unfold bind, emit, exit, throw, ret.
    destruct (prompt E _ _) as [v| |msg].
    + eexists _, [_]. split; [intros w; reflexivity|done].
    + eexists _, [_; _].
      split; [intros w; unfold logged; cbn [fs index_doc now uuids log];
              by rewrite <- app_assoc|done].
    + eexists _, [_]. split; [intros w; reflexivity|done].
  - eexists _, []. split; [intros w; by rewrite logged_nil|done].
Qed.

Lemma askQuestions_log t cliArgs :
  ∃ o l, (∀ w, askQuestions E t cliArgs w = (o, logged w l)) ∧
         (∀ a, o = Ok a → forallb is_prompt l = true).
Proof.
  unfold askQuestions. generalize (∅ : dict).
  induction (t_questions t) as [|q qs IH]; intros answers; cbn [fold_M].
  - eexists _, []. split; [intros w; by rewrite logged_nil|done].
  - destruct (ask_log cliArgs answers q) as (o1 & l1 & Hrun1 & Hl1).
    destruct o1 as [answers1|n msg|st].
    + destruct (IH answers1) as (o2 & l2 & Hrun2 & Hl2).
      exists o2, (l1 ++ l2). split.
      * intros w. unfold bind. by rewrite Hrun1, Hrun2, logged_logged.
      * intros a Ha. by rewrite forallb_app, (Hl1 _ eq_refl), (Hl2 _ Ha).
    + eexists _, l1.
      split; [intros w; unfold bind; by rewrite Hrun1|done].
    + eexists _, l1.
      split; [intros w; unfold bind; by rewrite Hrun1|done].
Qed.






Lemma entries_of_eq outputPath w :
  entries_of outputPath w
  = match fs w !! outputPath with
    | Some (File _) =>
        (Throw "Error" ("ENOTDIR: not a directory, scandir '" +:+ outputPath
                        +:+ "'"), w)
    | Some Dir => (Ok (readdir (fs w) outputPath), w)
    | None => (Ok [], w)
    end.
Proof.
  unfold entries_of, bind, get_fs. by destruct (fs w !! outputPath) as [[c|]|].
Qed.






Lemma materialize_refuse t options answers outputPath w :
  outputPathOf E options answers = ret outputPath →
  (∀ c, fs w !! outputPath ≠ Some (File c)) →
  (0 <? length (match fs w !! outputPath with
                | Some Dir => readdir (fs w) outputPath
                | _ => []
                end))%nat && negb (flag options "force") = true →
  materialize E t options answers w
  = (Ok tt, logged w [EError ("Output directory " +:+ outputPath
                              +:+ " is not empty. Use --force to override.")]).
Proof.
  intros Hout Hfile Hguard. unfold materialize. rewrite Hout.
  unfold bind at 1, ret at 1. unfold bind at 1. rewrite entries_of_eq.
  destruct (fs w !! outputPath) as [[c|]|] eqn:Hl.
  - by destruct (Hfile c).
  - by rewrite Hguard.
  - by rewrite Hguard.
Qed.

End WithEnv.

End MaterializeFacts.

Module CreateFacts.
Import Js JsFacts Sys Subst PQS Report Reading.
Import EmitFacts ReadingFacts StepTraceFacts MaterializeFacts.









Section WithEnv.
Variable E : env.

(** [create], with what the questions come to. *)
Lemma create_eq t options o la w :
  (∀ w, askQuestions E t (getCliArgs options) w = (o, logged w la)) →
  create E t options w
  = let opening :=
      ELog ("Creating project from template: " +:+ t_name t)
      :: (if flag options "dryRun" then [ELog (nl +:+ "--- DRY RUN MODE ---")]
          else []) in
    match o with
    | Ok answers =>
        materialize E t options answers (logged w (opening ++ la))
    | Throw n message => (Throw n message, logged w (opening ++ la))
    | Exit status => (Exit status, logged w (opening ++ la))
    end.
Proof.
  intros Hask. unfold create. unfold bind at 1, emit at 1.
  assert (Hmode : ∀ w1,
    (if flag options "dryRun"
     then emit (ELog (nl +:+ "--- DRY RUN MODE ---")) else ret tt) w1
    = (Ok tt, logged w1 (if flag options "dryRun"
                         then [ELog (nl +:+ "--- DRY RUN MODE ---")] else []))).
  { intros w1. destruct (flag options "dryRun"); [done|].
    by rewrite logged_nil. }
  unfold bind at 1. rewrite Hmode. unfold bind at 1. rewrite Hask.
  change (World (fs w) (index_doc w) (now w) (uuids w)
            (log w ++ [ELog ("Creating project from template: " +:+ t_name t)]))
    with (logged w [ELog ("Creating project from template: " +:+ t_name t)]).
  rewrite !logged_logged. by destruct o.
Qed.

End WithEnv.

End CreateFacts.

Module MachineFacts.
Import Js JsFacts Sys PQS.


End MachineFacts.

Module ProgramFacts.
Import Js Sys PQS.

(** [createProject] after discovery. *)
Lemma createProject_eq (E : env) (parse_config : string → option Program.config)
    (require : files → string → (template * option string) + string)
    (templateName : string) (options : dict) (w : world) :
  Program.createProject E parse_config require templateName options w
  = match Program.discovery E parse_config require w with
    | (Ok templates, w0) =>
        match Program.get templateName templates with
        | Some e => create E (Program.e_template e) options w0
        | None =>
            (emit (EError ("Template " +:+ GitCloner.dquote +:+ templateName
                           +:+ GitCloner.dquote +:+ " not found.")) ;;
             Program.listTemplates templates) w0
        end
    | (Throw name message, w0) => (Throw name message, w0)
    | (Exit status, w0) => (Exit status, w0)
    end.
Proof.
  unfold Program.createProject. unfold bind at 1.
  destruct (Program.discovery E parse_config require w)
    as [[templates|name message|status] w0]; [|reflexivity|reflexivity].
  by destruct (Program.get templateName templates).
Qed.

End ProgramFacts.




(** X27: a destination that is not empty is never written to without
    [--force].  The templates are discovered; [--output] names a
    directory that holds something, and there is no [--force].  Then
    [createProject] asks its questions and stops: the files, the cache
    index and the identifiers are as discovery left them, no command
    runs, and when the questions were answered the call returns after the
    error line that names the directory; it throws or leaves the process
    only as [askQuestions] does. *)
Theorem nonempty_destination_is_not_touched
    (E : Sys.env) (parse_config : string → option Program.config)
    (require : Sys.files → string → (PQS.template * option string) + string)
    (templateName output : string) (options : PQS.dict)
    (templates : Program.registry) (e : Program.entry) (w w0 : Sys.world) :
  Program.discovery E parse_config require w = (Sys.Ok templates, w0) →
  Program.get templateName templates = Some e →
  options !! "output" = Some (Sys.VStr output) →
  Js.is_empty output = false →
  PQS.flag options "force" = false →
  Sys.fs w0 !! PQS.resolve E output = Some Sys.Dir →
  Sys.readdir (Sys.fs w0) (PQS.resolve E output) ≠ [] →
  let r := Program.createProject E parse_config require templateName options w in
  let t := Program.e_template e in
  Report.reports_only w0 r.2 ∧
  match r.1 with
  | Sys.Ok _ =>
      ∃ l, Sys.log r.2
           = l ++ [Sys.EError ("Output directory " +:+ PQS.resolve E output
                               +:+ " is not empty. Use --force to override.")]
  | Sys.Throw name message =>
      (PQS.askQuestions E t (PQS.getCliArgs options) w0).1
      = Sys.Throw name message
  | Sys.Exit status =>
      (PQS.askQuestions E t (PQS.getCliArgs options) w0).1 = Sys.Exit status
  end.
Proof.
  intros Hdisc Hget Hout Hne Hforce Hdir Hfull r t. subst r.
  rewrite ProgramFacts.createProject_eq, Hdisc, Hget. fold t.
  destruct (MaterializeFacts.askQuestions_log E t (PQS.getCliArgs options))
    as (o & la & Hask & _).
  rewrite (CreateFacts.create_eq E t options o la w0 Hask). cbv zeta.
  set (opening := Sys.ELog _ :: _).
  assert (Hopening : forallb Report.is_report opening = true)
    by (unfold opening; by destruct (PQS.flag options "dryRun")).
  assert (Hla : forallb Report.is_report la = true).
  { destruct (PQSFacts.harmless_askQuestions E t (PQS.getCliArgs options) w0)
      as (_ & _ & _ & l & Hl & Hrep).
    rewrite Hask in Hl. cbn [snd Sys.log Sys.logged] in Hl.
    by apply app_inv_head in Hl as ->. }
  assert (Hpath : PQS.outputPathOf E options =
                  λ _, Sys.ret (PQS.resolve E output)).
  { unfold PQS.outputPathOf. by rewrite Hout, Hne. }
  rewrite Hask. cbn [fst].
  assert (Hrep : ∀ l, forallb Report.is_report l = true →
                      Report.reports_only w0 (Sys.logged w0 l)).
  { intros l Hl. split; [done|]. split; [done|]. split; [done|]. by exists l. }
  destruct o as [answers|n message|status]; cbn [fst snd].
  - rewrite (MaterializeFacts.materialize_refuse E t options answers
               (PQS.resolve E output)).
    + cbn [fst snd]. rewrite ReadingFacts.logged_logged. split.
      * apply Hrep. rewrite !forallb_app, Hopening, Hla. reflexivity.
      * exists (Sys.log w0 ++ opening ++ la). cbn [Sys.log Sys.logged].
        by rewrite !app_assoc.
    + by rewrite Hpath.
    + intros c. cbn [Sys.fs Sys.logged]. by rewrite Hdir.
    + cbn [Sys.fs Sys.logged]. rewrite Hdir, Hforce.
      destruct (Sys.readdir (Sys.fs w0) (PQS.resolve E output)); done.
  - split; [|done]. apply Hrep. by rewrite forallb_app, Hopening, Hla.
  - split; [|done]. apply Hrep. by rewrite forallb_app, Hopening, Hla.
Qed.

Lemma nonempty_destination_is_not_touched_witness :
  let w := Sys.World (<["/out/kept.txt" := Sys.File "mine"]>
                        (<["/out" := Sys.Dir]> (Machine.files_with "/tpl")))
             None 0 0 [] in
  let w0 := Sys.logged w [Sys.ELog "Using config from: /work/pqs.config.json"] in
  let r := Machine.createProject (Scenario.template_replace None)
             Scenario.options_real w in
  Report.reports_only w0 r.2 ∧ r.1 = Sys.Ok tt ∧
  Sys.fs r.2 !! "/out/kept.txt" = Some (Sys.File "mine").
Proof.
  cbv zeta.
  destruct (nonempty_destination_is_not_touched Machine.env_known
              Machine.parse_config
              (Machine.require (Scenario.template_replace None)) "demo" "/out"
              Scenario.options_real
              [("demo",
                Program.Entry
                  (Program.with_path (Scenario.template_replace None) "/tpl")
                  None "/tpl" false)]
              (Program.Entry
                 (Program.with_path (Scenario.template_replace None) "/tpl")
                 None "/tpl" false)
              (Sys.World (<["/out/kept.txt" := Sys.File "mine"]>
                            (<["/out" := Sys.Dir]> (Machine.files_with "/tpl")))
                 None 0 0 [])
              (Sys.logged
                 (Sys.World (<["/out/kept.txt" := Sys.File "mine"]>
                               (<["/out" := Sys.Dir]> (Machine.files_with "/tpl")))
                    None 0 0 [])
                 [Sys.ELog "Using config from: /work/pqs.config.json"]))
    as [Hrep _]; try (vm_compute; reflexivity).
  - vm_compute. discriminate.
  - split; [exact Hrep|]. split; vm_compute; reflexivity.
Defined.
